(** * DownCLI: a shallow embedding of the concurrent downloader

    The program (DownCLI.py) is almost entirely calls into three libraries:
    [requests] (HTTP), [rich.progress] (the terminal display) and
    [concurrent.futures] (the worker pool).  The embedding keeps the program's
    own control flow as monadic code over an explicit state, and gives each
    library call the small piece of behaviour the program relies on.

    - [World] is what the program cannot control: the network's answers and
      the pieces a body arrives in, what opening a file does, which file
      operations fail, the instant of the interrupt.
    - [State] is everything the program changes: the display's task table,
      files, open handles, the jobs handed to the pool, and a trace of effects.
    - [M] is state plus exceptions; a Python [raise] that nobody catches is
      [Raise e].
*)

From Stdlib Require Import Ascii String ZArith List Lia.
From stdpp Require Import base option list gmap strings pretty.

Open Scope Z_scope.
Open Scope string_scope.
Open Scope list_scope.

(** ** Python built-ins used by the program *)

Module Py.

Abbreviation bytes := (list Byte.byte).

(** [len(x)] as a Python integer. *)
Definition len {A} (l : list A) : Z := Z.of_nat (length l).

(** [s.split(sep)] for a one-character separator. The result is never
    empty, so [[0]] and [[-1]] on it cannot raise. *)
Fixpoint split (sep : ascii) (s : string) : list string :=
  match s with
  | EmptyString => [EmptyString]
  | String c s' =>
      if Ascii.eqb c sep then EmptyString :: split sep s'
      else match split sep s' with
           | [] => [String c EmptyString]
           | w :: ws => String c w :: ws
           end
  end.

(** [l[-1]] and [l[0]] on the result of a split. *)
Definition last_item (l : list string) : string := List.last l "".
Definition first_item (l : list string) : string := List.hd "" l.

Definition startswith (c : ascii) (s : string) : bool :=
  match s with
  | String c' _ => Ascii.eqb c' c
  | EmptyString => false
  end.

Fixpoint endswith (c : ascii) (s : string) : bool :=
  match s with
  | EmptyString => false
  | String c' EmptyString => Ascii.eqb c' c
  | String _ s' => endswith c s'
  end.

(** [os.path.join(a, b)] for two arguments, by the rules of a POSIX system
    (posixpath). On Windows the module is ntpath, with other rules. *)
Definition os_path_join (a b : string) : string :=
  if startswith "/" b then b
  else if (String.eqb a "" || endswith "/" a)%bool then a +:+ b
  else a +:+ "/" +:+ b.

(** [str(n)] for an integer. *)
Definition str (n : Z) : string := pretty n.

(** ASCII lower-casing, as [str.lower] acts on header names. *)
Definition lower_ascii (c : ascii) : ascii :=
  let n := nat_of_ascii c in
  if ((65 <=? n) && (n <=? 90))%nat then ascii_of_nat (n + 32) else c.

Fixpoint lower (s : string) : string :=
  match s with
  | EmptyString => EmptyString
  | String c s' => String (lower_ascii c) (lower s')
  end.

(** Characters [int()] strips from both ends of a [str] of code points
    below 256: the ASCII white space of C (tab to carriage return, space)
    and the two other white-space code points, U+0085 and U+00A0. The
    separators 28 to 31 are not stripped. *)
Definition is_space (c : ascii) : bool :=
  let n := nat_of_ascii c in
  (((9 <=? n) && (n <=? 13)) || (n =? 32) || (n =? 133) || (n =? 160))%nat.

Definition digit_of (c : ascii) : option Z :=
  let n := nat_of_ascii c in
  if ((48 <=? n) && (n <=? 57))%nat then Some (Z.of_nat (n - 48)) else None.

Fixpoint lstrip (s : string) : string :=
  match s with
  | String c s' => if is_space c then lstrip s' else s
  | EmptyString => EmptyString
  end.

Definition strip (s : string) : string :=
  String.rev (lstrip (String.rev (lstrip s))).

(** Decimal digits with single underscores allowed between digits.
    [after_digit] says whether the previous character was a digit. *)
Fixpoint digits (acc : Z) (after_digit : bool) (s : string) : option Z :=
  match s with
  | EmptyString => if after_digit then Some acc else None
  | String c s' =>
      match digit_of c with
      | Some d => digits (10 * acc + d) true s'
      | None =>
          if (Ascii.eqb c "_" && after_digit)%bool then digits acc false s'
          else None
      end
  end.

(** The number of digit characters of [s]. *)
Fixpoint digit_count (s : string) : Z :=
  match s with
  | EmptyString => 0
  | String c s' =>
      match digit_of c with Some _ => 1 | None => 0 end + digit_count s'
  end.

(** The interpreter's default limit on the digits of a decimal string that
    [int] converts ([sys.int_info.default_max_str_digits]): underscores and
    the sign do not count, leading zeros do. *)
Definition MAX_STR_DIGITS : Z := 4300.

Definition number (s : string) : option Z :=
  if Z.ltb MAX_STR_DIGITS (digit_count s) then None else digits 0 false s.

(** [int(s)] in base 10; [None] is ValueError. *)
Definition int (s : string) : option Z :=
  match strip s with
  | String "-" s' => Z.opp <$> number s'
  | String "+" s' => number s'
  | s' => number s'
  end.

End Py.

Import Py.

(** ** Exceptions and results *)

Inductive exn :=
| RequestException      (* requests: the transport failed *)
| ChunkedEncodingError  (* requests: the body stream broke mid-way *)
| KeyError
| ValueError
| IndexError
| OSError.

Inductive result (A : Type) :=
| Ok (a : A)
| Raise (e : exn).
Arguments Ok {A} a.
Arguments Raise {A} e.

(** ** HTTP as the program sees it (requests) *)

Inductive Request :=
| Get (url : string) (stream : bool)
| Head (url : string).

(** [headers] is requests' CaseInsensitiveDict: keys are stored lower-cased.
    [content] is the body the server delivers; [truncated] says the
    connection breaks after those bytes, before the body is complete.
    [cuts] is how the transport hands the body to a reader of the live
    stream: an entry [k] is a piece of [S k] bytes. *)
Record Response := {
  status_code : Z;
  headers : gmap string string;
  content : bytes;
  truncated : bool;
  cuts : list nat
}.

(** [name in headers] / [headers[name]]. *)
Definition header (r : Response) (name : string) : option string :=
  headers r !! lower name.

(** [requests.codes.ok] *)
Definition codes_ok : Z := 200.

(** requests' [iter_slices]: consecutive slices of [n] bytes, the last one
    possibly shorter, none for an empty body. [fuel] bounds the number of
    slices; [length s] is always enough. *)
Fixpoint iter_slices_fuel (fuel : nat) (n : nat) (s : bytes) : list bytes :=
  match fuel with
  | O => []
  | S fuel' =>
      match s with
      | [] => []
      | _ => take n s :: iter_slices_fuel fuel' n (drop n s)
      end
  end.

Definition iter_slices (n : nat) (s : bytes) : list bytes :=
  iter_slices_fuel (length s) (if (n =? 0)%nat then length s else n) s.

(** The slices of [n] bytes that have arrived in full. *)
Definition full_slices (n : nat) (s : bytes) : list bytes :=
  List.filter (fun p => (length p =? n)%nat) (iter_slices n s).

(** The pieces a live stream yields to a reader that asks for [n] bytes at a
    time. Their sizes are the transport's, as in a chunked transfer; what
    the stream still holds when [sizes] runs out comes in slices of [n]
    bytes, as for a body framed by its length. The last piece of a whole
    stream may be short. On a stream that breaks, a piece that was not
    received in full is never yielded. *)
Fixpoint stream_pieces (n : nat) (sizes : list nat) (whole : bool)
    (body : bytes) : list bytes :=
  match sizes with
  | [] => if whole then iter_slices n body else full_slices n body
  | k :: sizes' =>
      match body with
      | [] => []
      | _ =>
          if (whole || (S k <=? length body)%nat)%bool
          then take (S k) body :: stream_pieces n sizes' whole (drop (S k) body)
          else []
      end
  end.

(** [response.iter_content(n)]: the pieces the iterator yields, and whether
    it raises after them. Once [response.content] has been read
    ([consumed]), the buffered body is cut into slices of [n] bytes;
    otherwise the live stream is read. *)
Definition iter_content (r : Response) (consumed : bool) (n : nat)
    : list bytes * bool :=
  if consumed then (iter_slices n (content r), false)
  else (stream_pieces n (cuts r) (negb (truncated r)) (content r), truncated r).

(** ** The display (rich.progress) *)

Record Task := {
  t_description : string;
  t_filename : string;
  t_contenttype : string;
  t_responsecode : string;
  t_total : option Z;
  t_completed : Z;
  t_started : bool
}.

Definition task_set_total (n : Z) (t : Task) : Task :=
  {| t_description := t_description t; t_filename := t_filename t;
     t_contenttype := t_contenttype t; t_responsecode := t_responsecode t;
     t_total := Some n; t_completed := t_completed t;
     t_started := t_started t |}.

Definition task_advance (n : Z) (t : Task) : Task :=
  {| t_description := t_description t; t_filename := t_filename t;
     t_contenttype := t_contenttype t; t_responsecode := t_responsecode t;
     t_total := t_total t; t_completed := t_completed t + n;
     t_started := t_started t |}.

Definition task_start (t : Task) : Task :=
  {| t_description := t_description t; t_filename := t_filename t;
     t_contenttype := t_contenttype t; t_responsecode := t_responsecode t;
     t_total := t_total t; t_completed := t_completed t;
     t_started := true |}.

(** ** Jobs handed to the pool: the arguments of [copy_url] *)

Record Job := {
  j_task : nat;
  j_url : string;
  j_path : string
}.

(** ** Effects, in the order they happen *)

Inductive Event :=
| EvPrintHelp
| EvLog (msg : string)
| EvRequest (r : Request)
| EvDisplayStart
| EvDisplayStop
| EvAddTask (task_id : nat)
| EvSetTotal (task_id : nat) (total : Z)
| EvStartTask (task_id : nat)
| EvAdvance (task_id : nat) (n : Z)
| EvOpen (path : string)
| EvRead (n : nat)
| EvWrite (path : string) (data : bytes)
| EvClose (path : string)
| EvIsSet (b : bool)
| EvPoolOpen (max_workers : nat)
| EvSubmit (j : Job)
| EvPoolShutdown.

(** ** World and state *)

(** What [open(path, "wb")] does. [from rich.progress import *] binds every
    public name of that module. Where the module has an [open] of its own
    (rich 12.1.0 and later), that function is the one called, and it refuses
    the mode "wb" with ValueError. Elsewhere the builtin is called: it
    creates or truncates the file, or raises OSError. *)
Inductive open_outcome :=
| Opened
| Refused   (* ValueError *)
| Failed.   (* OSError *)

(** [net k req]: the answer to the [k]-th request this thread issues
    ([None]: the transport fails). [opens path]: what opening [path] for
    writing does. [io_error t = Some k]: the file operation that the thread
    makes after [t] effects (a write, or the close that flushes what was
    written) fails with OSError, and of the bytes the file was to hold only
    the first [k] are there afterwards. [sigint_at = Some t]: the interrupt
    handler runs when this thread has performed [t] effects. *)
Record World := {
  net : nat -> Request -> option Response;
  opens : string -> open_outcome;
  io_error : nat -> option nat;
  sigint_at : option nat
}.

Record State := {
  tasks : list Task;
  live : bool;
  fs : gmap string bytes;
  handles : list string;
  submitted : list Job;
  trace : list Event
}.

Definition request_of (e : Event) : option Request :=
  match e with EvRequest r => Some r | _ => None end.

(** The requests issued so far. *)
Definition requests (s : State) : list Request := omap request_of (trace s).

Definition emit (e : Event) (s : State) : State :=
  {| tasks := tasks s; live := live s; fs := fs s; handles := handles s;
     submitted := submitted s; trace := trace s ++ [e] |}.

Definition set_tasks (ts : list Task) (s : State) : State :=
  {| tasks := ts; live := live s; fs := fs s; handles := handles s;
     submitted := submitted s; trace := trace s |}.

Definition set_live (b : bool) (s : State) : State :=
  {| tasks := tasks s; live := b; fs := fs s; handles := handles s;
     submitted := submitted s; trace := trace s |}.

Definition set_fs (f : gmap string bytes) (s : State) : State :=
  {| tasks := tasks s; live := live s; fs := f; handles := handles s;
     submitted := submitted s; trace := trace s |}.

Definition set_handles (h : list string) (s : State) : State :=
  {| tasks := tasks s; live := live s; fs := fs s; handles := h;
     submitted := submitted s; trace := trace s |}.

Definition set_submitted (js : list Job) (s : State) : State :=
  {| tasks := tasks s; live := live s; fs := fs s; handles := handles s;
     submitted := js; trace := trace s |}.

Definition init_state : State :=
  {| tasks := []; live := false; fs := ∅; handles := [];
     submitted := []; trace := [] |}.

(** The interrupt handler has set [done_event] by the time the thread has
    performed [now] effects. The flag is never cleared. *)
Definition interrupted (w : World) (now : nat) : bool :=
  match sigint_at w with
  | Some t => bool_decide (t <= now)%nat
  | None => false
  end.

(** ** The monad: state and exceptions *)

Definition M (A : Type) : Type := World -> State -> result A * State.

Global Instance M_ret : MRet M := fun A a _ s => (Ok a, s).

Global Instance M_bind : MBind M := fun A B f m w s =>
  match m w s with
  | (Ok a, s') => f a w s'
  | (Raise e, s') => (Raise e, s')
  end.

Definition raise {A} (e : exn) : M A := fun _ s => (Raise e, s).

Definition effect (e : Event) : M unit := fun _ s => (Ok tt, emit e s).

Definition modify (f : State -> State) : M unit := fun _ s => (Ok tt, f s).

(** [try: body finally: cleanup], for a cleanup that cannot fail. *)
Definition finally {A} (body : M A) (cleanup : State -> State) : M A :=
  fun w s => let '(r, s') := body w s in (r, cleanup s').

(** [for x in l: f x] *)
Fixpoint for_each {A} (f : A -> M unit) (l : list A) : M unit :=
  match l with
  | [] => mret tt
  | x :: l' => f x ;; for_each f l'
  end.

(** ** Library calls *)

Module Lib.

(** [progress.console.log(msg)]. The text is taken to be well-formed console
    markup; rich raises MarkupError for a closing tag that closes nothing. *)
Definition console_log (msg : string) : M unit := effect (EvLog msg).

(** [requests.get(url, stream=...)] and [requests.head(url)]: the request is
    recorded, then the world answers it or the call raises. *)
Definition send (req : Request) : M Response := fun w s =>
  let k := length (requests s) in
  match net w k req with
  | Some r => (Ok r, emit (EvRequest req) s)
  | None => (Raise RequestException, emit (EvRequest req) s)
  end.

Definition requests_get (url : string) (stream : bool) : M Response :=
  send (Get url stream).

Definition requests_head (url : string) : M Response :=
  send (Head url).

(** [response.headers[name]] *)
Definition getitem (r : Response) (name : string) : M string :=
  match header r name with
  | Some v => mret v
  | None => raise KeyError
  end.

(** [response.content]: all of the body, or the stream's failure. *)
Definition response_content (r : Response) : M bytes :=
  if truncated r then raise ChunkedEncodingError else mret (content r).

(** [int(s)] *)
Definition int_of (s : string) : M Z :=
  match int s with
  | Some n => mret n
  | None => raise ValueError
  end.

(** [progress.add_task(description, start=False, **fields)]: ids count up
    from 0 and tasks are never removed, so the id is the table's length.
    rich's default total is 100. The fields are taken to be well-formed
    console markup, as for [console_log]. *)
Definition add_task (description filename contenttype responsecode : string) : M nat :=
  fun _ s =>
    let task_id := length (tasks s) in
    let t := {| t_description := description; t_filename := filename;
                t_contenttype := contenttype; t_responsecode := responsecode;
                t_total := Some 100; t_completed := 0; t_started := false |} in
    (Ok task_id, emit (EvAddTask task_id) (set_tasks (tasks s ++ [t]) s)).

(** [progress._tasks[task_id]] raises KeyError for an unknown id. *)
Definition with_task (task_id : nat) (e : Event) (f : Task -> Task) : M unit :=
  fun _ s =>
    match tasks s !! task_id with
    | Some t => (Ok tt, emit e (set_tasks (<[task_id := f t]> (tasks s)) s))
    | None => (Raise KeyError, s)
    end.

(** [progress.update(task_id, total=n)] *)
Definition update_total (task_id : nat) (n : Z) : M unit :=
  with_task task_id (EvSetTotal task_id n) (task_set_total n).

(** [progress.update(task_id, advance=n)] *)
Definition update_advance (task_id : nat) (n : Z) : M unit :=
  with_task task_id (EvAdvance task_id n) (task_advance n).

(** [progress.start_task(task_id)] *)
Definition start_task (task_id : nat) : M unit :=
  with_task task_id (EvStartTask task_id) task_start.

(** [with progress: body]: the live display is started, and stopped on every
    way out of [body]. *)
Definition with_progress {A} (body : M A) : M A :=
  modify (fun s => emit EvDisplayStart (set_live true s)) ;;
  finally body (fun s => emit EvDisplayStop (set_live false s)).

(** [with ThreadPoolExecutor(max_workers=n) as pool: body]. Leaving the block
    calls [shutdown(wait=True)]. The jobs themselves run on the pool's
    threads: what one job does is [copy_url] below, when it runs is [Pool]. *)
Definition with_pool {A} (n : nat) (body : M A) : M A :=
  effect (EvPoolOpen n) ;;
  finally body (emit EvPoolShutdown).

(** [pool.submit(copy_url, task_id, url, dest_path)] *)
Definition pool_submit (j : Job) : M unit :=
  modify (fun s => emit (EvSubmit j) (set_submitted (submitted s ++ [j]) s)).

(** Removing one handle on [path]. *)
Fixpoint release (path : string) (h : list string) : list string :=
  match h with
  | [] => []
  | p :: h' => if String.eqb p path then h' else p :: release path h'
  end.

(** [dest_file.close()], called on leaving the [with] block: the handle is
    released in any case; when flushing fails, OSError is raised and the
    file keeps the bytes that reached it. *)
Definition file_close (path : string) : M unit := fun w s =>
  let s' := emit (EvClose path) (set_handles (release path (handles s)) s) in
  match io_error w (length (trace s)) with
  | None => (Ok tt, s')
  | Some k =>
      (Raise OSError,
       set_fs (<[path := take k (default [] (fs s !! path))]> (fs s)) s')
  end.

(** [with open(path, "wb") as dest_file: body]: the file is created or
    truncated; the file is closed on every way out of [body], and an
    exception of the close takes the place of [body]'s result. *)
Definition with_open {A} (path : string) (body : M A) : M A := fun w s =>
  match opens w path with
  | Refused => (Raise ValueError, s)
  | Failed => (Raise OSError, s)
  | Opened =>
      let '(r, s1) :=
        body w (emit (EvOpen path)
                  (set_handles (path :: handles s)
                     (set_fs (<[path := []]> (fs s)) s))) in
      match file_close path w s1 with
      | (Ok _, s2) => (r, s2)
      | (Raise e, s2) => (Raise e, s2)
      end
  end.

(** [dest_file.write(data)]: the bytes are appended, or OSError is raised
    and the file keeps the bytes that reached it. *)
Definition file_write (path : string) (data : bytes) : M unit := fun w s =>
  let old := default [] (fs s !! path) in
  match io_error w (length (trace s)) with
  | None =>
      (Ok tt, emit (EvWrite path data) (set_fs (<[path := old ++ data]> (fs s)) s))
  | Some k =>
      (Raise OSError, set_fs (<[path := take k (old ++ data)]> (fs s)) s)
  end.

(** [done_event.is_set()]: true once the interrupt handler has run. *)
Definition done_event_is_set : M bool := fun w s =>
  let b := interrupted w (length (trace s)) in
  (Ok b, emit (EvIsSet b) s).

(** [printf(...)] of the usage text. *)
Definition print_help_msg : M unit := effect EvPrintHelp.

End Lib.

Import Lib.

(** ** The Fetcher: [copy_url] *)

(** How the body of the [for] loop was left. *)
Inductive flow := Continue | Return.

Definition CHUNK : nat := Z.to_nat 32768.

(** [for data in response.iter_content(32768): ...]. [chunks] are the pieces
    the iterator yields; with [broken] the iterator raises after them. *)
Fixpoint stream_loop (task_id : nat) (path : string)
    (chunks : list bytes) (broken : bool) : M flow :=
  match chunks with
  | [] => if broken then raise ChunkedEncodingError else mret Continue
  | data :: rest =>
      effect (EvRead (length data)) ;;
      file_write path data ;;
      update_advance task_id (len data) ;;
      stop ← done_event_is_set ;
      if stop : bool then (mret Return : M flow)
      else stream_loop task_id path rest broken
  end.

(** [consumed] records whether [response.content] was read for the total:
    the iterator of the loop then goes over the buffered body. *)
Definition copy_url (task_id : nat) (url path : string) : M unit :=
  console_log ("Requesting " +:+ url) ;;
  response ← requests_get url true ;
  meta ← requests_head url ;
  consumed ←
    match header meta "Content-Length" with
    | Some v => n ← int_of v ; update_total task_id n ;; mret false
    | None =>
        body ← response_content response ;
        update_total task_id (len body) ;; mret true
    end ;
  fl ← with_open path
         (start_task task_id ;;
          let '(chunks, broken) := iter_content response consumed CHUNK in
          stream_loop task_id path chunks broken) ;
  match fl with
  | Return => mret tt
  | Continue => console_log ("Downloaded " +:+ path)
  end.

(** ** The Dispatcher: [download] *)

Definition MAX_WORKERS : nat := 4.

(** One turn of [for url in urls]. *)
Definition dispatch (dest_dir : string) (url : string) : M unit :=
  let filename := last_item (split "/" url) in
  response ← requests_head url ;
  ct ← getitem response "Content-Type" ;
  let contenttype := first_item (split ";" ct) in
  let filename :=
    if String.eqb contenttype "text/plain" then filename +:+ ".txt"
    else filename in
  let dest_path := os_path_join dest_dir filename in
  let responsecode :=
    if Z.eqb (status_code response) codes_ok
    then "[green]" +:+ str (status_code response) +:+ "[/]"
    else "[red]" +:+ str (status_code response) +:+ "[/]" in
  task_id ← add_task "download" filename contenttype responsecode ;
  pool_submit {| j_task := task_id; j_url := url; j_path := dest_path |}.

Definition download (urls : list string) (dest_dir : string) : M unit :=
  with_progress
    (with_pool MAX_WORKERS
       (for_each (dispatch dest_dir) urls)).

(** ** The entry point *)

Definition is_in (x : string) (l : list string) : bool :=
  existsb (String.eqb x) l.

(** The [__main__] block on [sys.argv]. Arguments are evaluated left to
    right, so [sys.argv[2]] raises IndexError before [download] is entered. *)
Definition main (argv : list string) : M unit :=
  if (2 <=? length argv)%nat then
    match argv !! 1%nat with
    | None => raise IndexError
    | Some a1 =>
        if is_in a1 ["-h"; "--help"] then
          print_help_msg ;; download (drop 2 argv) "./"
        else if is_in a1 ["-d"; "--directory"] then
          match argv !! 2%nat with
          | Some d => download (drop 3 argv) d
          | None => raise IndexError
          end
        else download (drop 1 argv) "./"
    end
  else print_help_msg.

(** The interpreter's exit status: 0 when the script runs to its end, 1 when
    an exception reaches the top level. *)
Definition exit_status {A} (r : result A) : Z :=
  match r with
  | Ok _ => 0
  | Raise _ => 1
  end.

(** ** The worker pool (concurrent.futures.ThreadPoolExecutor)

    Jobs are named by their submission order: job [k] is the [k]-th call of
    [pool.submit]. A schedule is any interleaving of the Dispatcher's
    submissions with the workers taking and finishing jobs. *)

Module Pool.

Record t := {
  max_workers : nat;
  queue : list nat;            (* the work queue, oldest first *)
  threads : list (option nat); (* per worker thread: the job it is running *)
  idle : nat;                  (* the idle semaphore *)
  finished : list nat;         (* jobs that returned or raised *)
  next : nat                   (* number of jobs submitted so far *)
}.

Definition init (n : nat) : t :=
  {| max_workers := n; queue := []; threads := []; idle := 0;
     finished := []; next := 0 |}.

Inductive label :=
| Submit              (* the Dispatcher calls pool.submit *)
| Take (i : nat)      (* worker i takes the oldest queued job *)
| Finish (i : nat).   (* the job on worker i returns or raises *)

(** [submit] puts the work item on the queue, then [_adjust_thread_count]:
    no new thread when the idle semaphore can be taken, otherwise one more
    thread while there are fewer than [max_workers]. *)
Definition submit (p : t) : t :=
  let q := queue p ++ [next p] in
  match idle p with
  | S k =>
      {| max_workers := max_workers p; queue := q; threads := threads p;
         idle := k; finished := finished p; next := S (next p) |}
  | O =>
      {| max_workers := max_workers p; queue := q;
         threads := if (length (threads p) <? max_workers p)%nat
                    then threads p ++ [None] else threads p;
         idle := 0; finished := finished p; next := S (next p) |}
  end.

Definition step (l : label) (p : t) : option t :=
  match l with
  | Submit => Some (submit p)
  | Take i =>
      match threads p !! i, queue p with
      | Some None, j :: q =>
          Some {| max_workers := max_workers p; queue := q;
                  threads := <[i := Some j]> (threads p);
                  idle := idle p; finished := finished p; next := next p |}
      | _, _ => None
      end
  | Finish i =>
      match threads p !! i with
      | Some (Some j) =>
          Some {| max_workers := max_workers p; queue := queue p;
                  threads := <[i := None]> (threads p);
                  idle := S (idle p); finished := j :: finished p;
                  next := next p |}
      | _ => None
      end
  end.

(** Running a schedule; [None] when a step is not enabled. *)
Fixpoint run (ls : list label) (p : t) : option t :=
  match ls with
  | [] => Some p
  | l :: ls' =>
      match step l p with
      | Some p' => run ls' p'
      | None => None
      end
  end.

(** The jobs executing right now. *)
Definition running (p : t) : list nat := omap id (threads p).

(** Job [j] has been taken by a worker. *)
Definition started (p : t) (j : nat) : Prop :=
  j ∈ running p \/ j ∈ finished p.

(** What every schedule preserves: there are never more threads than
    [max_workers]; the queue holds the jobs [taken .. next-1] in order, and
    every earlier job has been started; and job number [max_workers] is only
    started once an earlier job has finished. *)
Definition inv (p : t) : Prop :=
  (length (threads p) <= max_workers p)%nat /\
  (exists taken, (taken <= next p)%nat /\
     queue p = seq taken (next p - taken) /\
     forall j, (j < taken)%nat -> started p j) /\
  (started p (max_workers p) ->
   exists j, (j < max_workers p)%nat /\ j ∈ finished p).

End Pool.

(** ** Reading traces *)

Definition is_read (e : Event) : bool :=
  match e with EvRead _ => true | _ => false end.

Definition is_write (e : Event) : bool :=
  match e with EvWrite _ _ => true | _ => false end.

Definition is_advance (e : Event) : bool :=
  match e with EvAdvance _ _ => true | _ => false end.

Definition is_check (e : Event) : bool :=
  match e with EvIsSet _ => true | _ => false end.

(** Reads, writes and counter advances: the events of moving bytes. *)
Definition is_transfer (e : Event) : bool :=
  (is_read e || is_write e || is_advance e)%bool.

Definition count (p : Event -> bool) (evs : list Event) : nat :=
  length (List.filter p evs).

(** What the loop does with one chunk, up to the counter update. *)
Definition transfer (task_id : nat) (path : string) (data : bytes) : list Event :=
  [EvRead (length data); EvWrite path data; EvAdvance task_id (len data)].

(** The counter updates of a Fetcher that has counted the pieces [done]. *)
Definition advances (task_id : nat) (done : list bytes) : list Event :=
  map (fun d => EvAdvance task_id (len d)) done.

(** The value of a task's byte counter after the events [evs], starting
    from [c0]. *)
Fixpoint counter (task_id : nat) (c0 : Z) (evs : list Event) : Z :=
  match evs with
  | [] => c0
  | EvAdvance i n :: evs' =>
      counter task_id (if (i =? task_id)%nat then c0 + n else c0) evs'
  | _ :: evs' => counter task_id c0 evs'
  end.

(** The events a run added to the trace. *)
Definition new_events (s s' : State) : list Event :=
  drop (length (trace s)) (trace s').

(** ** Probing a list of URLs *)

(** Every URL of [urls] answers its HEAD probe and names a Content-Type, when
    the first probe is the [k]-th request of the thread. *)
Fixpoint probes_ok (w : World) (k : nat) (urls : list string) : bool :=
  match urls with
  | [] => true
  | u :: rest =>
      match net w k (Head u) with
      | Some r =>
          match header r "Content-Type" with
          | Some _ => probes_ok w (S k) rest
          | None => false
          end
      | None => false
      end
  end.

(** What the Dispatcher's own thread may do to the state: the task table and
    the submissions only grow, files and handles are left alone, and the new
    events move no bytes. *)
Definition dispatcher_step (s s' : State) : Prop :=
  tasks s `prefix_of` tasks s' /\
  submitted s `prefix_of` submitted s' /\
  fs s' = fs s /\ handles s' = handles s /\
  exists evs, trace s' = trace s ++ evs /\ count is_transfer evs = 0%nat.

(** The total [copy_url] declares for a task, from the streamed GET response
    and the HEAD response; [Raise] when [int] or buffering the body raises. *)
Definition declared_total (response meta : Response) : result Z :=
  match header meta "Content-Length" with
  | Some v =>
      match int v with
      | Some n => Ok n
      | None => Raise ValueError
      end
  | None =>
      if truncated response then Raise ChunkedEncodingError
      else Ok (len (content response))
  end.

(** Whether [copy_url] reads [response.content] for the total: it does when
    the HEAD response has no Content-Length. *)
Definition buffered (meta : Response) : bool :=
  match header meta "Content-Length" with
  | Some _ => false
  | None => true
  end.

(** The pieces the loop of [copy_url] is given, and whether the iterator
    raises after them. *)
Definition pieces (response meta : Response) : list bytes :=
  fst (iter_content response (buffered meta) CHUNK).

Definition breaks (response meta : Response) : bool :=
  snd (iter_content response (buffered meta) CHUNK).

(** ** Sample inputs *)

(** A whole body, handed out in slices of the size asked for. *)
Definition mk_response (code : Z) (hs : list (string * string)) (body : bytes) : Response :=
  {| status_code := code; headers := list_to_map hs; content := body;
     truncated := false; cuts := [] |}.

(** The [k]-th request gets the [k]-th answer of the script; [None], and
    every request past the script's end, fails in transport. Files open and
    no file operation fails. *)
Definition net_script (answers : list (option Response)) (t : option nat) : World :=
  {| net := fun k _ => default None (answers !! k);
     opens := fun _ => Opened;
     io_error := fun _ => None;
     sigint_at := t |}.

Definition pending_task : Task :=
  {| t_description := "download"; t_filename := "f";
     t_contenttype := "text/html"; t_responsecode := "[green]200[/]";
     t_total := Some 100; t_completed := 0; t_started := false |}.

(** A display with one registered task, number 0. *)
Definition one_task : State :=
  {| tasks := [pending_task]; live := true; fs := ∅; handles := [];
     submitted := []; trace := [] |}.

Definition hello : bytes :=
  [Byte.x68; Byte.x65; Byte.x6c; Byte.x6c; Byte.x6f].

(** Five submissions, the first four jobs taken, job 2 over, and its
    worker taking the fifth job. *)
Definition five_jobs : list Pool.label :=
  [Pool.Submit; Pool.Submit; Pool.Submit; Pool.Submit; Pool.Submit;
   Pool.Take 0; Pool.Take 1; Pool.Take 2; Pool.Take 3;
   Pool.Finish 2; Pool.Take 2].

Definition five_jobs_state : Pool.t :=
  {| Pool.max_workers := 4; Pool.queue := [];
     Pool.threads := [Some 0; Some 1; Some 4; Some 3]%nat;
     Pool.idle := 1; Pool.finished := [2%nat]; Pool.next := 5 |}.

(** ** Proof steps used more than once *)

(** The requests in a trace given event by event. *)
Ltac requests_of_trace :=
  unfold requests;
  cbn [trace emit set_tasks set_fs set_handles set_live set_submitted snd];
  rewrite ?omap_app; cbn [omap list_omap request_of];
  rewrite ?app_nil_r, <- ?app_assoc; try reflexivity.

(** The events added to a trace given event by event. *)
Ltac new_events_of_trace :=
  unfold new_events;
  cbn [trace emit set_tasks set_fs set_handles set_live set_submitted snd];
  rewrite <- ?app_assoc, drop_app_length.

(** ** More sample inputs *)

(** The usual pair of answers: a body of five bytes and a HEAD response
    that declares them. *)
Definition hello_answers : list (option Response) :=
  [Some (mk_response 200 [] hello);
   Some (mk_response 200 [("content-length", "5")] [])].

(** The same five bytes received in pieces of three and two bytes, on a
    connection that breaks after them. *)
Definition broken_hello : Response :=
  {| status_code := 200; headers := ∅; content := hello; truncated := true;
     cuts := [2; 1]%nat |}.

(** The five bytes of a chunked transfer whose first chunk is "hel". *)
Definition chunked_hello : Response :=
  {| status_code := 200; headers := ∅; content := hello; truncated := false;
     cuts := [2]%nat |}.

(** The world of [net_script] with its file operations replaced. *)
Definition with_files (o : open_outcome) (io : nat -> option nat) (w : World) : World :=
  {| net := net w; opens := fun _ => o; io_error := io; sigint_at := sigint_at w |}.

(** ** Reading the Dispatcher's runs *)

(** [c in s] for a character. *)
Fixpoint contains (c : ascii) (s : string) : bool :=
  match s with
  | EmptyString => false
  | String c' s' => (Ascii.eqb c' c || contains c s')%bool
  end.

(** The events of one turn of the Dispatcher's loop: a HEAD request, a task
    registration, a submission. *)
Definition is_dispatch_event (e : Event) : bool :=
  match e with
  | EvRequest (Head _) | EvAddTask _ | EvSubmit _ => true
  | _ => false
  end.

(** The task [t] and the job [j] that one turn of the loop creates together,
    for some Content-Type header [ct]: the task is pending, its file name is
    the URL's last segment (with .txt for text/plain), and the job's path is
    that name joined to the destination directory. *)
Definition made_together (dest_dir : string) (j : Job) (t : Task) : Prop :=
  exists ct,
    t_contenttype t = first_item (split ";" ct) /\
    t_filename t =
      (if String.eqb (first_item (split ";" ct)) "text/plain"
       then last_item (split "/" (j_url j)) +:+ ".txt"
       else last_item (split "/" (j_url j))) /\
    j_path j = os_path_join dest_dir (t_filename t) /\
    t_started t = false /\ t_completed t = 0.

(** ** Reading the pool's schedules *)

(** The number of jobs the workers have taken from the queue so far. *)
Definition pool_taken (p : Pool.t) : nat :=
  Pool.next p - length (Pool.queue p).

(** The order the pool keeps: the queue holds the jobs not yet taken, oldest
    first; the started jobs are exactly the ones before them; no job is
    running twice or running after it has finished; and a pool that has been
    given a job has a thread to run it. *)
Definition pool_order (p : Pool.t) : Prop :=
  (length (Pool.queue p) <= Pool.next p)%nat /\
  Pool.queue p = seq (pool_taken p) (length (Pool.queue p)) /\
  NoDup (Pool.running p ++ Pool.finished p) /\
  (forall j, Pool.started p j <-> (j < pool_taken p)%nat) /\
  (Pool.threads p = [] ->
   Pool.idle p = 0%nat /\ (Pool.next p = 0%nat \/ Pool.max_workers p = 0%nat)).

(** * Properties *)

(** ** The monad *)

Lemma bind_ok {A B} (m : M A) (f : A -> M B) w s a s' :
  m w s = (Ok a, s') -> (m ≫= f) w s = f a w s'.
Proof. intros H. unfold mbind, M_bind. by rewrite H. Qed.

Lemma bind_raise {A B} (m : M A) (f : A -> M B) w s e s' :
  m w s = (Raise e, s') -> (m ≫= f) w s = (Raise e, s').
Proof. intros H. unfold mbind, M_bind. by rewrite H. Qed.

Lemma for_each_app {A} (f : A -> M unit) (l1 l2 : list A) w s :
  for_each f (l1 ++ l2) w s = (for_each f l1 ;; for_each f l2) w s.
Proof.
  revert s. induction l1 as [|x l1 IH]; intros s; simpl.
  - reflexivity.
  - unfold mbind, M_bind in *. destruct (f x w s) as [[[]|e] s1]; [|reflexivity].
    apply IH.
Qed.

Lemma requests_emit e s :
  requests (emit e s) = requests s ++ from_option (fun r => [r]) [] (request_of e).
Proof.
  unfold requests; simpl. rewrite omap_app. simpl.
  by destruct (request_of e).
Qed.

Lemma download_unfold urls dest_dir w s :
  download urls dest_dir w s =
    let s0 := emit (EvPoolOpen MAX_WORKERS) (emit EvDisplayStart (set_live true s)) in
    let '(r, s1) := for_each (dispatch dest_dir) urls w s0 in
    (r, emit EvDisplayStop (set_live false (emit EvPoolShutdown s1))).
Proof.
  unfold download, with_progress, with_pool, finally, modify, effect, mbind, M_bind.
  simpl. by destruct (for_each _ _ _ _) as [[[]|e] s1].
Qed.

Lemma dispatch_ok dest_dir url w s r ct :
  net w (length (requests s)) (Head url) = Some r ->
  header r "Content-Type" = Some ct ->
  let contenttype := first_item (split ";" ct) in
  let filename :=
    if String.eqb contenttype "text/plain"
    then last_item (split "/" url) +:+ ".txt" else last_item (split "/" url) in
  let t := {| t_description := "download"; t_filename := filename;
              t_contenttype := contenttype;
              t_responsecode :=
                if Z.eqb (status_code r) codes_ok
                then "[green]" +:+ str (status_code r) +:+ "[/]"
                else "[red]" +:+ str (status_code r) +:+ "[/]";
              t_total := Some 100; t_completed := 0; t_started := false |} in
  let j := {| j_task := length (tasks s); j_url := url;
              j_path := os_path_join dest_dir filename |} in
  exists s',
    dispatch dest_dir url w s = (Ok tt, s') /\
    tasks s' = tasks s ++ [t] /\
    submitted s' = submitted s ++ [j] /\
    trace s' = trace s ++ [EvRequest (Head url); EvAddTask (length (tasks s)); EvSubmit j] /\
    live s' = live s /\ fs s' = fs s /\ handles s' = handles s.
Proof.
  intros Hnet Hct. simpl.
  eexists. split.
  - unfold dispatch, requests_head, send, getitem, add_task, pool_submit, modify,
      mbind, M_bind. rewrite Hnet, Hct. simpl. reflexivity.
  - simpl. rewrite <- !app_assoc. simpl. repeat split; reflexivity.
Qed.

(** ** The Dispatcher *)

Lemma dispatcher_step_refl s : dispatcher_step s s.
Proof.
  repeat split; try reflexivity. exists []. by rewrite app_nil_r.
Qed.

Lemma count_app p (l1 l2 : list Event) : count p (l1 ++ l2) = (count p l1 + count p l2)%nat.
Proof. unfold count. by rewrite List.filter_app, length_app. Qed.

Lemma dispatcher_step_trans s1 s2 s3 :
  dispatcher_step s1 s2 -> dispatcher_step s2 s3 -> dispatcher_step s1 s3.
Proof.
  intros (Ht & Hs & Hf & Hh & E & HE & Hc) (Ht' & Hs' & Hf' & Hh' & E' & HE' & Hc').
  repeat split; try congruence; try (etrans; eassumption).
  exists (E ++ E'). rewrite HE', HE, app_assoc, count_app. split; [done | lia].
Qed.

Lemma dispatcher_step_emit e s :
  is_transfer e = false -> dispatcher_step s (emit e s).
Proof.
  intros He. repeat split; try reflexivity. exists [e]. split; [done|].
  unfold count. simpl. by rewrite He.
Qed.

Lemma dispatch_fail_net dest_dir url w s :
  net w (length (requests s)) (Head url) = None ->
  dispatch dest_dir url w s = (Raise RequestException, emit (EvRequest (Head url)) s).
Proof.
  intros H. unfold dispatch, requests_head, send, mbind, M_bind. by rewrite H.
Qed.

Lemma dispatch_fail_key dest_dir url w s r :
  net w (length (requests s)) (Head url) = Some r ->
  header r "Content-Type" = None ->
  dispatch dest_dir url w s = (Raise KeyError, emit (EvRequest (Head url)) s).
Proof.
  intros H Hk. unfold dispatch, requests_head, send, getitem, mbind, M_bind.
  by rewrite H, Hk.
Qed.

Lemma dispatch_step dest_dir url w s :
  dispatcher_step s (snd (dispatch dest_dir url w s)).
Proof.
  destruct (net w (length (requests s)) (Head url)) as [r|] eqn:Hnet.
  - destruct (header r "Content-Type") as [ct|] eqn:Hct.
    + destruct (dispatch_ok dest_dir url w s r ct Hnet Hct)
        as (s' & -> & Ht & Hs & Htr & _ & Hf & Hh). simpl.
      repeat split; try done.
      * by eexists.
      * by eexists.
      * eexists. split; [exact Htr | reflexivity].
    + rewrite (dispatch_fail_key _ _ _ _ _ Hnet Hct). by apply dispatcher_step_emit.
  - rewrite (dispatch_fail_net _ _ _ _ Hnet). by apply dispatcher_step_emit.
Qed.

Lemma for_each_dispatch_step dest_dir urls w s :
  dispatcher_step s (snd (for_each (dispatch dest_dir) urls w s)).
Proof.
  revert s. induction urls as [|u urls IH]; intros s; simpl.
  - apply dispatcher_step_refl.
  - unfold mbind, M_bind.
    pose proof (dispatch_step dest_dir u w s) as H1.
    destruct (dispatch dest_dir u w s) as [[[]|e] s1]; simpl in *; [|done].
    eapply dispatcher_step_trans; [exact H1 | apply IH].
Qed.

(** While the probes succeed the loop registers and submits one job per URL. *)
Lemma for_each_dispatch_ok dest_dir urls w s :
  probes_ok w (length (requests s)) urls = true ->
  exists s',
    for_each (dispatch dest_dir) urls w s = (Ok tt, s') /\
    requests s' = requests s ++ map Head urls /\
    length (tasks s') = (length (tasks s) + length urls)%nat /\
    length (submitted s') = (length (submitted s) + length urls)%nat.
Proof.
  revert s. induction urls as [|u urls IH]; intros s Hp; simpl in *.
  - exists s. rewrite app_nil_r. repeat split; lia.
  - destruct (net w (length (requests s)) (Head u)) as [r|] eqn:Hnet; [|done].
    destruct (header r "Content-Type") as [ct|] eqn:Hct; [|done].
    destruct (dispatch_ok dest_dir u w s r ct Hnet Hct)
      as (s1 & Hrun & Ht & Hs & Htr & _).
    assert (Hreq : requests s1 = requests s ++ [Head u]).
    { unfold requests. rewrite Htr, omap_app. reflexivity. }
    destruct (IH s1) as (s' & Hrun' & Hr' & Ht' & Hs').
    { rewrite Hreq, length_app. simpl.
      by replace (length (requests s) + 1)%nat with (S (length (requests s))) by lia. }
    exists s'. rewrite (bind_ok _ _ _ _ _ _ Hrun). split; [exact Hrun'|].
    rewrite Hr', Ht', Hs', Hreq, Ht, Hs, !length_app, <- app_assoc. simpl.
    repeat split; lia.
Qed.

Lemma probes_ok_app w k l1 l2 :
  probes_ok w k (l1 ++ l2) = (probes_ok w k l1 && probes_ok w (k + length l1) l2)%bool.
Proof.
  revert k. induction l1 as [|u l1 IH]; intros k; simpl.
  - by rewrite Nat.add_0_r.
  - destruct (net w k (Head u)) as [r|]; [|done].
    destruct (header r "Content-Type"); [|done].
    rewrite IH. do 2 f_equal. lia.
Qed.

Lemma requests_emit_other e s :
  request_of e = None -> requests (emit e s) = requests s.
Proof. intros H. rewrite requests_emit, H. apply app_nil_r. Qed.

(** [download] on a list whose first [length pre] probes succeed: the loop
    reaches [u] in a state [s1] that has one task and one job per URL of
    [pre], and the rest of the run is the turn for [u] and what follows. *)
Lemma download_split dest_dir pre u post w s :
  probes_ok w (length (requests s)) pre = true ->
  exists s1,
    requests s1 = requests s ++ map Head pre /\
    length (tasks s1) = (length (tasks s) + length pre)%nat /\
    length (submitted s1) = (length (submitted s) + length pre)%nat /\
    download (pre ++ u :: post) dest_dir w s =
      (let '(r, s2) := (dispatch dest_dir u ;; for_each (dispatch dest_dir) post) w s1 in
       (r, emit EvDisplayStop (set_live false (emit EvPoolShutdown s2)))).
Proof.
  intros Hp. rewrite download_unfold. cbv zeta.
  set (s0 := emit _ (emit _ (set_live true s))).
  assert (Hr0 : requests s0 = requests s).
  { unfold s0. by rewrite !requests_emit_other. }
  destruct (for_each_dispatch_ok dest_dir pre w s0) as (s1 & Hrun & Hr & Ht & Hs).
  { by rewrite Hr0. }
  exists s1. rewrite Hr, Hr0, Ht, Hs. repeat split.
  rewrite for_each_app, (bind_ok _ _ _ _ _ _ Hrun). reflexivity.
Qed.

(** The task and the job the Dispatcher creates for a URL whose probe
    answers with [r] and Content-Type [ct], and their places in the tables. *)
Lemma download_registers dest_dir pre u post w s r ct :
  probes_ok w (length (requests s)) pre = true ->
  net w (length (requests s) + length pre) (Head u) = Some r ->
  header r "Content-Type" = Some ct ->
  let s' := snd (download (pre ++ u :: post) dest_dir w s) in
  let task_id := (length (tasks s) + length pre)%nat in
  let contenttype := first_item (split ";" ct) in
  let filename :=
    if String.eqb contenttype "text/plain"
    then last_item (split "/" u) +:+ ".txt" else last_item (split "/" u) in
  tasks s' !! task_id =
    Some {| t_description := "download"; t_filename := filename;
            t_contenttype := contenttype;
            t_responsecode :=
              if Z.eqb (status_code r) codes_ok
              then "[green]" +:+ str (status_code r) +:+ "[/]"
              else "[red]" +:+ str (status_code r) +:+ "[/]";
            t_total := Some 100; t_completed := 0; t_started := false |} /\
  submitted s' !! (length (submitted s) + length pre)%nat =
    Some {| j_task := task_id; j_url := u;
            j_path := os_path_join dest_dir filename |}.
Proof.
  intros Hp Hnet Hct.
  destruct (download_split dest_dir pre u post w s Hp) as (s1 & Hr & Ht & Hs & ->).
  destruct (dispatch_ok dest_dir u w s1 r ct) as (s2 & Hrun & Ht2 & Hs2 & _); [|done|].
  { by rewrite Hr, length_app, length_map. }
  rewrite (bind_ok _ _ _ _ _ _ Hrun).
  pose proof (for_each_dispatch_step dest_dir post w s2) as (Hpt & Hps & _).
  destruct (for_each _ post w s2) as [res s3]. simpl in *.
  split.
  - eapply prefix_lookup_Some; [|exact Hpt].
    rewrite Ht2, <- Ht. by rewrite list_lookup_middle.
  - eapply prefix_lookup_Some; [|exact Hps].
    rewrite Hs2, <- Hs, <- Ht. by rewrite list_lookup_middle.
Qed.

(** C6. If the HEAD probe of a URL fails in transport, [download] does not
    catch it: the call raises, the display is torn down, and no later URL is
    probed, registered or submitted. *)
Theorem C6_probe_failure_aborts (w : World) (s : State) (dest_dir : string)
    (pre post : list string) (u : string) :
  probes_ok w (length (requests s)) pre = true ->
  net w (length (requests s) + length pre) (Head u) = None ->
  let out := download (pre ++ u :: post) dest_dir w s in
  fst out = Raise RequestException /\
  requests (snd out) = requests s ++ map Head pre ++ [Head u] /\
  length (tasks (snd out)) = (length (tasks s) + length pre)%nat /\
  length (submitted (snd out)) = (length (submitted s) + length pre)%nat /\
  live (snd out) = false.
Proof.
  intros Hp Hnet.
  destruct (download_split dest_dir pre u post w s Hp) as (s1 & Hr & Ht & Hs & ->).
  assert (Hnet1 : net w (length (requests s1)) (Head u) = None).
  { by rewrite Hr, length_app, length_map. }
  rewrite (bind_raise _ _ _ _ _ _ (dispatch_fail_net dest_dir u w s1 Hnet1)).
  simpl. repeat split; try done.
  rewrite !requests_emit_other by done.
  change (requests (set_live false ?x)) with (requests x).
  rewrite requests_emit_other by done. rewrite requests_emit. simpl.
  by rewrite Hr, <- app_assoc.
Qed.

(** C9. If the HEAD response of a URL has no Content-Type header, reading it
    raises KeyError, which [download] does not catch: the call raises before
    that URL's task is registered or its job submitted, and no later URL is
    probed. *)
Theorem C9_missing_content_type (w : World) (s : State) (dest_dir : string)
    (pre post : list string) (u : string) (r : Response) :
  probes_ok w (length (requests s)) pre = true ->
  net w (length (requests s) + length pre) (Head u) = Some r ->
  header r "Content-Type" = None ->
  let out := download (pre ++ u :: post) dest_dir w s in
  fst out = Raise KeyError /\
  requests (snd out) = requests s ++ map Head pre ++ [Head u] /\
  length (tasks (snd out)) = (length (tasks s) + length pre)%nat /\
  length (submitted (snd out)) = (length (submitted s) + length pre)%nat /\
  live (snd out) = false.
Proof.
  intros Hp Hnet Hct.
  destruct (download_split dest_dir pre u post w s Hp) as (s1 & Hr & Ht & Hs & ->).
  assert (Hnet1 : net w (length (requests s1)) (Head u) = Some r).
  { by rewrite Hr, length_app, length_map. }
  rewrite (bind_raise _ _ _ _ _ _ (dispatch_fail_key dest_dir u w s1 r Hnet1 Hct)).
  simpl. repeat split; try done.
  rewrite !requests_emit_other by done.
  change (requests (set_live false ?x)) with (requests x).
  rewrite requests_emit_other by done. rewrite requests_emit. simpl.
  by rewrite Hr, <- app_assoc.
Qed.

Lemma for_each_dispatch_fail dest_dir urls w s :
  probes_ok w (length (requests s)) urls = false ->
  exists e, fst (for_each (dispatch dest_dir) urls w s) = Raise e.
Proof.
  revert s. induction urls as [|u urls IH]; intros s Hp; simpl in *; [done|].
  destruct (net w (length (requests s)) (Head u)) as [r|] eqn:Hnet.
  - destruct (header r "Content-Type") as [ct|] eqn:Hct.
    + destruct (dispatch_ok dest_dir u w s r ct Hnet Hct)
        as (s1 & Hrun & _ & _ & Htr & _).
      rewrite (bind_ok _ _ _ _ _ _ Hrun). apply IH.
      unfold requests. rewrite Htr, omap_app, length_app. simpl.
      by replace (length (omap request_of (trace s)) + 1)%nat
        with (S (length (requests s))) by (unfold requests; lia).
    + exists KeyError.
      by rewrite (bind_raise _ _ _ _ _ _ (dispatch_fail_key _ _ _ _ _ Hnet Hct)).
  - exists RequestException.
    by rewrite (bind_raise _ _ _ _ _ _ (dispatch_fail_net _ _ _ _ Hnet)).
Qed.

(** [download] returns normally exactly when every probe succeeds. *)
Lemma download_exit dest_dir urls w s :
  exit_status (fst (download urls dest_dir w s)) =
    if probes_ok w (length (requests s)) urls then 0 else 1.
Proof.
  rewrite download_unfold. cbv zeta.
  set (s0 := emit _ (emit _ (set_live true s))).
  assert (Hr0 : requests s0 = requests s).
  { unfold s0. by rewrite !requests_emit_other. }
  destruct (probes_ok w (length (requests s)) urls) eqn:Hp; rewrite <- Hr0 in Hp.
  - destruct (for_each_dispatch_ok dest_dir urls w s0 Hp) as (s1 & -> & _). done.
  - destruct (for_each_dispatch_fail dest_dir urls w s0 Hp) as (e & He).
    destruct (for_each _ urls w s0) as [res s1]. simpl in *. by subst res.
Qed.

Lemma download_trace dest_dir urls w s :
  exists evs, trace (snd (download urls dest_dir w s)) = trace s ++ evs.
Proof.
  rewrite download_unfold. cbv zeta.
  set (s0 := emit _ (emit _ (set_live true s))).
  pose proof (for_each_dispatch_step dest_dir urls w s0) as (_ & _ & _ & _ & E & HE & _).
  destruct (for_each _ urls w s0) as [res s1]. simpl in *.
  rewrite HE. unfold s0. simpl. rewrite <- !app_assoc. by eexists.
Qed.

(** C2, as the code has it. The status is marked as success exactly when the
    HEAD response's code equals [requests.codes.ok], that is 200, and as
    failure for every other code, the other 2xx codes included; in both cases
    the job for the URL is submitted to the pool. *)
Theorem C2_status_indicator (w : World) (s : State) (dest_dir : string)
    (pre post : list string) (u : string) (r : Response) (ct : string) :
  probes_ok w (length (requests s)) pre = true ->
  net w (length (requests s) + length pre) (Head u) = Some r ->
  header r "Content-Type" = Some ct ->
  let s' := snd (download (pre ++ u :: post) dest_dir w s) in
  let task_id := (length (tasks s) + length pre)%nat in
  (exists t, tasks s' !! task_id = Some t /\
     (status_code r = 200 -> t_responsecode t = "[green]200[/]") /\
     (status_code r <> 200 ->
        t_responsecode t = "[red]" +:+ str (status_code r) +:+ "[/]")) /\
  (exists j, submitted s' !! (length (submitted s) + length pre)%nat = Some j /\
     j_task j = task_id /\ j_url j = u).
Proof.
  intros Hp Hnet Hct.
  destruct (download_registers dest_dir pre u post w s r ct Hp Hnet Hct) as [Ht Hj].
  split.
  - eexists. split; [exact Ht|]. simpl. unfold codes_ok. split; intros Hc.
    + by rewrite Hc.
    + by apply Z.eqb_neq in Hc as ->.
  - eexists. split; [exact Hj|]. done.
Qed.

(** C4. The task's content type is the Content-Type header up to its first
    semicolon. When it is exactly text/plain, the destination file name is
    the URL's last path segment with .txt appended; for every other content
    type it is the segment itself. *)
Theorem C4_txt_suffix (w : World) (s : State) (dest_dir : string)
    (pre post : list string) (u : string) (r : Response) (ct : string) :
  probes_ok w (length (requests s)) pre = true ->
  net w (length (requests s) + length pre) (Head u) = Some r ->
  header r "Content-Type" = Some ct ->
  let s' := snd (download (pre ++ u :: post) dest_dir w s) in
  let segment := last_item (split "/" u) in
  exists t j,
    tasks s' !! (length (tasks s) + length pre)%nat = Some t /\
    submitted s' !! (length (submitted s) + length pre)%nat = Some j /\
    t_contenttype t = first_item (split ";" ct) /\
    (t_contenttype t = "text/plain" ->
       t_filename t = segment +:+ ".txt" /\
       j_path j = os_path_join dest_dir (segment +:+ ".txt")) /\
    (t_contenttype t <> "text/plain" ->
       t_filename t = segment /\ j_path j = os_path_join dest_dir segment).
Proof.
  intros Hp Hnet Hct.
  destruct (download_registers dest_dir pre u post w s r ct Hp Hnet Hct) as [Ht Hj].
  eexists _, _. split; [exact Ht|]. split; [exact Hj|]. simpl.
  split; [done|]. split; intros Hc.
  - by rewrite Hc.
  - by apply String.eqb_neq in Hc as ->.
Qed.

(** C10. [download] of no URLs issues no request, registers no task and
    submits no job; it starts the display, opens and shuts the pool, stops the
    display and returns normally. The help path with no further argument is
    such a call. *)
Theorem C10_download_nothing (w : World) (s : State) (dest_dir : string) :
  let out := download [] dest_dir w s in
  fst out = Ok tt /\
  requests (snd out) = requests s /\
  tasks (snd out) = tasks s /\
  submitted (snd out) = submitted s /\
  trace (snd out) =
    trace s ++ [EvDisplayStart; EvPoolOpen MAX_WORKERS; EvPoolShutdown; EvDisplayStop] /\
  live (snd out) = false /\
  (forall prog, main [prog; "-h"] w s = download [] "./" w (emit EvPrintHelp s)) /\
  (forall prog, main [prog; "--help"] w s = download [] "./" w (emit EvPrintHelp s)).
Proof.
  rewrite download_unfold. simpl. repeat split.
  - unfold requests. simpl. rewrite <- !app_assoc, omap_app. simpl. apply app_nil_r.
  - by rewrite <- !app_assoc.
Qed.

(** C7, as the code has it. With -h or --help as first argument the program
    prints the usage text and then calls [download] on the remaining
    arguments with destination "./". Its exit status is that call's: 0 when
    every remaining URL is probed successfully (so also when none remains),
    1 when a probe raises. *)
Theorem C7_help_path (w : World) (s : State) (prog flag : string)
    (rest : list string) :
  flag = "-h" \/ flag = "--help" ->
  let out := main (prog :: flag :: rest) w s in
  out = download rest "./" w (emit EvPrintHelp s) /\
  (exists evs, trace (snd out) = trace s ++ EvPrintHelp :: evs) /\
  exit_status (fst out) = (if probes_ok w (length (requests s)) rest then 0 else 1).
Proof.
  intros Hflag.
  assert (Hmain : main (prog :: flag :: rest) w s
                  = download rest "./" w (emit EvPrintHelp s)).
  { destruct Hflag as [-> | ->]; reflexivity. }
  cbv zeta. rewrite Hmain. split; [done|]. split.
  - destruct (download_trace "./" rest w (emit EvPrintHelp s)) as (evs & ->).
    exists evs. simpl. by rewrite <- app_assoc.
  - rewrite download_exit. by rewrite requests_emit_other.
Qed.

(** ** The Fetcher's loop *)

Lemma task_advance_0 t : task_advance 0 t = t.
Proof. destruct t. unfold task_advance. simpl. f_equal. lia. Qed.

Lemma task_advance_add n m t :
  task_advance m (task_advance n t) = task_advance (n + m) t.
Proof. unfold task_advance. simpl. f_equal. lia. Qed.

Lemma len_app {A} (l1 l2 : list A) : len (l1 ++ l2) = len l1 + len l2.
Proof. unfold len. rewrite length_app. lia. Qed.

(** One turn of the loop whose write succeeds, for a task that is in the
    table. *)
Lemma stream_loop_cons task_id path d rest broken w s t :
  tasks s !! task_id = Some t ->
  io_error w (length (trace s) + 1) = None ->
  exists s1,
    stream_loop task_id path (d :: rest) broken w s =
      (if interrupted w (length (trace s) + 3)
       then (Ok Return, s1) else stream_loop task_id path rest broken w s1) /\
    trace s1 = trace s ++ transfer task_id path d
                 ++ [EvIsSet (interrupted w (length (trace s) + 3))] /\
    tasks s1 = <[task_id := task_advance (len d) t]> (tasks s) /\
    fs s1 = <[path := default [] (fs s !! path) ++ d]> (fs s) /\
    handles s1 = handles s /\ submitted s1 = submitted s /\ live s1 = live s.
Proof.
  intros Ht Hio. simpl.
  unfold effect, file_write, update_advance, with_task, done_event_is_set,
    mbind, M_bind. simpl. rewrite !length_app. simpl. rewrite Hio. simpl.
  rewrite Ht. simpl. rewrite !length_app. simpl.
  replace (length (trace s) + 1 + 1 + 1)%nat with (length (trace s) + 3)%nat by lia.
  set (s1 := emit (EvIsSet _) _). exists s1. split.
  - by destruct (interrupted w (length (trace s) + 3)).
  - unfold s1. simpl. rewrite <- !app_assoc. repeat split; reflexivity.
Qed.

(** One turn of the loop whose write fails: the chunk was read, the write
    raises, and the counter is not advanced. *)
Lemma stream_loop_cons_fail task_id path d rest broken w s k :
  io_error w (length (trace s) + 1) = Some k ->
  stream_loop task_id path (d :: rest) broken w s =
    (Raise OSError,
     set_fs (<[path := take k (default [] (fs s !! path) ++ d)]> (fs s))
       (emit (EvRead (length d)) s)).
Proof.
  intros Hio. simpl.
  unfold effect, file_write, mbind, M_bind. simpl.
  rewrite !length_app. simpl. by rewrite Hio.
Qed.

(** What the loop leaves behind: it has dealt with a prefix [done] of the
    chunks, a write that fails ends it, and nothing else has changed. *)
Lemma stream_loop_spec task_id path chunks broken w s t old :
  tasks s !! task_id = Some t ->
  fs s !! path = Some old ->
  let out := stream_loop task_id path chunks broken w s in
  exists done evs,
    done `prefix_of` chunks /\
    trace (snd out) = trace s ++ evs /\
    Forall (fun e => (is_transfer e || is_check e)%bool = true) evs /\
    tasks (snd out) = <[task_id := task_advance (len (concat done)) t]> (tasks s) /\
    (forall p, p <> path -> fs (snd out) !! p = fs s !! p) /\
    handles (snd out) = handles s /\
    submitted (snd out) = submitted s /\
    live (snd out) = live s /\
    (fst out <> Raise OSError ->
       List.filter is_transfer evs = flat_map (transfer task_id path) done /\
       fs (snd out) !! path = Some (old ++ concat done)) /\
    (fst out = Raise OSError ->
       exists p k,
         (done ++ [p]) `prefix_of` chunks /\
         io_error w (length (trace s) + length evs) = Some k /\
         List.filter is_transfer evs
           = flat_map (transfer task_id path) done ++ [EvRead (length p)] /\
         fs (snd out) !! path = Some (take k (old ++ concat done ++ p))) /\
    (fst out = Ok Continue -> done = chunks /\ broken = false) /\
    (fst out = Ok Return -> done <> [] /\ last evs = Some (EvIsSet true)) /\
    (forall e, fst out = Raise e -> e <> OSError ->
       e = ChunkedEncodingError /\ done = chunks /\ broken = true) /\
    (chunks <> [] -> io_error w (length (trace s) + 1) = None -> done <> []).
Proof.
  revert s t old. induction chunks as [|d rest IH]; intros s t old Ht Hold.
  - exists [], []. simpl. rewrite !app_nil_r, task_advance_0, list_insert_id by done.
    destruct broken; simpl; repeat split; try done; try apply prefix_nil.
    congruence.
  - destruct (io_error w (length (trace s) + 1)) as [k|] eqn:Hio.
    { cbv zeta. rewrite (stream_loop_cons_fail _ _ _ _ _ _ _ _ Hio). cbn [fst snd].
      exists [], [EvRead (length d)].
      split; [apply prefix_nil|]. split; [done|].
      split; [by repeat constructor|].
      split.
      { cbn [tasks set_fs emit concat].
        by rewrite task_advance_0, list_insert_id. }
      split.
      { intros p Hp. cbn [fs set_fs emit]. by rewrite lookup_insert_ne. }
      split; [done|]. split; [done|]. split; [done|].
      split; [done|].
      split.
      { intros _. exists d, k. split; [apply prefix_cons, prefix_nil|].
        split; [exact Hio|]. split; [done|].
        cbn [fs set_fs emit]. by rewrite lookup_insert_eq, Hold. }
      split; [done|]. split; [done|]. split; [|done].
      intros e [= <-]. done. }
    destruct (stream_loop_cons task_id path d rest broken w s t Ht Hio)
      as (s1 & Hrun & Htr & Hts & Hfs & Hh & Hsub & Hl).
    assert (Hfile : fs s1 !! path = Some (old ++ d)).
    { by rewrite Hfs, lookup_insert_eq, Hold. }
    cbv zeta. rewrite Hrun.
    destruct (interrupted w (length (trace s) + 3)) eqn:Hb.
    + exists [d], (transfer task_id path d ++ [EvIsSet true]). cbn [fst snd].
      split; [apply prefix_cons, prefix_nil|]. split; [exact Htr|].
      split; [by repeat constructor|].
      split; [simpl; by rewrite app_nil_r|].
      split.
      { intros p Hp. by rewrite Hfs, lookup_insert_ne. }
      split; [done|]. split; [done|]. split; [done|].
      split.
      { intros _. split; [done|]. simpl. by rewrite app_nil_r. }
      split; [done|]. split; [done|]. split; [done|]. split; done.
    + destruct (IH s1 (task_advance (len d) t) (old ++ d)) as (done & evs & H).
      { rewrite Hts. apply list_lookup_insert_eq. by eapply lookup_lt_Some. }
      { exact Hfile. }
      cbv zeta in H.
      destruct H as (Hp & Htr' & Hall & Hts' & Hframe & Hh' & Hsub' & Hl'
                     & Hgood & Hbad & Hc & Hr & He & _).
      assert (Hlen : length (trace s1) = (length (trace s) + 4)%nat).
      { rewrite Htr, !length_app. simpl. lia. }
      exists (d :: done), (transfer task_id path d ++ [EvIsSet false] ++ evs).
      split; [by apply prefix_cons|].
      split; [rewrite Htr', Htr; by rewrite <- !app_assoc|].
      split; [simpl; repeat constructor; exact Hall|].
      split.
      { rewrite Hts', Hts, list_insert_insert_eq, task_advance_add.
        simpl. by rewrite len_app. }
      split.
      { intros p Hne. by rewrite Hframe, Hfs, lookup_insert_ne. }
      split; [congruence|]. split; [congruence|]. split; [congruence|].
      split.
      { intros Hne. destruct (Hgood Hne) as [Hf Hfs']. split.
        - simpl. by rewrite Hf.
        - rewrite Hfs'. simpl. by rewrite <- app_assoc. }
      split.
      { intros Hos. destruct (Hbad Hos) as (p & k & Hpre & Hk & Hf & Hfs').
        exists p, k. split; [by apply prefix_cons|].
        split.
        { rewrite <- Hk, Hlen. f_equal. simpl. lia. }
        split; [simpl; by rewrite Hf|].
        rewrite Hfs'. simpl. by rewrite <- !app_assoc. }
      split.
      { intros Hfst. destruct (Hc Hfst) as [-> ->]. done. }
      split.
      { intros Hfst. destruct (Hr Hfst) as [_ Hlast]. split; [done|].
        change (transfer task_id path d ++ [EvIsSet false] ++ evs)
          with ((transfer task_id path d ++ [EvIsSet false]) ++ evs).
        by rewrite last_app, Hlast. }
      split.
      { intros e Hfst Hne. destruct (He e Hfst Hne) as (-> & -> & ->). done. }
      done.
Qed.

(** The checks of the loop: a check that returns true is the loop's last
    event and ends it by [return]; with no interrupt and no failing file
    operation the loop runs to the end of the chunks. *)
Lemma stream_loop_flow task_id path chunks broken w s t :
  tasks s !! task_id = Some t ->
  let out := stream_loop task_id path chunks broken w s in
  exists evs,
    trace (snd out) = trace s ++ evs /\
    (forall i, evs !! i = Some (EvIsSet true) ->
       S i = length evs /\ fst out = Ok Return) /\
    ((forall k, io_error w k = None) -> sigint_at w = None ->
       fst out = if broken then Raise ChunkedEncodingError else Ok Continue).
Proof.
  revert s t. induction chunks as [|d rest IH]; intros s t Ht.
  - exists []. simpl. rewrite app_nil_r.
    destruct broken; simpl; repeat split; done.
  - destruct (io_error w (length (trace s) + 1)) as [k|] eqn:Hio.
    { cbv zeta. rewrite (stream_loop_cons_fail _ _ _ _ _ _ _ _ Hio). cbn [fst snd].
      exists [EvRead (length d)]. split; [done|]. split.
      - intros [|[|i]] Hi; discriminate Hi.
      - intros Hok. by rewrite Hok in Hio. }
    destruct (stream_loop_cons task_id path d rest broken w s t Ht Hio)
      as (s1 & Hrun & Htr & Hts & _).
    cbv zeta. rewrite Hrun.
    destruct (interrupted w (length (trace s) + 3)) eqn:Hb.
    + exists (transfer task_id path d ++ [EvIsSet true]). simpl.
      split; [exact Htr|]. split.
      { intros i Hi. do 4 (destruct i as [|i]; [done|]). done. }
      intros _ Hnone. unfold interrupted in Hb. by rewrite Hnone in Hb.
    + destruct (IH s1 (task_advance (len d) t)) as (evs & Htr' & Hchk & Hnone).
      { rewrite Hts. apply list_lookup_insert_eq. by eapply lookup_lt_Some. }
      exists ((transfer task_id path d ++ [EvIsSet false]) ++ evs).
      split; [rewrite Htr', Htr; by rewrite <- !app_assoc|].
      split; [|exact Hnone].
      intros i Hi. do 4 (destruct i as [|i]; [done|]).
      change (evs !! i = Some (EvIsSet true)) in Hi.
      destruct (Hchk i Hi) as [Hlen Hfst]. split; [|done].
      rewrite length_app. simpl. lia.
Qed.

Lemma count_drop_le p k (l : list Event) : (count p (drop k l) <= count p l)%nat.
Proof.
  rewrite <- (take_drop k l) at 2. rewrite count_app. lia.
Qed.

(** The loop and the interrupt at time [T]: of each kind of per-chunk event
    at most one happens from [T] on, and a check made from [T] on ends the
    loop by [return]. *)
Lemma stream_loop_timing task_id path chunks broken w s t T :
  tasks s !! task_id = Some t ->
  sigint_at w = Some T ->
  let out := stream_loop task_id path chunks broken w s in
  exists evs,
    trace (snd out) = trace s ++ evs /\
    (forall p,
       (forall d b, (count p (transfer task_id path d ++ [EvIsSet b]) <= 1)%nat) ->
       (count p (drop (T - length (trace s)) evs) <= 1)%nat) /\
    (forall i b, evs !! i = Some (EvIsSet b) -> (T <= length (trace s) + i)%nat ->
       fst out = Ok Return).
Proof.
  intros Ht HT. revert s t Ht. induction chunks as [|d rest IH]; intros s t Ht.
  - exists []. simpl. rewrite app_nil_r. repeat split; try done.
    + by destruct broken.
    + intros p _. rewrite drop_nil. unfold count. simpl. lia.
  - destruct (io_error w (length (trace s) + 1)) as [k|] eqn:Hio.
    { cbv zeta. rewrite (stream_loop_cons_fail _ _ _ _ _ _ _ _ Hio). cbn [fst snd].
      exists [EvRead (length d)]. split; [done|]. split.
      - intros p _. etrans; [apply count_drop_le|].
        unfold count. simpl. destruct (p _); simpl; lia.
      - intros [|[|i]] b Hi; discriminate Hi. }
    destruct (stream_loop_cons task_id path d rest broken w s t Ht Hio)
      as (s1 & Hrun & Htr & Hts & _).
    cbv zeta. rewrite Hrun.
    destruct (interrupted w (length (trace s) + 3)) eqn:Hb.
    + exists (transfer task_id path d ++ [EvIsSet true]). simpl.
      repeat split; try done.
      intros p Hp. etrans; [apply count_drop_le | apply Hp].
    + assert (HT' : (length (trace s) + 3 < T)%nat).
      { unfold interrupted in Hb. rewrite HT in Hb.
        apply bool_decide_eq_false in Hb. lia. }
      destruct (IH s1 (task_advance (len d) t)) as (evs & Htr' & Hcnt & Hchk).
      { rewrite Hts. apply list_lookup_insert_eq. by eapply lookup_lt_Some. }
      assert (Hlen : length (trace s1) = (length (trace s) + 4)%nat).
      { rewrite Htr, !length_app. simpl. lia. }
      exists ((transfer task_id path d ++ [EvIsSet false]) ++ evs).
      repeat split.
      * rewrite Htr', Htr. by rewrite <- !app_assoc.
      * intros p Hp. rewrite drop_app_ge by (simpl; lia).
        replace (T - length (trace s) - length (transfer task_id path d ++ [EvIsSet false]))%nat
          with (T - length (trace s1))%nat by (rewrite Hlen; simpl; lia).
        by apply Hcnt.
      * intros i b Hi HTi.
        destruct (decide (i < 4)%nat) as [Hlt|Hge]; [lia|].
        apply (Hchk (i - 4)%nat b); [|lia].
        rewrite lookup_app_r in Hi by (simpl; lia). exact Hi.
Qed.

(** ** Slicing the body *)

Lemma iter_slices_fuel_nil fuel n : iter_slices_fuel fuel n [] = [].
Proof. by destruct fuel. Qed.

Lemma iter_slices_fuel_concat fuel n (s : bytes) :
  (0 < n)%nat -> (length s <= fuel)%nat ->
  concat (iter_slices_fuel fuel n s) = s.
Proof.
  intros Hn. revert s. induction fuel as [|fuel IH]; intros s Hlen.
  - destruct s; [done | simpl in Hlen; lia].
  - destruct s as [|b s]; [done|].
    change (take n (b :: s) ++ concat (iter_slices_fuel fuel n (drop n (b :: s)))
            = b :: s).
    rewrite IH; [apply take_drop|].
    rewrite length_drop. simpl in *. lia.
Qed.

Lemma iter_slices_fuel_lengths fuel n (s : bytes) i c :
  (0 < n)%nat ->
  iter_slices_fuel fuel n s !! i = Some c ->
  (0 < length c <= n)%nat /\
  (S i < length (iter_slices_fuel fuel n s) -> length c = n)%nat.
Proof.
  intros Hn. revert s i. induction fuel as [|fuel IH]; intros s i Hc; [done|].
  destruct s as [|b s]; [done|].
  change (iter_slices_fuel (S fuel) n (b :: s))
    with (take n (b :: s) :: iter_slices_fuel fuel n (drop n (b :: s))) in *.
  destruct i as [|i].
  - injection Hc as <-. rewrite length_take. split.
    + simpl. lia.
    + intros Hmore. cbn [length] in Hmore.
      destruct (decide (n < length (b :: s))%nat) as [Hlt|Hge]; [lia|].
      rewrite drop_ge, iter_slices_fuel_nil in Hmore by lia. simpl in Hmore. lia.
  - destruct (IH _ _ Hc) as [H1 H2]. split; [exact H1|].
    intros Hmore. apply H2. cbn [length] in Hmore. lia.
Qed.

Lemma CHUNK_pos : (0 < CHUNK)%nat.
Proof. apply Nat.ltb_lt. by vm_compute. Qed.

Lemma iter_slices_CHUNK (s : bytes) :
  iter_slices CHUNK s = iter_slices_fuel (length s) CHUNK s.
Proof.
  unfold iter_slices.
  by replace (CHUNK =? 0)%nat with false by (symmetry; by vm_compute).
Qed.

Lemma concat_iter_slices (s : bytes) : concat (iter_slices CHUNK s) = s.
Proof.
  rewrite iter_slices_CHUNK. apply iter_slices_fuel_concat; [apply CHUNK_pos | done].
Qed.

(** The slices are 32768 bytes long, except that the last may be shorter;
    none is empty. *)
Lemma iter_slices_lengths (s : bytes) i c :
  iter_slices CHUNK s !! i = Some c ->
  (0 < length c <= CHUNK)%nat /\
  (S i < length (iter_slices CHUNK s) -> length c = CHUNK)%nat.
Proof.
  rewrite iter_slices_CHUNK. apply iter_slices_fuel_lengths, CHUNK_pos.
Qed.

Lemma prefix_is_take {A} (l1 l2 : list A) :
  l1 `prefix_of` l2 -> l1 = take (length l1) l2.
Proof. intros [rest ->]. by rewrite take_app_length. Qed.

Lemma concat_prefix {A} (l1 l2 : list (list A)) :
  l1 `prefix_of` l2 -> concat l1 `prefix_of` concat l2.
Proof. intros [rest ->]. rewrite concat_app. by apply prefix_app_r. Qed.

(** The slices that arrived in full are the first slices. *)
Lemma full_slices_fuel_prefix fuel n (s : bytes) :
  List.filter (fun p => (length p =? n)%nat) (iter_slices_fuel fuel n s)
    `prefix_of` iter_slices_fuel fuel n s.
Proof.
  revert s. induction fuel as [|fuel IH]; intros s; [done|].
  destruct s as [|b s]; [done|].
  change (iter_slices_fuel (S fuel) n (b :: s))
    with (take n (b :: s) :: iter_slices_fuel fuel n (drop n (b :: s))).
  cbn [List.filter].
  destruct (length (take n (b :: s)) =? n)%nat eqn:Hfull.
  - apply prefix_cons, IH.
  - apply Nat.eqb_neq in Hfull. rewrite length_take in Hfull.
    rewrite drop_ge, iter_slices_fuel_nil by lia. apply prefix_nil.
Qed.

Lemma full_slices_prefix (s : bytes) :
  full_slices CHUNK s `prefix_of` iter_slices CHUNK s.
Proof.
  unfold full_slices. rewrite iter_slices_CHUNK. apply full_slices_fuel_prefix.
Qed.

(** A whole stream yields all of the body, however the transport cuts it. *)
Lemma stream_pieces_whole sizes (body : bytes) :
  concat (stream_pieces CHUNK sizes true body) = body.
Proof.
  revert body. induction sizes as [|k sizes IH]; intros body.
  - apply concat_iter_slices.
  - destruct body as [|b body]; [done|].
    change (take (S k) (b :: body)
              ++ concat (stream_pieces CHUNK sizes true (drop (S k) (b :: body)))
            = b :: body).
    rewrite IH. apply take_drop.
Qed.

(** Whole or not, a stream yields a beginning of the body. *)
Lemma stream_pieces_prefix sizes whole (body : bytes) :
  concat (stream_pieces CHUNK sizes whole body) `prefix_of` body.
Proof.
  destruct whole; [by rewrite stream_pieces_whole|].
  revert body. induction sizes as [|k sizes IH]; intros body.
  - rewrite <- (concat_iter_slices body) at 2.
    apply concat_prefix, full_slices_prefix.
  - destruct body as [|b body]; [done|].
    cbn [stream_pieces orb].
    destruct (S k <=? length (b :: body))%nat; [|apply prefix_nil].
    destruct (IH (drop (S k) (b :: body))) as [rest Hrest].
    exists rest. cbn [concat].
    by rewrite <- app_assoc, <- Hrest, take_drop.
Qed.

(** No piece is empty. *)
Lemma stream_pieces_nonempty sizes whole (body : bytes) i c :
  stream_pieces CHUNK sizes whole body !! i = Some c -> (0 < length c)%nat.
Proof.
  revert body i. induction sizes as [|k sizes IH]; intros body i Hc.
  - destruct whole; cbn [stream_pieces] in Hc.
    + by apply iter_slices_lengths in Hc as [[? _] _].
    + eapply prefix_lookup_Some in Hc; [|apply full_slices_prefix].
      by apply iter_slices_lengths in Hc as [[? _] _].
  - destruct body as [|b body]; [done|].
    cbn [stream_pieces] in Hc.
    destruct (whole || (S k <=? length (b :: body))%nat)%bool; [|done].
    destruct i as [|i].
    + injection Hc as <-. simpl. lia.
    + exact (IH _ i Hc).
Qed.

Lemma pieces_buffered response meta :
  header meta "Content-Length" = None ->
  pieces response meta = iter_slices CHUNK (content response) /\
  breaks response meta = false.
Proof. intros Hv. unfold pieces, breaks, buffered. by rewrite Hv. Qed.

Lemma pieces_live response meta v :
  header meta "Content-Length" = Some v ->
  pieces response meta
    = stream_pieces CHUNK (cuts response) (negb (truncated response))
        (content response) /\
  breaks response meta = truncated response.
Proof. intros Hv. unfold pieces, breaks, buffered. by rewrite Hv. Qed.

(** The pieces of the loop add up to a beginning of the body, and to all of
    it when the iterator does not raise. *)
Lemma pieces_prefix response meta :
  concat (pieces response meta) `prefix_of` content response.
Proof.
  destruct (header meta "Content-Length") as [v|] eqn:Hv.
  - destruct (pieces_live response meta v Hv) as [-> _]. apply stream_pieces_prefix.
  - destruct (pieces_buffered response meta Hv) as [-> _].
    by rewrite concat_iter_slices.
Qed.

Lemma pieces_whole response meta :
  breaks response meta = false ->
  concat (pieces response meta) = content response.
Proof.
  destruct (header meta "Content-Length") as [v|] eqn:Hv.
  - destruct (pieces_live response meta v Hv) as [-> ->]. intros ->.
    apply stream_pieces_whole.
  - destruct (pieces_buffered response meta Hv) as [-> _]. intros _.
    apply concat_iter_slices.
Qed.

Lemma pieces_nonempty response meta i c :
  pieces response meta !! i = Some c -> (0 < length c)%nat.
Proof.
  destruct (header meta "Content-Length") as [v|] eqn:Hv.
  - destruct (pieces_live response meta v Hv) as [-> _]. apply stream_pieces_nonempty.
  - destruct (pieces_buffered response meta Hv) as [-> _].
    intros Hc. by apply iter_slices_lengths in Hc as [[? _] _].
Qed.

(** What a prefix of the pieces adds up to is a beginning of the body. *)
Lemma concat_done_prefix response meta (done : list bytes) :
  done `prefix_of` pieces response meta ->
  concat done `prefix_of` content response.
Proof.
  intros Hp. etrans; [by apply concat_prefix | apply pieces_prefix].
Qed.

Lemma concat_done_take response meta (done : list bytes) :
  done `prefix_of` pieces response meta ->
  concat done = take (length (concat done)) (content response).
Proof. intros Hp. by eapply prefix_is_take, concat_done_prefix. Qed.

(** ** The runs of [copy_url] *)

(** [copy_url], branch by branch. *)
Lemma copy_url_cases task_id url path w s :
  let k := length (requests s) in
  let sa := emit (EvRequest (Get url true)) (emit (EvLog ("Requesting " +:+ url)) s) in
  let sb := emit (EvRequest (Head url)) sa in
  copy_url task_id url path w s =
    match net w k (Get url true) with
    | None => (Raise RequestException, sa)
    | Some response =>
      match net w (S k) (Head url) with
      | None => (Raise RequestException, sb)
      | Some meta =>
        match declared_total response meta with
        | Raise e => (Raise e, sb)
        | Ok n =>
          match tasks s !! task_id with
          | None => (Raise KeyError, sb)
          | Some t =>
            let sc := emit (EvSetTotal task_id n)
                        (set_tasks (<[task_id := task_set_total n t]> (tasks s)) sb) in
            match opens w path with
            | Refused => (Raise ValueError, sc)
            | Failed => (Raise OSError, sc)
            | Opened =>
              let s0 := emit (EvStartTask task_id)
                          (set_tasks (<[task_id := task_start (task_set_total n t)]> (tasks sc))
                             (emit (EvOpen path)
                                (set_handles (path :: handles s)
                                   (set_fs (<[path := []]> (fs s)) sc)))) in
              let out := stream_loop task_id path (pieces response meta)
                           (breaks response meta) w s0 in
              let s2 := emit (EvClose path)
                          (set_handles (release path (handles (snd out))) (snd out)) in
              match io_error w (length (trace (snd out))) with
              | Some k' =>
                  (Raise OSError,
                   set_fs (<[path := take k' (default [] (fs (snd out) !! path))]>
                             (fs (snd out))) s2)
              | None =>
                  match fst out with
                  | Ok Return => (Ok tt, s2)
                  | Ok Continue => (Ok tt, emit (EvLog ("Downloaded " +:+ path)) s2)
                  | Raise e => (Raise e, s2)
                  end
              end
            end
          end
        end
      end
    end.
Proof.
  cbv zeta.
  unfold copy_url, console_log, requests_get, requests_head, send, effect,
    declared_total, int_of, response_content, update_total, with_open, file_close,
    start_task, with_task, pieces, breaks, buffered, iter_content,
    mbind, M_bind, mret, M_ret, raise.
  rewrite requests_emit_other by done.
  destruct (net w (length (requests s)) (Get url true)) as [response|]; [|done].
  cbv beta iota zeta.
  rewrite requests_emit, requests_emit_other by done.
  cbn [request_of from_option]. rewrite length_app. cbn [length].
  replace (length (requests s) + 1)%nat with (S (length (requests s))) by lia.
  destruct (net w (S (length (requests s))) (Head url)) as [meta|]; [|done].
  cbv beta iota zeta.
  destruct (header meta "Content-Length") as [v|].
  - destruct (int v) as [n|]; [|done].
    cbn [tasks emit]. destruct (tasks s !! task_id) as [t|] eqn:Ht; [|done].
    destruct (opens w path); [|done|done].
    cbn [tasks set_tasks set_fs set_handles emit handles fs fst snd].
    rewrite list_lookup_insert_eq by (by eapply lookup_lt_Some).
    destruct (stream_loop _ _ _ _ _ _) as [[[]|e] s1]; cbn [fst snd];
      by destruct (io_error w (length (trace s1))).
  - destruct (truncated response) eqn:Htrunc; [done|].
    cbn [tasks emit]. destruct (tasks s !! task_id) as [t|] eqn:Ht; [|done].
    destruct (opens w path); [|done|done].
    cbn [tasks set_tasks set_fs set_handles emit handles fs fst snd].
    rewrite list_lookup_insert_eq by (by eapply lookup_lt_Some).
    destruct (stream_loop _ _ _ _ _ _) as [[[]|e] s1]; cbn [fst snd];
      by destruct (io_error w (length (trace s1))).
Qed.

Lemma release_head path h : release path (path :: h) = h.
Proof. simpl. by rewrite String.eqb_refl. Qed.

Lemma raises_oserror {A} (r : result A) : r = Raise OSError \/ r <> Raise OSError.
Proof. destruct r as [a|[]]; (by left) || by right. Qed.

(** The ways a run of [copy_url] can go: it stops at one of five places
    before the file is open, or it reaches its loop. *)
Lemma copy_url_ways task_id url path w s :
  let k := length (requests s) in
  let out := copy_url task_id url path w s in
  let sa := emit (EvRequest (Get url true)) (emit (EvLog ("Requesting " +:+ url)) s) in
  let sb := emit (EvRequest (Head url)) sa in
  (net w k (Get url true) = None /\ out = (Raise RequestException, sa)) \/
  (net w (S k) (Head url) = None /\ out = (Raise RequestException, sb)) \/
  (exists response meta e,
     net w k (Get url true) = Some response /\ net w (S k) (Head url) = Some meta /\
     declared_total response meta = Raise e /\ out = (Raise e, sb)) \/
  (tasks s !! task_id = None /\ out = (Raise KeyError, sb)) \/
  (exists n t,
     tasks s !! task_id = Some t /\
     opens w path <> Opened /\
     out = (Raise (match opens w path with Refused => ValueError | _ => OSError end),
            emit (EvSetTotal task_id n)
              (set_tasks (<[task_id := task_set_total n t]> (tasks s)) sb))) \/
  (exists response meta n t,
     tasks s !! task_id = Some t /\
     net w k (Get url true) = Some response /\
     net w (S k) (Head url) = Some meta /\
     declared_total response meta = Ok n /\
     opens w path = Opened).
Proof.
  cbv zeta. rewrite copy_url_cases. cbv zeta.
  destruct (net w (length (requests s)) (Get url true)) as [response|] eqn:Hget;
    [|by left].
  destruct (net w (S (length (requests s))) (Head url)) as [meta|] eqn:Hhead;
    [|right; by left].
  destruct (declared_total response meta) as [n|e] eqn:Htot;
    [|right; right; left; by exists response, meta, e].
  destruct (tasks s !! task_id) as [t|] eqn:Ht; [|right; right; right; by left].
  destruct (opens w path) eqn:Hopen.
  - do 5 right. by exists response, meta, n, t.
  - do 4 right. left. by exists n, t.
  - do 4 right. left. by exists n, t.
Qed.

(** Entering the loop: the state in which the first piece is awaited. *)
Lemma copy_url_enters task_id url path w s response meta n t :
  tasks s !! task_id = Some t ->
  net w (length (requests s)) (Get url true) = Some response ->
  net w (S (length (requests s))) (Head url) = Some meta ->
  declared_total response meta = Ok n ->
  opens w path = Opened ->
  exists s0,
    copy_url task_id url path w s =
      (let out := stream_loop task_id path (pieces response meta)
                    (breaks response meta) w s0 in
       let s2 := emit (EvClose path)
                   (set_handles (release path (handles (snd out))) (snd out)) in
       match io_error w (length (trace (snd out))) with
       | Some k =>
           (Raise OSError,
            set_fs (<[path := take k (default [] (fs (snd out) !! path))]>
                      (fs (snd out))) s2)
       | None =>
           match fst out with
           | Ok Return => (Ok tt, s2)
           | Ok Continue => (Ok tt, emit (EvLog ("Downloaded " +:+ path)) s2)
           | Raise e => (Raise e, s2)
           end
       end) /\
    trace s0 = trace s ++
      [EvLog ("Requesting " +:+ url); EvRequest (Get url true);
       EvRequest (Head url); EvSetTotal task_id n; EvOpen path;
       EvStartTask task_id] /\
    tasks s0 = <[task_id := task_start (task_set_total n t)]> (tasks s) /\
    fs s0 = <[path := []]> (fs s) /\
    handles s0 = path :: handles s /\
    submitted s0 = submitted s /\ live s0 = live s.
Proof.
  intros Ht Hget Hhead Htot Hopen.
  rewrite copy_url_cases. cbv zeta. rewrite Hget, Hhead, Htot, Ht, Hopen.
  eexists. split; [reflexivity|]. repeat split.
  - simpl. by rewrite <- !app_assoc.
  - cbn [tasks emit set_tasks set_handles set_fs]. by rewrite list_insert_insert_eq.
Qed.

(** A run of [copy_url] that reaches its loop, in full: the pieces [done] it
    wrote and counted, the loop's events [evs], the way [fl] the loop ended,
    and what the close at the end of the [with] block did. *)
Lemma copy_url_run task_id url path w s response meta n t :
  tasks s !! task_id = Some t ->
  net w (length (requests s)) (Get url true) = Some response ->
  net w (S (length (requests s))) (Head url) = Some meta ->
  declared_total response meta = Ok n ->
  opens w path = Opened ->
  let out := copy_url task_id url path w s in
  let chunks := pieces response meta in
  exists done evs fl,
    let closing := io_error w (length (trace s) + 6 + length evs) in
    done `prefix_of` chunks /\
    Forall (fun e => (is_transfer e || is_check e)%bool = true) evs /\
    trace (snd out) =
      trace s ++
      [EvLog ("Requesting " +:+ url); EvRequest (Get url true);
       EvRequest (Head url); EvSetTotal task_id n; EvOpen path;
       EvStartTask task_id] ++ evs ++ EvClose path ::
        match fl, closing with
        | Ok Continue, None => [EvLog ("Downloaded " +:+ path)]
        | _, _ => []
        end /\
    tasks (snd out) =
      <[task_id := task_advance (len (concat done)) (task_start (task_set_total n t))]>
        (tasks s) /\
    (forall p, p <> path -> fs (snd out) !! p = fs s !! p) /\
    handles (snd out) = handles s /\
    submitted (snd out) = submitted s /\
    live (snd out) = live s /\
    fst out = match closing with
              | Some _ => Raise OSError
              | None => match fl with Ok _ => Ok tt | Raise e => Raise e end
              end /\
    (exists data,
       fs (snd out) !! path = Some data /\
       data `prefix_of` content response /\
       (fl <> Raise OSError -> closing = None -> data = concat done)) /\
    (fl <> Raise OSError ->
       List.filter is_transfer evs = flat_map (transfer task_id path) done) /\
    (fl = Raise OSError ->
       exists p k,
         (done ++ [p]) `prefix_of` chunks /\ closing = Some k /\
         List.filter is_transfer evs
           = flat_map (transfer task_id path) done ++ [EvRead (length p)]) /\
    (fl = Ok Continue -> done = chunks /\ breaks response meta = false) /\
    (fl = Ok Return -> done <> [] /\ last evs = Some (EvIsSet true)) /\
    (forall e, fl = Raise e -> e <> OSError ->
       e = ChunkedEncodingError /\ done = chunks /\ breaks response meta = true) /\
    (chunks <> [] -> io_error w (length (trace s) + 7) = None -> done <> []) /\
    (forall i, evs !! i = Some (EvIsSet true) ->
       S i = length evs /\ fl = Ok Return) /\
    ((forall k, io_error w k = None) -> sigint_at w = None ->
       fl = if breaks response meta then Raise ChunkedEncodingError else Ok Continue) /\
    (forall T, sigint_at w = Some T ->
       (forall p,
          (forall d b, (count p (transfer task_id path d ++ [EvIsSet b]) <= 1)%nat) ->
          (count p (drop (T - (length (trace s) + 6)) evs) <= 1)%nat) /\
       (forall i b, evs !! i = Some (EvIsSet b) ->
          (T <= length (trace s) + 6 + i)%nat -> fl = Ok Return)).
Proof.
  intros Ht Hget Hhead Htot Hopen. cbv zeta.
  destruct (copy_url_enters task_id url path w s response meta n t
              Ht Hget Hhead Htot Hopen)
    as (s0 & -> & Htr0 & Hts0 & Hfs0 & Hh0 & Hsub0 & Hl0).
  set (chunks := pieces response meta).
  set (broken := breaks response meta).
  assert (Ht0 : tasks s0 !! task_id = Some (task_start (task_set_total n t))).
  { rewrite Hts0. apply list_lookup_insert_eq. by eapply lookup_lt_Some. }
  assert (Hold0 : fs s0 !! path = Some []).
  { by rewrite Hfs0, lookup_insert_eq. }
  assert (Hlen0 : length (trace s0) = (length (trace s) + 6)%nat).
  { rewrite Htr0, length_app. reflexivity. }
  destruct (stream_loop_spec task_id path chunks broken w s0 _ [] Ht0 Hold0)
    as (done & evs & H). cbv zeta in H.
  destruct H as (Hp & Htr & Hall & Hts & Hframe & Hh & Hsub & Hl & Hgood & Hbad
                 & Hc & Hr & He & Hfirst).
  destruct (stream_loop_flow task_id path chunks broken w s0 _ Ht0)
    as (evs' & Htr' & Hchk & Hnone).
  assert (evs' = evs) as -> by (rewrite Htr in Htr'; by apply app_inv_head in Htr').
  clear Htr'.
  assert (Htime : forall T, sigint_at w = Some T ->
            (forall p,
               (forall d b, (count p (transfer task_id path d ++ [EvIsSet b]) <= 1)%nat) ->
               (count p (drop (T - (length (trace s) + 6)) evs) <= 1)%nat) /\
            (forall i b, evs !! i = Some (EvIsSet b) ->
               (T <= length (trace s) + 6 + i)%nat ->
               fst (stream_loop task_id path chunks broken w s0) = Ok Return)).
  { intros T HT.
    destruct (stream_loop_timing task_id path chunks broken w s0 _ T Ht0 HT)
      as (evs' & Htr' & Hcnt & Hchk').
    assert (evs' = evs) as -> by (rewrite Htr in Htr'; by apply app_inv_head in Htr').
    rewrite Hlen0 in Hcnt, Hchk'. split; [exact Hcnt | exact Hchk']. }
  rewrite Hlen0 in Hbad, Hfirst.
  replace (length (trace s) + 6 + 1)%nat with (length (trace s) + 7)%nat in Hfirst by lia.
  destruct (stream_loop task_id path chunks broken w s0) as [fl s1].
  cbn [fst snd] in *.
  assert (Hlen1 : length (trace s1) = (length (trace s) + 6 + length evs)%nat).
  { rewrite Htr, length_app. lia. }
  rewrite Hlen1.
  exists done, evs, fl.
  split; [exact Hp|]. split; [exact Hall|].
  split.
  { destruct (io_error w _); destruct fl as [[]|e]; cbn [snd trace emit set_handles set_fs];
      rewrite Htr, Htr0, <- !app_assoc; reflexivity. }
  split.
  { destruct (io_error w _); destruct fl as [[]|e];
      cbn [snd tasks emit set_handles set_fs];
      by rewrite Hts, Hts0, list_insert_insert_eq. }
  split.
  { intros p Hne.
    assert (fs s1 !! p = fs s !! p) as Hfile.
    { by rewrite Hframe, Hfs0, lookup_insert_ne. }
    destruct (io_error w _); destruct fl as [[]|e];
      cbn [snd fs emit set_handles set_fs]; try exact Hfile;
      by rewrite lookup_insert_ne. }
  split.
  { assert (release path (handles s1) = handles s) as Hrel.
    { rewrite Hh, Hh0. apply release_head. }
    by destruct (io_error w _); destruct fl as [[]|e]. }
  split.
  { destruct (io_error w _); destruct fl as [[]|e];
      cbn [snd submitted emit set_handles set_fs]; congruence. }
  split.
  { destruct (io_error w _); destruct fl as [[]|e];
      cbn [snd live emit set_handles set_fs]; congruence. }
  split.
  { by destruct (io_error w _); destruct fl as [[]|e]. }
  split.
  { assert (Hfile : exists data, fs s1 !! path = Some data /\
              data `prefix_of` content response /\
              (fl <> Raise OSError -> data = concat done)).
    { destruct (raises_oserror fl) as [Hos|Hne].
      - destruct (Hbad Hos) as (p & k & Hpre & _ & _ & Hfile).
        eexists. split; [exact Hfile|]. split; [|done].
        etrans; [apply prefix_take|]. cbn [app].
        replace (concat done ++ p) with (concat (done ++ [p]))
          by (rewrite concat_app; simpl; by rewrite app_nil_r).
        by apply concat_done_prefix with meta.
      - destruct (Hgood Hne) as [_ Hfile]. cbn [app] in Hfile.
        exists (concat done). split; [exact Hfile|]. split; [|done].
        by apply concat_done_prefix with meta. }
    destruct Hfile as (data & Hfile & Hpre & Hdata).
    destruct (io_error w _) as [k|].
    - exists (take k data). split.
      + destruct fl as [[]|e]; cbn [snd fs emit set_handles set_fs];
          by rewrite lookup_insert_eq, Hfile.
      + split; [|done]. etrans; [apply prefix_take | exact Hpre].
    - exists data. split; [by destruct fl as [[]|e]|]. split; [exact Hpre|].
      intros Hne _. by apply Hdata. }
  split; [intros Hne; by apply Hgood|].
  split.
  { intros Hos. destruct (Hbad Hos) as (p & k & Hpre & Hk & Hf & _).
    by exists p, k. }
  split; [exact Hc|]. split; [exact Hr|]. split; [exact He|].
  split; [exact Hfirst|]. split; [exact Hchk|]. split; [exact Hnone | exact Htime].
Qed.

Lemma new_events_app s s' evs :
  trace s' = trace s ++ evs -> new_events s s' = evs.
Proof. intros H. unfold new_events. by rewrite H, drop_app_length. Qed.

Lemma quiet_requests evs :
  Forall (fun e => (is_transfer e || is_check e)%bool = true) evs ->
  omap request_of evs = [].
Proof.
  induction 1 as [|e evs He _ IH]; [done|].
  destruct e; try discriminate He; exact IH.
Qed.

Lemma declared_total_header response meta v n :
  header meta "Content-Length" = Some v -> int v = Some n ->
  declared_total response meta = Ok n.
Proof. intros Hv Hn. unfold declared_total. by rewrite Hv, Hn. Qed.

Lemma declared_total_body response meta :
  header meta "Content-Length" = None -> truncated response = false ->
  declared_total response meta = Ok (len (content response)).
Proof. intros Hv Hn. unfold declared_total. by rewrite Hv, Hn. Qed.

(** What [copy_url] leaves in the task table and the request log once both
    requests are answered. *)
Lemma copy_url_total task_id url path w s response meta t :
  tasks s !! task_id = Some t ->
  net w (length (requests s)) (Get url true) = Some response ->
  net w (S (length (requests s))) (Head url) = Some meta ->
  let s' := snd (copy_url task_id url path w s) in
  requests s' = requests s ++ [Get url true; Head url] /\
  forall n, declared_total response meta = Ok n ->
    t_total <$> tasks s' !! task_id = Some (Some n).
Proof.
  intros Ht Hget Hhead. cbv zeta.
  assert (Hlt : (task_id < length (tasks s))%nat) by (by eapply lookup_lt_Some).
  destruct (declared_total response meta) as [n|e] eqn:Htot.
  - destruct (opens w path) eqn:Hopen.
    + destruct (copy_url_run task_id url path w s response meta n t
                  Ht Hget Hhead Htot Hopen)
        as (done & evs & fl & _ & Hall & Htr & Hts & _).
      split.
      * unfold requests. rewrite Htr, !omap_app, (quiet_requests _ Hall).
        by destruct fl as [[]|]; destruct (io_error w (length (trace s) + 6 + length evs)).
      * intros n' [= <-]. rewrite Hts, list_lookup_insert_eq by done. done.
    + rewrite copy_url_cases. cbv zeta. rewrite Hget, Hhead, Htot, Ht, Hopen.
      cbn [snd]. split.
      * requests_of_trace.
      * intros n' [= <-]. cbn [tasks emit set_tasks].
        rewrite list_lookup_insert_eq by done. done.
    + rewrite copy_url_cases. cbv zeta. rewrite Hget, Hhead, Htot, Ht, Hopen.
      cbn [snd]. split.
      * requests_of_trace.
      * intros n' [= <-]. cbn [tasks emit set_tasks].
        rewrite list_lookup_insert_eq by done. done.
  - rewrite copy_url_cases. cbv zeta. rewrite Hget, Hhead, Htot.
    cbn [snd]. split; [|done]. requests_of_trace.
Qed.

(** C1, as the code has it. [copy_url] issues exactly two requests, a
    streamed GET and then a HEAD. When the HEAD response has a Content-Length
    header, the task's total is that header's integer value. When it has
    none, the total is the byte length of the body of that same streamed GET
    response, buffered in full: no further request is made for it. *)
Theorem C1_declared_total (w : World) (s : State) (task_id : nat)
    (url path : string) (response meta : Response) (t : Task) :
  tasks s !! task_id = Some t ->
  net w (length (requests s)) (Get url true) = Some response ->
  net w (S (length (requests s))) (Head url) = Some meta ->
  let s' := snd (copy_url task_id url path w s) in
  requests s' = requests s ++ [Get url true; Head url] /\
  (forall v n, header meta "Content-Length" = Some v -> int v = Some n ->
     t_total <$> tasks s' !! task_id = Some (Some n)) /\
  (header meta "Content-Length" = None -> truncated response = false ->
     t_total <$> tasks s' !! task_id = Some (Some (len (content response)))).
Proof.
  intros Ht Hget Hhead.
  destruct (copy_url_total task_id url path w s response meta t Ht Hget Hhead)
    as [Hreq Htot].
  split; [exact Hreq|]. split.
  - intros v n Hv Hn. apply Htot. by apply declared_total_header with v.
  - intros Hv Hn. apply Htot. by apply declared_total_body.
Qed.

(** A HEAD response that declares 1000 bytes. *)
Lemma C1_witness :
  let w := net_script
             [Some (mk_response 200 [] hello);
              Some (mk_response 200 [("content-length", "1000")] [])] None in
  t_total <$> tasks (snd (copy_url 0 "http://h/f" "./f" w one_task)) !! 0%nat
    = Some (Some 1000).
Proof.
  intros w.
  refine (proj1 (proj2 (C1_declared_total w one_task 0 "http://h/f" "./f"
            (mk_response 200 [] hello)
            (mk_response 200 [("content-length", "1000")] [])
            pending_task _ _ _)) "1000" 1000 _ _); reflexivity.
Defined.

(** C1 as stated fails: with no Content-Length in the HEAD response the
    total is taken from the streamed GET response itself. The only requests
    are that GET and the HEAD; a later request would have been answered with
    a body of another length. *)
Lemma C1_counterexample :
  let url := "http://h/f" in
  let meta := mk_response 200 [("content-type", "text/html")] [] in
  let w := net_script
             [Some (mk_response 200 [] hello); Some meta;
              Some (mk_response 200 [] (hello ++ hello))] None in
  let s' := snd (copy_url 0 url "./f" w one_task) in
  header meta "Content-Length" = None /\
  t_total <$> tasks s' !! 0%nat = Some (Some 5) /\
  requests s' = [Get url true; Head url] /\
  ~ In (Get url false) (requests s') /\
  (content <$> net w 2 (Get url false)) = Some (hello ++ hello).
Proof.
  vm_compute. repeat split; try reflexivity.
  intros [H|[H|[]]]; discriminate.
Qed.

(** ** Cancellation *)




(** Only a run that reaches the loop makes a cancellation check. *)
Lemma copy_url_checks task_id url path w s i b :
  new_events s (snd (copy_url task_id url path w s)) !! i = Some (EvIsSet b) ->
  exists response meta n t,
    tasks s !! task_id = Some t /\
    net w (length (requests s)) (Get url true) = Some response /\
    net w (S (length (requests s))) (Head url) = Some meta /\
    declared_total response meta = Ok n /\
    opens w path = Opened.
Proof.
  destruct (copy_url_ways task_id url path w s)
    as [[_ ->]|[[_ ->]|[(r & m & e & _ & _ & _ & ->)|[[_ ->]|[(n & t & _ & _ & ->)|H]]]]].
  1-5: new_events_of_trace; intros Hi;
       do 5 (destruct i as [|i]; [discriminate Hi|]); discriminate Hi.
  by intros _.
Qed.




(** ** The byte counter *)

Lemma counter_app task_id c0 l1 l2 :
  counter task_id c0 (l1 ++ l2) = counter task_id (counter task_id c0 l1) l2.
Proof.
  revert c0. induction l1 as [|e l1 IH]; intros c0; [done|].
  destruct e; simpl; apply IH.
Qed.

Lemma counter_filter task_id c0 evs :
  counter task_id c0 (List.filter is_advance evs) = counter task_id c0 evs.
Proof.
  revert c0. induction evs as [|e evs IH]; intros c0; [done|].
  destruct e; simpl; apply IH.
Qed.

Lemma counter_advances task_id c0 (done : list bytes) :
  counter task_id c0 (advances task_id done) = c0 + len (concat done).
Proof.
  revert c0. induction done as [|d done IH]; intros c0; simpl.
  - unfold len. simpl. lia.
  - rewrite Nat.eqb_refl, IH, len_app. lia.
Qed.

(** A counter whose advances are all non-negative never decreases. *)
Lemma counter_grows task_id c0 evs :
  (forall i n, EvAdvance i n ∈ evs -> 0 <= n) ->
  c0 <= counter task_id c0 evs.
Proof.
  revert c0. induction evs as [|e evs IH]; intros c0 Hpos; [simpl; lia|].
  assert (Hpos' : forall i n, EvAdvance i n ∈ evs -> 0 <= n).
  { intros i n Hin. apply (Hpos i n). by right. }
  destruct e; simpl; try (by apply IH).
  destruct (task_id0 =? task_id)%nat; [|by apply IH].
  etrans; [|apply IH; exact Hpos'].
  assert (0 <= n) by (apply (Hpos task_id0 n); by left). lia.
Qed.

Lemma counter_monotone task_id c0 evs i j :
  (forall k n, EvAdvance k n ∈ evs -> 0 <= n) ->
  (i <= j)%nat ->
  counter task_id c0 (take i evs) <= counter task_id c0 (take j evs).
Proof.
  intros Hpos Hij.
  replace j with (i + (j - i))%nat by lia.
  rewrite <- take_take_drop, counter_app.
  apply counter_grows. intros k n Hin. apply (Hpos k n).
  by apply (subseteq_drop i), (subseteq_take (j - i)).
Qed.

Lemma counter_take_le task_id c0 evs i :
  (forall k n, EvAdvance k n ∈ evs -> 0 <= n) ->
  counter task_id c0 (take i evs) <= counter task_id c0 evs.
Proof.
  intros Hpos. rewrite <- (take_drop i evs) at 2. rewrite counter_app.
  apply counter_grows. intros k n Hin. apply (Hpos k n).
  by apply (subseteq_drop i).
Qed.

(** The advances among the events of a run are those of its pieces. *)
Lemma advances_nonneg task_id (done : list bytes) evs k n :
  List.filter is_advance evs = advances task_id done ->
  EvAdvance k n ∈ evs -> 0 <= n.
Proof.
  intros Hf Hin.
  assert (Hin' : In (EvAdvance k n) (List.filter is_advance evs)).
  { apply filter_In. split; [by apply list_elem_of_In | done]. }
  rewrite Hf in Hin'. apply in_map_iff in Hin' as (d & Hd & _).
  injection Hd as _ <-. unfold len. lia.
Qed.

Lemma filter_advance_transfer evs :
  List.filter is_advance (List.filter is_transfer evs) = List.filter is_advance evs.
Proof.
  induction evs as [|e evs IH]; [done|].
  destruct e; simpl; try exact IH. by rewrite IH.
Qed.

Lemma filter_advance_transfers task_id path (done : list bytes) :
  List.filter is_advance (flat_map (transfer task_id path) done)
  = advances task_id done.
Proof. induction done as [|d done IH]; [done|]. simpl. by rewrite IH. Qed.

Lemma filter_advance_quiet evs :
  Forall (fun e => is_transfer e = false) evs -> List.filter is_advance evs = [].
Proof.
  induction 1 as [|e evs He _ IH]; [done|].
  destruct e; try discriminate He; exact IH.
Qed.

(** Every run of [copy_url], whichever way it ends: the pieces [done] it has
    counted add up to a beginning of the GET response's body, and the
    counters change by exactly that much, for its own task only. *)
Lemma copy_url_summary task_id url path w s :
  let s' := snd (copy_url task_id url path w s) in
  let body := from_option content [] (net w (length (requests s)) (Get url true)) in
  exists done : list bytes,
    concat done `prefix_of` body /\
    List.filter is_advance (new_events s s') = advances task_id done /\
    (forall t, tasks s !! task_id = Some t ->
       t_completed <$> tasks s' !! task_id = Some (t_completed t + len (concat done))) /\
    (forall i, i <> task_id ->
       t_completed <$> tasks s' !! i = t_completed <$> tasks s !! i).
Proof.
  cbv zeta.
  assert (Hquiet : forall s',
            List.filter is_advance (new_events s s') = [] ->
            (forall i, t_completed <$> tasks s' !! i = t_completed <$> tasks s !! i) ->
            exists done : list bytes,
              concat done `prefix_of`
                from_option content [] (net w (length (requests s)) (Get url true)) /\
              List.filter is_advance (new_events s s') = advances task_id done /\
              (forall t, tasks s !! task_id = Some t ->
                 t_completed <$> tasks s' !! task_id
                   = Some (t_completed t + len (concat done))) /\
              (forall i, i <> task_id ->
                 t_completed <$> tasks s' !! i = t_completed <$> tasks s !! i)).
  { intros s' Hf Hts. exists []. split; [apply prefix_nil|]. split; [exact Hf|].
    split; [|by intros]. intros t Ht. rewrite Hts, Ht. simpl. f_equal.
    unfold len. simpl. lia. }
  destruct (copy_url_ways task_id url path w s)
    as [[_ ->]|[[_ ->]|[(r & m & e & _ & _ & _ & ->)|[[_ ->]|[(n & t & Ht & _ & ->)|H]]]]].
  1-4: apply Hquiet; [by new_events_of_trace | done].
  - apply Hquiet; [by new_events_of_trace|].
    intros i. cbn [snd tasks emit set_tasks].
    destruct (decide (i = task_id)) as [->|Hne].
    + rewrite list_lookup_insert_eq by (by eapply lookup_lt_Some). by rewrite Ht.
    + by rewrite list_lookup_insert_ne by done.
  - destruct H as (response & meta & n & t & Ht & Hget & Hhead & Htot & Hopen).
    assert (Hlt : (task_id < length (tasks s))%nat) by (by eapply lookup_lt_Some).
    destruct (copy_url_run task_id url path w s response meta n t
                Ht Hget Hhead Htot Hopen)
      as (done & evs & fl & Hp & _ & Htr & Hts & _ & _ & _ & _ & _ & _ & Hgood & Hbad & _).
    exists done. rewrite Hget. cbn [from_option].
    split; [by apply concat_done_prefix with meta|]. split; [|split].
    + rewrite (new_events_app _ _ _ Htr), !List.filter_app.
      assert (Hevs : List.filter is_advance evs = advances task_id done).
      { rewrite <- filter_advance_transfer.
        destruct (raises_oserror fl) as [Hos|Hne].
        - destruct (Hbad Hos) as (p & k & _ & _ & ->).
          rewrite List.filter_app, filter_advance_transfers. simpl.
          by rewrite app_nil_r.
        - rewrite (Hgood Hne). apply filter_advance_transfers. }
      rewrite Hevs. simpl.
      destruct fl as [[]|]; destruct (io_error w _); simpl; by rewrite app_nil_r.
    + intros t' Ht'. rewrite Ht in Ht'. injection Ht' as <-.
      by rewrite Hts, list_lookup_insert_eq by done.
    + intros i Hne. by rewrite Hts, list_lookup_insert_ne by done.
Qed.

Lemma download_step dest_dir urls w s :
  dispatcher_step s (snd (download urls dest_dir w s)).
Proof.
  rewrite download_unfold. cbv zeta.
  set (s0 := emit _ (emit _ (set_live true s))).
  assert (H0 : dispatcher_step s s0).
  { repeat split; try reflexivity.
    exists [EvDisplayStart; EvPoolOpen MAX_WORKERS]. split; [|done].
    unfold s0. simpl. by rewrite <- app_assoc. }
  pose proof (for_each_dispatch_step dest_dir urls w s0) as H1.
  destruct (for_each _ urls w s0) as [res s1]. cbn [snd] in *.
  eapply dispatcher_step_trans; [exact H0|].
  eapply dispatcher_step_trans; [exact H1|].
  repeat split; try reflexivity.
  exists [EvPoolShutdown; EvDisplayStop]. split; [|done].
  simpl. by rewrite <- app_assoc.
Qed.

Lemma count_advance_transfer evs :
  count is_transfer evs = 0%nat -> count is_advance evs = 0%nat.
Proof.
  unfold count. induction evs as [|e evs IH]; [done|].
  simpl. unfold is_transfer at 1.
  destruct (is_advance e); [rewrite orb_true_r; simpl; lia|].
  destruct (is_read e || is_write e || false)%bool; simpl; [lia | exact IH].
Qed.

Lemma filter_transfer_quiet evs :
  Forall (fun e => is_transfer e = false) evs -> List.filter is_transfer evs = [].
Proof.
  induction 1 as [|e evs He _ IH]; [done|]. simpl. by rewrite He.
Qed.

(** C5, as the code has it. [copy_url] asks the response for pieces of 32768
    bytes. When the body was buffered for the total (no Content-Length in
    the HEAD response) the pieces are 32768 bytes long, the last possibly
    shorter; otherwise they are the pieces the live stream yields, of any
    length but never empty; in both cases they add up to a beginning of the
    body, and to all of it when the stream does not break. In a run that
    reaches the loop, the Fetcher deals with a prefix [done] of these pieces
    in order: it reads a piece, writes it to the file and then advances the
    counter by the piece's length; only a write that fails leaves a piece
    read but neither written nor counted, and the run then raises OSError.
    The counter grows by the length of the pieces dealt with. When no file
    operation fails, the Fetcher deals with the first piece in any case and
    with all pieces unless a check has seen the flag, and the file holds
    what was written. In every run the counter never decreases and ends at
    its old value plus the advances made; no other task's counter is changed
    by this Fetcher, and the Dispatcher advances no counter at all. *)
Theorem C5_chunked_counter (w : World) (s : State) (task_id : nat)
    (url path : string) :
  let out := copy_url task_id url path w s in
  let s' := snd out in
  let evs := new_events s s' in
  Z.of_nat CHUNK = 32768 /\
  (forall response meta n t,
     tasks s !! task_id = Some t ->
     net w (length (requests s)) (Get url true) = Some response ->
     net w (S (length (requests s))) (Head url) = Some meta ->
     declared_total response meta = Ok n ->
     opens w path = Opened ->
     let chunks := pieces response meta in
     (header meta "Content-Length" = None ->
        chunks = iter_slices CHUNK (content response) /\
        forall i c, chunks !! i = Some c ->
          (length c <= CHUNK)%nat /\
          (S i < length chunks -> length c = CHUNK)%nat) /\
     (forall i c, chunks !! i = Some c -> (0 < length c)%nat) /\
     concat chunks `prefix_of` content response /\
     (breaks response meta = false -> concat chunks = content response) /\
     exists done,
       done `prefix_of` chunks /\
       (List.filter is_transfer evs = flat_map (transfer task_id path) done \/
        exists p,
          (done ++ [p]) `prefix_of` chunks /\
          List.filter is_transfer evs
            = flat_map (transfer task_id path) done ++ [EvRead (length p)] /\
          fst out = Raise OSError) /\
       t_completed <$> tasks s' !! task_id
         = Some (t_completed t + len (concat done)) /\
       ((forall k, io_error w k = None) ->
          List.filter is_transfer evs = flat_map (transfer task_id path) done /\
          (chunks <> [] -> done <> []) /\
          (done = chunks \/ In (EvIsSet true) evs) /\
          fs s' !! path = Some (concat done))) /\
  (forall c0 i j, (i <= j)%nat ->
     counter task_id c0 (take i evs) <= counter task_id c0 (take j evs)) /\
  (forall t, tasks s !! task_id = Some t ->
     t_completed <$> tasks s' !! task_id
       = Some (counter task_id (t_completed t) evs)) /\
  (forall i, i <> task_id ->
     t_completed <$> tasks s' !! i = t_completed <$> tasks s !! i) /\
  (forall urls dest_dir s0,
     let s1 := snd (download urls dest_dir w s0) in
     count is_advance (new_events s0 s1) = 0%nat /\
     forall i t, tasks s0 !! i = Some t -> tasks s1 !! i = Some t).
Proof.
  cbv zeta.
  destruct (copy_url_summary task_id url path w s) as (counted & _ & Hadv & Hown & Hother).
  split; [by vm_compute|].
  split.
  { intros response meta n t Ht Hget Hhead Htot Hopen.
    split.
    { intros Hv. destruct (pieces_buffered response meta Hv) as [-> _].
      split; [done|]. intros i c Hc.
      destruct (iter_slices_lengths _ _ _ Hc) as [[_ H1] H2]. by split. }
    split; [apply pieces_nonempty|].
    split; [apply pieces_prefix|].
    split; [apply pieces_whole|].
    destruct (copy_url_run task_id url path w s response meta n t
                Ht Hget Hhead Htot Hopen)
      as (done & evs & fl & Hp & Hall & Htr & Hts & _ & _ & _ & _ & Hres & Hfile & Hgood
          & Hbad & Hc & Hr & He & Hfirst & _).
    assert (Hquiet : forall l : list Event,
              List.filter is_transfer
                ([EvLog ("Requesting " +:+ url); EvRequest (Get url true);
                  EvRequest (Head url); EvSetTotal task_id n; EvOpen path;
                  EvStartTask task_id] ++ evs ++ EvClose path ::
                   match fl, io_error w (length (trace s) + 6 + length evs) with
                   | Ok Continue, None => [EvLog ("Downloaded " +:+ path)]
                   | _, _ => []
                   end) = List.filter is_transfer evs).
    { intros _. rewrite !List.filter_app.
      destruct fl as [[]|]; destruct (io_error w _); simpl; by rewrite app_nil_r. }
    exists done. split; [exact Hp|].
    rewrite (new_events_app _ _ _ Htr), (Hquiet []).
    split.
    { destruct (raises_oserror fl) as [Hos|Hne]; [|left; by apply Hgood].
      right. destruct (Hbad Hos) as (p & k & Hpre & Hk & Hf).
      exists p. split; [exact Hpre|]. split; [exact Hf|].
      by rewrite Hres, Hk. }
    split.
    { rewrite Hts, list_lookup_insert_eq by (by eapply lookup_lt_Some). done. }
    intros Hio.
    assert (Hne : fl <> Raise OSError).
    { intros Hos. destruct (Hbad Hos) as (p & k & _ & Hk & _). by rewrite Hio in Hk. }
    split; [by apply Hgood|].
    split; [intros Hch; by apply Hfirst|].
    split.
    { destruct fl as [[]|e].
      - left. by apply Hc.
      - right. destruct (Hr eq_refl) as [_ Hlast].
        apply in_or_app. right. apply in_or_app. left.
        apply list_elem_of_In. by apply last_Some_elem_of.
      - left. apply (He e eq_refl). congruence. }
    destruct Hfile as (data & Hfile & _ & Hdata).
    rewrite Hfile. f_equal. by apply Hdata. }
  split.
  { intros c0 i j Hij. apply counter_monotone; [|exact Hij].
    intros k n. by apply advances_nonneg with task_id counted. }
  split.
  { intros t Ht. by rewrite (Hown t Ht), <- counter_filter, Hadv, counter_advances. }
  split; [exact Hother|].
  intros urls dest_dir s0.
  destruct (download_step dest_dir urls w s0) as (Hpt & _ & _ & _ & E & HE & Hc).
  split.
  - unfold new_events. rewrite HE, drop_app_length. by apply count_advance_transfer.
  - intros i t Ht. by eapply prefix_lookup_Some.
Qed.

(** A chunked transfer of five bytes, with nothing in its way. *)
Lemma C5_witness :
  let meta := mk_response 200 [("content-length", "5")] [] in
  let w := net_script [Some chunked_hello; Some meta] None in
  let s' := snd (copy_url 0 "http://h/f" "./f" w one_task) in
  exists done,
    done `prefix_of` pieces chunked_hello meta /\
    (done = pieces chunked_hello meta \/ In (EvIsSet true) (new_events one_task s')) /\
    fs s' !! "./f" = Some (concat done) /\
    t_completed <$> tasks s' !! 0%nat = Some (0 + len (concat done)).
Proof.
  intros meta w s'.
  destruct (proj1 (proj2 (C5_chunked_counter w one_task 0 "http://h/f" "./f"))
              chunked_hello meta 5 pending_task
              eq_refl eq_refl eq_refl eq_refl eq_refl)
    as (_ & _ & _ & _ & done & H1 & _ & H2 & H3).
  destruct (H3 (fun _ => eq_refl)) as (_ & _ & H4 & H5).
  exists done. split; [exact H1|]. split; [exact H4|]. split; [exact H5 | exact H2].
Defined.

(** C5 as stated fails: with a Content-Length in the HEAD response the live
    stream is read, and a chunked transfer that delivers "hel" and "lo" is
    written and counted in a piece of three bytes followed by one of two. *)
Lemma C5_counterexample :
  let meta := mk_response 200 [("content-length", "5")] [] in
  let w := net_script [Some chunked_hello; Some meta] None in
  let out := copy_url 0 "http://h/f" "./f" w one_task in
  Z.of_nat CHUNK = 32768 /\
  header meta "Content-Length" = Some "5" /\
  map len (pieces chunked_hello meta) = [3; 2] /\
  fst out = Ok tt /\
  List.filter is_write (trace (snd out))
    = [EvWrite "./f" [Byte.x68; Byte.x65; Byte.x6c]; EvWrite "./f" [Byte.x6c; Byte.x6f]] /\
  List.filter is_advance (trace (snd out)) = [EvAdvance 0 3; EvAdvance 0 2] /\
  fs (snd out) !! "./f" = Some hello.
Proof.
  vm_compute. repeat split; reflexivity.
Qed.
(** ** The worker pool *)

Lemma running_length (l : list (option nat)) :
  (length (omap id l) <= length l)%nat.
Proof.
  induction l as [|[j|] l IH]; cbn [omap list_omap id length] in *; lia.
Qed.

Lemma running_idle (l : list (option nat)) i :
  l !! i = Some None -> (length (omap id l) < length l)%nat.
Proof.
  revert i. induction l as [|o l IH]; intros i Hi; [done|].
  destruct i as [|i].
  - injection Hi as ->. pose proof (running_length l).
    cbn [omap list_omap id length] in *. lia.
  - specialize (IH i Hi). destruct o; cbn [omap list_omap id length] in *; lia.
Qed.

Lemma elem_of_running (l : list (option nat)) j :
  j ∈ omap id l <-> exists i, l !! i = Some (Some j).
Proof.
  rewrite list_elem_of_omap. split.
  - intros (o & Ho & Hj). simpl in Hj. subst o.
    by apply list_elem_of_lookup in Ho.
  - intros (i & Hi). exists (Some j). split; [|done].
    apply list_elem_of_lookup. by exists i.
Qed.

Lemma pool_inv_init n : Pool.inv (Pool.init n).
Proof.
  unfold Pool.inv. simpl. split; [lia|]. split.
  - exists 0%nat. split; [lia|]. split; [done|]. intros j Hj. lia.
  - intros [H|H]; by apply elem_of_nil in H.
Qed.

Lemma pool_step_max l p p' :
  Pool.step l p = Some p' -> Pool.max_workers p' = Pool.max_workers p.
Proof.
  destruct l as [|i|i]; simpl.
  - intros [= <-]. unfold Pool.submit. by destruct (Pool.idle p).
  - destruct (Pool.threads p !! i) as [[j|]|]; try done.
    destruct (Pool.queue p); [done|]. by intros [= <-].
  - destruct (Pool.threads p !! i) as [[j|]|]; try done. by intros [= <-].
Qed.

(** With all of the jobs [0 .. m-1] started and fewer than [m] of them
    running, one has finished. *)
Lemma pool_pigeonhole (p : Pool.t) m :
  (forall j, (j < m)%nat -> Pool.started p j) ->
  (length (Pool.running p) < m)%nat ->
  exists j, (j < m)%nat /\ j ∈ Pool.finished p.
Proof.
  intros Hstarted Hlen.
  destruct (decide (Exists (fun j => j ∈ Pool.finished p) (seq 0 m))) as [Hex|Hno].
  - apply Exists_exists in Hex as (j & Hj & Hfin).
    exists j. split; [|done]. apply elem_of_seq in Hj. lia.
  - exfalso. apply not_Exists_Forall in Hno; [|intros j; apply _].
    rewrite Forall_forall in Hno.
    assert (Hsub : seq 0 m ⊆+ Pool.running p).
    { apply NoDup_submseteq; [apply NoDup_seq|].
      intros j Hj. destruct (Hstarted j) as [Hr|Hf]; [|done|].
      - apply elem_of_seq in Hj. lia.
      - by apply Hno in Hj. }
    apply submseteq_length in Hsub. rewrite length_seq in Hsub. lia.
Qed.

Lemma pool_step_inv l p p' :
  Pool.inv p -> Pool.step l p = Some p' -> Pool.inv p'.
Proof.
  intros (Hth & (k & Hk & Hq & Hst) & Hm) Hstep.
  pose proof (pool_step_max l p p' Hstep) as Hmax.
  unfold Pool.inv. rewrite Hmax.
  destruct l as [|i|i]; simpl in Hstep.
  - (* submit *)
    injection Hstep as <-.
    assert (Hrun : Pool.running (Pool.submit p) = Pool.running p).
    { unfold Pool.submit, Pool.running. destruct (Pool.idle p); [|done].
      cbn [Pool.threads]. destruct (_ <? _)%nat; [|done].
      rewrite omap_app. apply app_nil_r. }
    assert (Hfin : Pool.finished (Pool.submit p) = Pool.finished p).
    { unfold Pool.submit. by destruct (Pool.idle p). }
    assert (Hstarted : forall j, Pool.started (Pool.submit p) j <-> Pool.started p j).
    { intros j. unfold Pool.started. by rewrite Hrun, Hfin. }
    split; [|split].
    + unfold Pool.submit. destruct (Pool.idle p); cbn [Pool.threads]; [|done].
      destruct (_ <? _)%nat eqn:E; [|done].
      apply Nat.ltb_lt in E. rewrite length_app. simpl. lia.
    + exists k.
      assert (Hn : Pool.next (Pool.submit p) = S (Pool.next p)).
      { unfold Pool.submit. by destruct (Pool.idle p). }
      assert (Hq' : Pool.queue (Pool.submit p) = Pool.queue p ++ [Pool.next p]).
      { unfold Pool.submit. by destruct (Pool.idle p). }
      rewrite Hn, Hq', Hq. split; [lia|]. split.
      * replace (S (Pool.next p) - k)%nat with (S (Pool.next p - k)) by lia.
        rewrite seq_S. do 2 f_equal. lia.
      * intros j Hj. by apply Hstarted, Hst.
    + rewrite Hstarted, Hfin. exact Hm.
  - (* a worker takes the oldest job *)
    destruct (Pool.threads p !! i) as [[j0|]|] eqn:Hi; try done.
    destruct (Pool.queue p) as [|j q] eqn:Hqueue; [done|].
    injection Hstep as <-. cbn [Pool.threads Pool.queue Pool.next Pool.finished].
    assert (Hj : j = k /\ q = seq (S k) (Pool.next p - S k) /\ (k < Pool.next p)%nat).
    { destruct (Pool.next p - k)%nat as [|n] eqn:E; [done|].
      simpl in Hq. injection Hq as -> ->. repeat split; [|lia].
      f_equal. lia. }
    destruct Hj as (-> & -> & Hlt).
    assert (Hkeep : forall j, Pool.started p j ->
              Pool.started
                {| Pool.max_workers := Pool.max_workers p;
                   Pool.queue := seq (S k) (Pool.next p - S k);
                   Pool.threads := <[i := Some k]> (Pool.threads p);
                   Pool.idle := Pool.idle p; Pool.finished := Pool.finished p;
                   Pool.next := Pool.next p |} j).
    { intros j [Hr|Hf]; [left|by right].
      unfold Pool.running in *. cbn [Pool.threads].
      apply elem_of_running in Hr as (i' & Hi'). apply elem_of_running.
      exists i'. rewrite list_lookup_insert_ne; [done|]. congruence. }
    assert (Hnew : k ∈ omap id (<[i := Some k]> (Pool.threads p))).
    { apply elem_of_running. exists i. apply list_lookup_insert_eq.
      by eapply lookup_lt_Some. }
    split; [|split].
    + by rewrite length_insert.
    + exists (S k). split; [lia|]. split; [done|].
      intros j Hj. destruct (decide (j = k)) as [->|Hne].
      * by left.
      * apply Hkeep, Hst. lia.
    + intros Hstart.
      destruct (decide (Pool.started p (Pool.max_workers p))) as [Hold|Hnot].
      { exact (Hm Hold). }
      assert (Hmk : Pool.max_workers p = k).
      { destruct Hstart as [Hr|Hf]; [|exfalso; apply Hnot; by right].
        unfold Pool.running in Hr. cbn [Pool.threads] in Hr.
        apply elem_of_running in Hr as (i' & Hi').
        destruct (decide (i' = i)) as [->|Hne].
        - rewrite list_lookup_insert_eq in Hi' by (by eapply lookup_lt_Some).
          congruence.
        - rewrite list_lookup_insert_ne in Hi' by done.
          exfalso. apply Hnot. left. apply elem_of_running. by exists i'. }
      apply (pool_pigeonhole p).
      * intros j Hj. apply Hst. lia.
      * pose proof (running_idle _ _ Hi). unfold Pool.running. lia.
  - (* the job on a worker ends *)
    destruct (Pool.threads p !! i) as [[j0|]|] eqn:Hi; try done.
    injection Hstep as <-. cbn [Pool.threads Pool.queue Pool.next Pool.finished].
    assert (Hkeep : forall j, Pool.started p j ->
              Pool.started
                {| Pool.max_workers := Pool.max_workers p;
                   Pool.queue := Pool.queue p;
                   Pool.threads := <[i := None]> (Pool.threads p);
                   Pool.idle := S (Pool.idle p);
                   Pool.finished := j0 :: Pool.finished p;
                   Pool.next := Pool.next p |} j).
    { intros j [Hr|Hf]; [|right; by right].
      unfold Pool.started, Pool.running in *. cbn [Pool.threads Pool.finished].
      apply elem_of_running in Hr as (i' & Hi').
      destruct (decide (i' = i)) as [->|Hne].
      - right. rewrite Hi in Hi'. injection Hi' as ->. by left.
      - left. apply elem_of_running. exists i'.
        by rewrite list_lookup_insert_ne. }
    split; [|split].
    + by rewrite length_insert.
    + exists k. repeat split; try done. intros j Hj. by apply Hkeep, Hst.
    + intros Hstart.
      assert (Hold : Pool.started p (Pool.max_workers p)).
      { destruct Hstart as [Hr|Hf].
        - left. unfold Pool.running in *. cbn [Pool.threads] in Hr.
          apply elem_of_running in Hr as (i' & Hi'). apply elem_of_running.
          exists i'. destruct (decide (i' = i)) as [->|Hne].
          + rewrite list_lookup_insert_eq in Hi' by (by eapply lookup_lt_Some).
            discriminate.
          + by rewrite list_lookup_insert_ne in Hi'.
        - cbn [Pool.finished] in Hf. apply elem_of_cons in Hf as [->|Hf].
          + left. apply elem_of_running. by exists i.
          + by right. }
      destruct (Hm Hold) as (j & Hj & Hfin). exists j. split; [done|]. by right.
Qed.

Lemma pool_run_inv ls p p' :
  Pool.inv p -> Pool.run ls p = Some p' ->
  Pool.inv p' /\ Pool.max_workers p' = Pool.max_workers p.
Proof.
  revert p. induction ls as [|l ls IH]; intros p Hinv Hrun; simpl in Hrun.
  - by injection Hrun as <-.
  - destruct (Pool.step l p) as [p1|] eqn:Hstep; [|done].
    destruct (IH p1 (pool_step_inv l p p1 Hinv Hstep) Hrun) as [H1 H2].
    split; [done|]. rewrite H2. by eapply pool_step_max.
Qed.

(** C8. Whatever the schedule, at most 4 jobs are executing at any instant,
    and the 5th job (number 4) starts only once one of the first four has
    ended. The pool's size is the constant 4 that [download] passes. *)
Theorem C8_pool_bound (ls : list Pool.label) (p : Pool.t) :
  Pool.run ls (Pool.init MAX_WORKERS) = Some p ->
  MAX_WORKERS = 4%nat /\
  (length (Pool.running p) <= 4)%nat /\
  (Pool.started p 4 -> exists j, (j < 4)%nat /\ j ∈ Pool.finished p).
Proof.
  intros Hrun.
  destruct (pool_run_inv ls _ p (pool_inv_init MAX_WORKERS) Hrun)
    as [(Hth & _ & Hm) Hmax].
  rewrite Hmax in *. cbn [Pool.max_workers Pool.init] in *.
  change MAX_WORKERS with 4%nat in *.
  split; [done|]. split; [|exact Hm].
  etrans; [apply running_length | exact Hth].
Qed.

(** In the sample schedule the fifth job runs after job 2 has ended. *)
Lemma C8_witness : exists j, (j < 4)%nat /\ j ∈ Pool.finished five_jobs_state.
Proof.
  refine (proj2 (proj2 (C8_pool_bound five_jobs five_jobs_state _)) _).
  - reflexivity.
  - left. apply list_elem_of_In. vm_compute. tauto.
Defined.

(** ** Witnesses, counterexamples and the spec's scenarios *)

(** The second of three probes fails in transport. *)
Lemma C6_witness :
  let w := net_script
             [Some (mk_response 200 [("content-type", "text/html")] []); None] None in
  fst (download ["http://h/a"; "http://h/b"; "http://h/c"] "./" w init_state)
  = Raise RequestException.
Proof.
  intros w.
  refine (proj1 (C6_probe_failure_aborts w init_state "./"
                   ["http://h/a"] ["http://h/c"] "http://h/b" _ _));
    by vm_compute.
Defined.

(** The first probe is answered without a Content-Type. *)
Lemma C9_witness :
  let w := net_script [Some (mk_response 200 [("content-length", "5")] [])] None in
  fst (download ["http://h/a"; "http://h/b"] "./" w init_state) = Raise KeyError.
Proof.
  intros w.
  refine (proj1 (C9_missing_content_type w init_state "./"
                   [] ["http://h/b"] "http://h/a"
                   (mk_response 200 [("content-length", "5")] []) _ _ _));
    by vm_compute.
Defined.

(** A 404 answer: the job is submitted all the same. *)
Lemma C2_witness :
  let r := mk_response 404 [("content-type", "text/html")] [] in
  let w := net_script [Some r] None in
  exists j,
    submitted (snd (download ["http://h/b.html"] "./" w init_state)) !! 0%nat = Some j /\
    j_task j = 0%nat /\ j_url j = "http://h/b.html".
Proof.
  intros r w.
  refine (proj2 (C2_status_indicator w init_state "./" [] [] "http://h/b.html"
                   r "text/html" _ _ _));
    by vm_compute.
Defined.

(** C2 as stated fails: 204 is a 2xx code and is marked as a failure. *)
Lemma C2_counterexample :
  let r := mk_response 204 [("content-type", "text/html")] [] in
  let w := net_script [Some r] None in
  let s' := snd (download ["http://h/f"] "./" w init_state) in
  200 <= status_code r < 300 /\
  t_responsecode <$> tasks s' !! 0%nat = Some "[red]204[/]" /\
  j_url <$> submitted s' !! 0%nat = Some "http://h/f".
Proof.
  vm_compute. repeat split; try reflexivity; discriminate.
Qed.

(** The scenario of the file [readme] served as text/plain. *)
Lemma C4_witness :
  let r := mk_response 200 [("content-type", "text/plain")] [] in
  let w := net_script [Some r] None in
  exists j,
    submitted (snd (download ["https://example.com/readme"] "./" w init_state)) !! 0%nat
      = Some j /\
    j_path j = "./readme.txt".
Proof.
  intros r w.
  destruct (C4_txt_suffix w init_state "./" [] [] "https://example.com/readme"
              r "text/plain" eq_refl eq_refl eq_refl)
    as (t & j & _ & Hj & Hct & Htxt & _).
  exists j. split; [exact Hj|]. apply Htxt. exact Hct.
Defined.

(** The help flag alone. *)
Lemma C7_witness :
  exit_status (fst (main ["prog"; "--help"] (net_script [] None) init_state)) = 0.
Proof.
  exact (proj2 (proj2 (C7_help_path (net_script [] None) init_state
                         "prog" "--help" [] (or_intror eq_refl)))).
Defined.

(** C7 as stated fails: with the network down, the help path prints the
    usage text, probes the remaining URL, and the exception ends the process
    with status 1. *)
Lemma C7_counterexample :
  let out := main ["prog"; "-h"; "http://h/f"] (net_script [] None) init_state in
  trace (snd out) !! 0%nat = Some EvPrintHelp /\
  requests (snd out) = [Head "http://h/f"] /\
  fst out = Raise RequestException /\
  exit_status (fst out) = 1 /\
  exit_status (fst out) <> 0.
Proof.
  vm_compute. repeat split; try reflexivity. discriminate.
Qed.

(** The scenario of two URLs, one answered 200 and one 404: both jobs are
    submitted, the first task is marked green and the second red. *)
Example scenario_200_404 :
  let w := net_script
             [Some (mk_response 200 [("content-type", "application/octet-stream");
                                     ("content-length", "1000")] []);
              Some (mk_response 404 [("content-type", "text/html");
                                     ("content-length", "50")] [])] None in
  let out := download ["https://example.com/a.bin"; "https://example.com/b.html"]
               "./" w init_state in
  fst out = Ok tt /\
  map t_responsecode (tasks (snd out)) = ["[green]200[/]"; "[red]404[/]"] /\
  map j_path (submitted (snd out)) = ["./a.bin"; "./b.html"].
Proof. vm_compute. repeat split; reflexivity. Qed.

(** A body of 40000 bytes is taken as one chunk of 32768 and one of 7232. *)
Example slices_40000 :
  map len (iter_slices CHUNK (repeat Byte.x00 (Z.to_nat 40000))) = [32768; 7232].
Proof. vm_compute. reflexivity. Qed.

(** An interrupt during the first of two chunks: the second is never read,
    the file keeps the first 32768 bytes, and no completion line is logged. *)
Example interrupted_download :
  let body := repeat Byte.x00 (Z.to_nat 40000) in
  let w := net_script
             [Some (mk_response 200 [] body);
              Some (mk_response 200 [("content-length", "40000")] [])] (Some 7%nat) in
  let out := copy_url 0 "http://h/f" "./f" w one_task in
  fst out = Ok tt /\
  len <$> fs (snd out) !! "./f" = Some 32768 /\
  t_completed <$> tasks (snd out) !! 0%nat = Some 32768 /\
  handles (snd out) = [] /\
  last (trace (snd out)) = Some (EvClose "./f").
Proof. vm_compute. repeat split; reflexivity. Qed.

(** A chunked transfer is written in the pieces it arrives in. *)
Example chunked_pieces :
  pieces chunked_hello (mk_response 200 [("content-length", "5")] [])
  = [[Byte.x68; Byte.x65; Byte.x6c]; [Byte.x6c; Byte.x6f]].
Proof. vm_compute. reflexivity. Qed.

(** Nine bytes were announced and the connection breaks after five: the
    unfinished piece is never yielded, so the file is created and stays
    empty, nothing is counted, and the stream's failure is raised. *)
Example broken_framed_body :
  let r := {| status_code := 200; headers := ∅; content := hello;
              truncated := true; cuts := [] |} in
  let w := net_script [Some r; Some (mk_response 200 [("content-length", "9")] [])]
             None in
  let out := copy_url 0 "http://h/f" "./f" w one_task in
  fst out = Raise ChunkedEncodingError /\
  fs (snd out) !! "./f" = Some [] /\
  t_completed <$> tasks (snd out) !! 0%nat = Some 0 /\
  handles (snd out) = [].
Proof. vm_compute. repeat split; reflexivity. Qed.

(** 50000 bytes were announced and the connection breaks after 40000: the
    first slice of 32768 bytes is written and counted, the unfinished second
    one is not. *)
Example broken_after_one_slice :
  let r := {| status_code := 200; headers := ∅;
              content := repeat Byte.x00 (Z.to_nat 40000);
              truncated := true; cuts := [] |} in
  let w := net_script [Some r; Some (mk_response 200 [("content-length", "50000")] [])]
             None in
  let out := copy_url 0 "http://h/f" "./f" w one_task in
  fst out = Raise ChunkedEncodingError /\
  len <$> fs (snd out) !! "./f" = Some 32768 /\
  t_completed <$> tasks (snd out) !! 0%nat = Some 32768.
Proof. vm_compute. repeat split; reflexivity. Qed.

(** A write that fails: the first piece of the chunked transfer is written
    and counted, the second is read but its write raises; two bytes of what
    the file was to hold remain, and the counter stays at three. *)
Example failing_write :
  let w := with_files Opened (fun t => if (t =? 11)%nat then Some 2%nat else None)
             (net_script [Some chunked_hello;
                          Some (mk_response 200 [("content-length", "5")] [])] None) in
  let out := copy_url 0 "http://h/f" "./f" w one_task in
  fst out = Raise OSError /\
  fs (snd out) !! "./f" = Some [Byte.x68; Byte.x65] /\
  t_completed <$> tasks (snd out) !! 0%nat = Some 3 /\
  handles (snd out) = [] /\
  last (trace (snd out)) = Some (EvClose "./f").
Proof. vm_compute. repeat split; reflexivity. Qed.

Example split_url : split "/" "https://example.com/a.bin" = ["https:"; ""; "example.com"; "a.bin"].
Proof. reflexivity. Qed.

Example split_trailing : split "/" "http://h/" = ["http:"; ""; "h"; ""].
Proof. reflexivity. Qed.

Example join_cwd : os_path_join "./" "readme.txt" = "./readme.txt".
Proof. reflexivity. Qed.

Example join_dir : os_path_join "out" "a.bin" = "out/a.bin".
Proof. reflexivity. Qed.

Example int_1000 : int "1000" = Some 1000.
Proof. reflexivity. Qed.

Example int_padded : int " +1_000 " = Some 1000.
Proof. reflexivity. Qed.

Example int_bad :
  int "1__0" = None /\ int "" = None /\ int "12a" = None /\ int "5_" = None
  /\ int "_5" = None /\ int "+" = None /\ int "0x10" = None.
Proof. repeat split; reflexivity. Qed.

Example int_negative : int "-5" = Some (-5).
Proof. reflexivity. Qed.

(** The separators 28 to 31 are not white space for [int]. *)
Example int_separator : int (String (ascii_of_nat 31) "5") = None.
Proof. reflexivity. Qed.

Example int_nbsp : int (String (ascii_of_nat 160) "5") = Some 5.
Proof. reflexivity. Qed.

(** 4300 digits are converted, 4301 are refused. *)
Example int_digit_limit :
  let ones n := string_of_list_ascii (repeat "1"%char (Z.to_nat n)) in
  is_Some (int (ones 4300)) /\ int (ones 4301) = None.
Proof.
  split.
  - destruct (int _) eqn:H; [by eexists|]. by vm_compute in H.
  - by vm_compute.
Qed.

Example str_404 : str 404 = "404".
Proof. reflexivity. Qed.

(** * Further properties of the code *)

(** ** The Fetcher, run by run *)

(** X3. Whatever happens, [copy_url] closes the handle it opened, changes no
    file but its destination, registers and removes no task, touches no task
    but its own, submits nothing and leaves the display as it is; it begins
    by logging the request and sending the streamed GET. *)
Theorem copy_url_frame (w : World) (s : State) (task_id : nat) (url path : string) :
  let s' := snd (copy_url task_id url path w s) in
  handles s' = handles s /\
  (forall p, p <> path -> fs s' !! p = fs s !! p) /\
  length (tasks s') = length (tasks s) /\
  (forall i, i <> task_id -> tasks s' !! i = tasks s !! i) /\
  submitted s' = submitted s /\
  live s' = live s /\
  exists rest, new_events s s'
               = EvLog ("Requesting " +:+ url) :: EvRequest (Get url true) :: rest.
Proof.
  cbv zeta.
  destruct (copy_url_ways task_id url path w s)
    as [[_ ->]|[[_ ->]|[(r & m & e & _ & _ & _ & ->)|[[_ ->]|[(n & t & Ht & _ & ->)|H]]]]].
  - repeat split; try done. exists []. by new_events_of_trace.
  - repeat split; try done. eexists. by new_events_of_trace.
  - repeat split; try done. eexists. by new_events_of_trace.
  - repeat split; try done. eexists. by new_events_of_trace.
  - cbn [snd handles fs tasks submitted live emit set_tasks].
    repeat split; try done.
    + by rewrite length_insert.
    + intros i Hne. by rewrite list_lookup_insert_ne.
    + eexists. by new_events_of_trace.
  - destruct H as (response & meta & n & t & Ht & Hget & Hhead & Htot & Hopen).
    destruct (copy_url_run task_id url path w s response meta n t
                Ht Hget Hhead Htot Hopen)
      as (done & evs & fl & _ & _ & Htr & Hts & Hframe & Hh & Hsub & Hl & _).
    repeat split; try done.
    + by rewrite Hts, length_insert.
    + intros i Hne. by rewrite Hts, list_lookup_insert_ne.
    + rewrite (new_events_app _ _ _ Htr). by eexists.
Qed.


(** X4. When the streamed GET fails in transport, [copy_url] raises at once:
    the HEAD request is never sent, and tasks, files and handles are as
    before. When the GET is answered and the HEAD fails, both requests have
    been sent and nothing else has changed either. *)
Theorem copy_url_transport_failure (w : World) (s : State) (task_id : nat)
    (url path : string) :
  net w (length (requests s)) (Get url true) = None \/
  (net w (length (requests s)) (Get url true) <> None /\
   net w (S (length (requests s))) (Head url) = None) ->
  let out := copy_url task_id url path w s in
  fst out = Raise RequestException /\
  tasks (snd out) = tasks s /\ fs (snd out) = fs s /\
  handles (snd out) = handles s /\
  requests (snd out) =
    requests s ++
      match net w (length (requests s)) (Get url true) with
      | None => [Get url true]
      | Some _ => [Get url true; Head url]
      end.
Proof.
  intros H. cbv zeta. rewrite copy_url_cases. cbv zeta.
  destruct H as [Hget | [Hget Hhead]].
  - rewrite Hget. repeat split; try done. requests_of_trace.
  - destruct (net w (length (requests s)) (Get url true)) as [r|]; [|done].
    rewrite Hhead. repeat split; try done. requests_of_trace.
Qed.

(** X6. A Content-Length header that [int] cannot parse ends the job with
    ValueError after both requests: the task keeps its old total and no file
    is created. *)
Theorem copy_url_bad_content_length (w : World) (s : State) (task_id : nat)
    (url path : string) (response meta : Response) (v : string) :
  net w (length (requests s)) (Get url true) = Some response ->
  net w (S (length (requests s))) (Head url) = Some meta ->
  header meta "Content-Length" = Some v ->
  int v = None ->
  let out := copy_url task_id url path w s in
  fst out = Raise ValueError /\
  tasks (snd out) = tasks s /\ fs (snd out) = fs s /\
  requests (snd out) = requests s ++ [Get url true; Head url].
Proof.
  intros Hget Hhead Hv Hint. cbv zeta. rewrite copy_url_cases. cbv zeta.
  rewrite Hget, Hhead. unfold declared_total. rewrite Hv, Hint.
  repeat split; try done. requests_of_trace.
Qed.

(** X7. The early return. In every run of [copy_url], a cancellation check
    that returns true is followed by nothing but the closing of the file;
    the call then returns normally, unless that close fails, in which case
    it raises the close's OSError. *)
Theorem copy_url_returns_on_flag (w : World) (s : State) (task_id : nat)
    (url path : string) (i : nat) :
  let out := copy_url task_id url path w s in
  new_events s (snd out) !! i = Some (EvIsSet true) ->
  drop (S i) (new_events s (snd out)) = [EvClose path] /\
  fst out = match io_error w (length (trace s) + S i) with
            | None => Ok tt
            | Some _ => Raise OSError
            end.
Proof.
  cbv zeta. intros Hi.
  destruct (copy_url_checks _ _ _ _ _ _ _ Hi)
    as (response & meta & n & t & Ht & Hget & Hhead & Htot & Hopen).
  destruct (copy_url_run task_id url path w s response meta n t
              Ht Hget Hhead Htot Hopen)
    as (done & evs & fl & _ & _ & Htr & _ & _ & _ & _ & _ & Hres & _ & _ & _ & _ & _
        & _ & _ & Hchk & _).
  rewrite (new_events_app _ _ _ Htr) in *. rewrite Hres.
  do 6 (destruct i as [|i]; [discriminate Hi|]).
  cbn [app lookup list_lookup drop] in Hi |- *.
  apply lookup_app_Some in Hi as [Hi | [Hge Hi]].
  - destruct (Hchk i Hi) as [Hlen ->].
    replace (length (trace s) + S (S (S (S (S (S (S i)))))))%nat
      with (length (trace s) + 6 + length evs)%nat by lia.
    split; [|by destruct (io_error w _)].
    rewrite Hlen.
    destruct (io_error w _); apply drop_app_length.
  - destruct (i - length evs)%nat as [|[|j]]; [discriminate Hi| |].
    + destruct fl as [[]|]; destruct (io_error w _); discriminate Hi.
    + destruct fl as [[]|]; destruct (io_error w _); discriminate Hi.
Qed.

Lemma count_write_transfers task_id path (done : list bytes) evs :
  List.filter is_transfer evs = flat_map (transfer task_id path) done ->
  count is_write evs = length done.
Proof.
  intros Hf.
  assert (Hw : forall l, count is_write (List.filter is_transfer l) = count is_write l).
  { unfold count. induction l as [|e l IH]; [done|].
    destruct e; simpl; try exact IH. by rewrite IH. }
  rewrite <- Hw, Hf. clear. unfold count.
  induction done as [|d done IH]; [done|]. simpl. by rewrite IH.
Qed.

Lemma breaks_truncated response meta n :
  declared_total response meta = Ok n ->
  breaks response meta = truncated response.
Proof.
  unfold declared_total, breaks, buffered, iter_content.
  destruct (header meta "Content-Length") as [v|]; [done|].
  by destruct (truncated response).
Qed.

(** X1. A download that nothing disturbs. With both requests answered, the
    total determined, the task registered, the file opened, the stream
    whole, no file operation failing and no interrupt, [copy_url] returns
    normally; the file holds exactly the body, whatever it held before; the
    counter has grown by the body's length; one write was made per piece the
    iterator yields; the handle is closed; and the completion line is the
    last event. *)
Theorem copy_url_completes (w : World) (s : State) (task_id : nat)
    (url path : string) (response meta : Response) (n : Z) (t : Task) :
  tasks s !! task_id = Some t ->
  net w (length (requests s)) (Get url true) = Some response ->
  net w (S (length (requests s))) (Head url) = Some meta ->
  declared_total response meta = Ok n ->
  opens w path = Opened ->
  (forall k, io_error w k = None) ->
  truncated response = false ->
  sigint_at w = None ->
  let out := copy_url task_id url path w s in
  fst out = Ok tt /\
  fs (snd out) !! path = Some (content response) /\
  tasks (snd out) !! task_id =
    Some (task_advance (len (content response)) (task_start (task_set_total n t))) /\
  count is_write (new_events s (snd out)) = length (pieces response meta) /\
  handles (snd out) = handles s /\
  last (new_events s (snd out)) = Some (EvLog ("Downloaded " +:+ path)).
Proof.
  intros Ht Hget Hhead Htot Hopen Hio Htrunc Hsig. cbv zeta.
  assert (Hbr : breaks response meta = false).
  { by rewrite (breaks_truncated _ _ _ Htot). }
  destruct (copy_url_run task_id url path w s response meta n t
              Ht Hget Hhead Htot Hopen)
    as (done & evs & fl & _ & _ & Htr & Hts & _ & Hh & _ & _ & Hres & Hfile & Hgood
        & _ & Hc & _ & _ & _ & _ & Hnone & _).
  specialize (Hnone Hio Hsig). rewrite Hbr in Hnone. subst fl.
  destruct (Hc eq_refl) as [-> _].
  destruct Hfile as (data & Hfile & _ & Hdata).
  rewrite (Hdata ltac:(done) (Hio _)), (pieces_whole _ _ Hbr) in Hfile.
  rewrite Hres, Hfile, Hts, (new_events_app _ _ _ Htr), (pieces_whole _ _ Hbr), Hio.
  split; [done|]. split; [done|]. split.
  { apply list_lookup_insert_eq. by eapply lookup_lt_Some. }
  split.
  { rewrite !count_app, (count_write_transfers _ _ _ _ (Hgood ltac:(done))).
    unfold count. simpl. lia. }
  split; [done|].
  by rewrite !last_app.
Qed.

(** X2. A stream that breaks. With a Content-Length header, no interrupt, no
    failing file operation and a connection that fails before the body is
    complete, [copy_url] writes and counts every piece the stream has
    yielded, which together are a beginning of the delivered bytes, and then
    raises the stream's failure; the file handle is closed all the same and
    no completion line is logged. *)
Theorem copy_url_broken_stream (w : World) (s : State) (task_id : nat)
    (url path : string) (response meta : Response) (n : Z) (t : Task) :
  tasks s !! task_id = Some t ->
  net w (length (requests s)) (Get url true) = Some response ->
  net w (S (length (requests s))) (Head url) = Some meta ->
  declared_total response meta = Ok n ->
  opens w path = Opened ->
  (forall k, io_error w k = None) ->
  truncated response = true ->
  sigint_at w = None ->
  let out := copy_url task_id url path w s in
  let yielded := concat (pieces response meta) in
  fst out = Raise ChunkedEncodingError /\
  yielded `prefix_of` content response /\
  fs (snd out) !! path = Some yielded /\
  t_completed <$> tasks (snd out) !! task_id = Some (t_completed t + len yielded) /\
  handles (snd out) = handles s /\
  last (new_events s (snd out)) = Some (EvClose path) /\
  ~ In (EvLog ("Downloaded " +:+ path)) (new_events s (snd out)).
Proof.
  intros Ht Hget Hhead Htot Hopen Hio Htrunc Hsig. cbv zeta.
  assert (Hbr : breaks response meta = true).
  { by rewrite (breaks_truncated _ _ _ Htot). }
  destruct (copy_url_run task_id url path w s response meta n t
              Ht Hget Hhead Htot Hopen)
    as (done & evs & fl & _ & Hall & Htr & Hts & _ & Hh & _ & _ & Hres & Hfile & _
        & _ & _ & _ & Hraise & _ & _ & Hnone & _).
  specialize (Hnone Hio Hsig). rewrite Hbr in Hnone. subst fl.
  destruct (Hraise _ eq_refl ltac:(done)) as (_ & -> & _).
  destruct Hfile as (data & Hfile & _ & Hdata).
  rewrite (Hdata ltac:(done) (Hio _)) in Hfile.
  rewrite Hres, Hfile, Hts, (new_events_app _ _ _ Htr), Hio.
  split; [done|]. split; [apply pieces_prefix|]. split; [done|]. split.
  { by rewrite list_lookup_insert_eq by (by eapply lookup_lt_Some). }
  split; [done|]. split.
  { by rewrite !last_app. }
  intros Hin. apply in_app_or in Hin as [Hin | Hin].
  - simpl in Hin. repeat (destruct Hin as [Hin | Hin]; [discriminate Hin|]). done.
  - apply in_app_or in Hin as [Hin | Hin].
    + rewrite Forall_forall in Hall. apply list_elem_of_In, Hall in Hin. done.
    + simpl in Hin. destruct Hin as [Hin | []]. discriminate Hin.
Qed.

(** X9. In every run that reaches the loop and in which no file operation
    fails, the progress counter and the file agree: the counter has grown by
    exactly the number of bytes now in the destination file, and those bytes
    are the beginning of the body. *)
Theorem copy_url_counter_is_file_size (w : World) (s : State) (task_id : nat)
    (url path : string) (response meta : Response) (n : Z) (t : Task) :
  tasks s !! task_id = Some t ->
  net w (length (requests s)) (Get url true) = Some response ->
  net w (S (length (requests s))) (Head url) = Some meta ->
  declared_total response meta = Ok n ->
  opens w path = Opened ->
  (forall k, io_error w k = None) ->
  let s' := snd (copy_url task_id url path w s) in
  exists data t',
    fs s' !! path = Some data /\
    tasks s' !! task_id = Some t' /\
    t_completed t' = t_completed t + len data /\
    data = take (length data) (content response) /\
    t_total t' = Some n /\ t_started t' = true.
Proof.
  intros Ht Hget Hhead Htot Hopen Hio. cbv zeta.
  destruct (copy_url_run task_id url path w s response meta n t
              Ht Hget Hhead Htot Hopen)
    as (done & evs & fl & Hp & _ & _ & Hts & _ & _ & _ & _ & _ & Hfile & _ & Hbad & _).
  destruct Hfile as (data & Hfile & _ & Hdata).
  assert (Hne : fl <> Raise OSError).
  { intros Hos. destruct (Hbad Hos) as (p & k & _ & Hk & _). by rewrite Hio in Hk. }
  rewrite (Hdata Hne (Hio _)) in Hfile.
  exists (concat done), (task_advance (len (concat done)) (task_start (task_set_total n t))).
  split; [exact Hfile|]. split.
  { rewrite Hts. apply list_lookup_insert_eq. by eapply lookup_lt_Some. }
  split; [done|]. split; [by apply concat_done_take with meta | done].
Qed.

(** X8. The counter never runs past the body. At every point of a run of
    [copy_url] the bytes counted so far are at most the length of the GET
    response's body; when the HEAD response has no Content-Length and the
    stream is whole, that length is the total the task declares. *)
Theorem copy_url_counter_bounded (w : World) (s : State) (task_id : nat)
    (url path : string) (response meta : Response) (t : Task) (i : nat) :
  tasks s !! task_id = Some t ->
  net w (length (requests s)) (Get url true) = Some response ->
  net w (S (length (requests s))) (Head url) = Some meta ->
  let s' := snd (copy_url task_id url path w s) in
  counter task_id (t_completed t) (take i (new_events s s'))
    <= t_completed t + len (content response) /\
  (header meta "Content-Length" = None -> truncated response = false ->
   t_total <$> tasks s' !! task_id = Some (Some (len (content response)))).
Proof.
  intros Ht Hget Hhead. cbv zeta. split.
  - destruct (copy_url_summary task_id url path w s) as (done & Hp & Hf & _ & _).
    rewrite Hget in Hp. cbn [from_option] in Hp.
    etrans.
    { apply counter_take_le.
      intros k m. by apply advances_nonneg with task_id done. }
    rewrite <- counter_filter, Hf, counter_advances.
    destruct Hp as [rest Hrest].
    rewrite Hrest, len_app. unfold len. lia.
  - intros Hv Htr.
    destruct (copy_url_total task_id url path w s response meta t Ht Hget Hhead)
      as [_ Htot].
    apply Htot. by apply declared_total_body.
Qed.

(** ** The Dispatcher, continued *)

(** Every run of the loop, however it ends: it has completed [k] turns, each
    of which added one task and one job; it has sent one HEAD request per
    turn, and one more when it raised. *)
Lemma for_each_dispatch_any dest_dir urls w s :
  let out := for_each (dispatch dest_dir) urls w s in
  exists k js ts evs,
    (k <= length urls)%nat /\
    submitted (snd out) = submitted s ++ js /\
    tasks (snd out) = tasks s ++ ts /\
    map j_url js = take k urls /\
    map j_task js = seq (length (tasks s)) k /\
    Forall2 (made_together dest_dir) js ts /\
    trace (snd out) = trace s ++ evs /\
    Forall (fun e => is_dispatch_event e = true) evs /\
    (fst out = Ok tt ->
       k = length urls /\ requests (snd out) = requests s ++ map Head urls) /\
    (forall e, fst out = Raise e ->
       (k < length urls)%nat /\
       requests (snd out) = requests s ++ map Head (take (S k) urls) /\
       (e = RequestException \/ e = KeyError)).
Proof.
  revert s. induction urls as [|u urls IH]; intros s.
  - exists 0%nat, [], [], []. simpl. rewrite !app_nil_r.
    repeat split; try done.
  - cbv zeta. simpl.
    destruct (net w (length (requests s)) (Head u)) as [r|] eqn:Hnet.
    + destruct (header r "Content-Type") as [ct|] eqn:Hct.
      * destruct (dispatch_ok dest_dir u w s r ct Hnet Hct)
          as (s1 & Hrun & Ht & Hs & Htr & _).
        rewrite (bind_ok _ _ _ _ _ _ Hrun).
        destruct (IH s1) as (k & js & ts & evs & Hk & Hsub & Hts & Hurl & Htid
                             & Hmade & Htrace & Hall & Hok & Hraise).
        assert (Hreq : requests s1 = requests s ++ [Head u]).
        { unfold requests. rewrite Htr, omap_app. reflexivity. }
        eexists (S k), (_ :: js), (_ :: ts), (_ ++ evs).
        split; [simpl; lia|].
        split; [rewrite Hsub, Hs, <- app_assoc; reflexivity|].
        split; [rewrite Hts, Ht, <- app_assoc; reflexivity|].
        split; [simpl; by rewrite Hurl|].
        split.
        { simpl. rewrite Htid, Ht, length_app. simpl.
          do 2 f_equal. lia. }
        split.
        { constructor; [|exact Hmade]. exists ct. simpl. done. }
        split; [rewrite Htrace, Htr, <- app_assoc; reflexivity|].
        split; [repeat constructor; exact Hall|].
        split.
        { intros Hfst. destruct (Hok Hfst) as [-> Hr]. split; [done|].
          rewrite Hr, Hreq, <- app_assoc. reflexivity. }
        { intros e Hfst. destruct (Hraise e Hfst) as (Hlt & Hr & He).
          split; [simpl; lia|]. split; [|exact He].
          rewrite Hr, Hreq, <- app_assoc. reflexivity. }
      * rewrite (bind_raise _ _ _ _ _ _ (dispatch_fail_key _ _ _ _ _ Hnet Hct)).
        exists 0%nat, [], [], [EvRequest (Head u)]. simpl. rewrite !app_nil_r.
        repeat split; try done; try lia; try (by repeat constructor);
          try (by requests_of_trace); try (right; congruence).
    + rewrite (bind_raise _ _ _ _ _ _ (dispatch_fail_net _ _ _ _ Hnet)).
      exists 0%nat, [], [], [EvRequest (Head u)]. simpl. rewrite !app_nil_r.
      repeat split; try done; try lia; try (by repeat constructor);
        try (by requests_of_trace); try (left; congruence).
Qed.

(** Every run of [download], however it ends. *)
Lemma download_any dest_dir urls w s :
  let out := download urls dest_dir w s in
  exists k js ts evs,
    (k <= length urls)%nat /\
    submitted (snd out) = submitted s ++ js /\
    tasks (snd out) = tasks s ++ ts /\
    map j_url js = take k urls /\
    map j_task js = seq (length (tasks s)) k /\
    Forall2 (made_together dest_dir) js ts /\
    new_events s (snd out) =
      [EvDisplayStart; EvPoolOpen MAX_WORKERS] ++ evs
        ++ [EvPoolShutdown; EvDisplayStop] /\
    Forall (fun e => is_dispatch_event e = true) evs /\
    (fst out = Ok tt ->
       k = length urls /\ requests (snd out) = requests s ++ map Head urls) /\
    (forall e, fst out = Raise e ->
       (k < length urls)%nat /\
       requests (snd out) = requests s ++ map Head (take (S k) urls) /\
       (e = RequestException \/ e = KeyError)) /\
    live (snd out) = false /\ fs (snd out) = fs s /\ handles (snd out) = handles s.
Proof.
  cbv zeta. rewrite download_unfold. cbv zeta.
  set (s0 := emit _ (emit _ (set_live true s))).
  assert (Hr0 : requests s0 = requests s).
  { unfold s0. by rewrite !requests_emit_other. }
  destruct (for_each_dispatch_any dest_dir urls w s0)
    as (k & js & ts & evs & Hk & Hsub & Hts & Hurl & Htid & Hmade & Htr & Hall
        & Hok & Hraise).
  pose proof (for_each_dispatch_step dest_dir urls w s0) as (_ & _ & Hfs & Hh & _).
  destruct (for_each (dispatch dest_dir) urls w s0) as [res s1].
  cbn [fst snd] in *.
  assert (Hreq : requests (emit EvDisplayStop (set_live false (emit EvPoolShutdown s1)))
                 = requests s1).
  { requests_of_trace. }
  exists k, js, ts, evs.
  split; [exact Hk|]. split; [exact Hsub|]. split; [exact Hts|].
  split; [exact Hurl|]. split; [exact Htid|]. split; [exact Hmade|].
  split.
  { unfold new_events. cbn [trace emit set_live]. rewrite Htr. unfold s0.
    cbn [trace emit set_live]. by rewrite <- !app_assoc, drop_app_length. }
  split; [exact Hall|].
  split.
  { intros Hres. rewrite Hreq. destruct (Hok Hres) as [? ->]. by rewrite Hr0. }
  split.
  { intros e Hres. rewrite Hreq. destruct (Hraise e Hres) as (? & -> & ?).
    by rewrite Hr0. }
  done.
Qed.

(** ** File names and paths *)

Lemma split_pieces sep s : Forall (fun p => contains sep p = false) (split sep s).
Proof.
  induction s as [|c s IH]; simpl.
  - by repeat constructor.
  - destruct (Ascii.eqb c sep) eqn:Hc.
    + by constructor.
    + destruct (split sep s) as [|p ps].
      { constructor; [simpl; by rewrite Hc | constructor]. }
      inversion IH as [|? ? Hp Hps]; subst.
      constructor; [|exact Hps]. simpl. by rewrite Hc.
Qed.

Lemma last_item_no_sep sep s : contains sep (last_item (split sep s)) = false.
Proof.
  unfold last_item. pose proof (split_pieces sep s) as H.
  induction H as [|p ps Hp _ IH]; [done|].
  destruct ps; [exact Hp | exact IH].
Qed.

Lemma contains_append c a b :
  contains c (a +:+ b) = (contains c a || contains c b)%bool.
Proof.
  induction a as [|c' a IH]; simpl; [done|]. by rewrite IH, orb_assoc.
Qed.

(** The file name a turn of the loop derives has no slash in it. *)
Lemma made_together_name dest_dir j t :
  made_together dest_dir j t -> contains "/" (t_filename t) = false.
Proof.
  intros (ct & _ & -> & _).
  destruct (String.eqb _ _); [|apply last_item_no_sep].
  by rewrite contains_append, last_item_no_sep.
Qed.

Lemma split_nonempty sep s : split sep s <> [].
Proof.
  destruct s as [|c s]; simpl; [done|].
  destruct (Ascii.eqb c sep); [done|]. by destruct (split sep s).
Qed.

Lemma split_last sep s :
  (split sep s = [s]) \/
  (exists pre, (2 <= length (split sep s))%nat /\
               s = pre +:+ String sep (last_item (split sep s))).
Proof.
  unfold last_item. induction s as [|c s IH]; simpl; [by left|].
  destruct (Ascii.eqb c sep) eqn:Hc.
  - apply Ascii.eqb_eq in Hc as ->. right.
    pose proof (split_nonempty sep s) as Hne.
    destruct IH as [Hone | (pre & Hlen & Hs)].
    + exists "". rewrite Hone. simpl. split; [lia | done].
    + exists (String sep pre). split.
      * simpl. lia.
      * destruct (split sep s) as [|p ps]; [done|]. simpl. by rewrite Hs at 1.
  - destruct IH as [Hone | (pre & Hlen & Hs)].
    + left. by rewrite Hone.
    + right. destruct (split sep s) as [|p [|q ps]]; [simpl in Hlen; lia ..|].
      exists (String c pre). split; [simpl; lia|].
      simpl. by rewrite Hs at 1.
Qed.

(** X19. The file name derived from a URL is what follows its last slash:
    it has no slash in it, and the URL is either that name alone or
    something, a slash, and the name. A URL ending in a slash gives the
    empty name. *)
Theorem filename_of_url (url : string) :
  let name := last_item (split "/" url) in
  contains "/" name = false /\
  (url = name \/ exists pre, url = pre +:+ "/" +:+ name) /\
  (forall pre, url = pre +:+ "/" -> name = "").
Proof.
  cbv zeta. split; [apply last_item_no_sep|]. split.
  - destruct (split_last "/" url) as [Hone | (pre & _ & Hs)].
    + left. by rewrite Hone.
    + right. by exists pre.
  - intros pre ->. clear.
    induction pre as [|c pre IH]; [done|].
    simpl. unfold last_item in *.
    destruct (Ascii.eqb c "/").
    + pose proof (split_nonempty "/" (pre +:+ "/")) as Hne.
      destruct (split "/" (pre +:+ "/")); [done | exact IH].
    + pose proof (split_nonempty "/" (pre +:+ "/")) as Hne.
      destruct (split "/" (pre +:+ "/")) as [|p [|q ps]] eqn:Hsp; [done| |exact IH].
      exfalso. clear IH Hne.
      assert (Hc : contains "/" (pre +:+ "/") = true).
      { rewrite contains_append. simpl. by rewrite orb_true_r. }
      destruct (split_last "/" (pre +:+ "/")) as [Hone | (x & Hlen & _)].
      * pose proof (split_pieces "/" (pre +:+ "/")) as Hp.
        rewrite Hone in Hp. inversion Hp; subst. congruence.
      * rewrite Hsp in Hlen. simpl in Hlen. lia.
Qed.

(** X10. When every probe succeeds, [download] returns normally having sent
    one HEAD request per URL, in order, and having registered one pending
    task and submitted one job per URL, in the order the URLs were given and
    with consecutive task ids. *)
Theorem download_in_order (w : World) (s : State) (dest_dir : string)
    (urls : list string) :
  probes_ok w (length (requests s)) urls = true ->
  let out := download urls dest_dir w s in
  fst out = Ok tt /\
  requests (snd out) = requests s ++ map Head urls /\
  exists js ts,
    submitted (snd out) = submitted s ++ js /\
    tasks (snd out) = tasks s ++ ts /\
    map j_url js = urls /\
    map j_task js = seq (length (tasks s)) (length urls) /\
    length ts = length urls /\
    Forall (fun t => t_started t = false /\ t_completed t = 0) ts.
Proof.
  intros Hp. cbv zeta.
  pose proof (download_exit dest_dir urls w s) as Hexit. rewrite Hp in Hexit.
  destruct (download_any dest_dir urls w s)
    as (k & js & ts & evs & _ & Hsub & Hts & Hurl & Htid & Hmade & _ & _ & Hok & _).
  destruct (fst (download urls dest_dir w s)) as [[]|e] eqn:Hfst; [|done].
  destruct (Hok eq_refl) as [-> Hreq].
  split; [done|]. split; [exact Hreq|].
  exists js, ts. rewrite firstn_all in Hurl.
  split; [exact Hsub|]. split; [exact Hts|]. split; [exact Hurl|].
  split; [exact Htid|]. split.
  - rewrite <- (Forall2_length _ _ _ Hmade), <- (length_map j_url), Hurl. done.
  - clear -Hmade. induction Hmade as [|j t js ts (ct & _ & _ & _ & H1 & H2) _ IH];
      by constructor.
Qed.

(** X11. [download] always tears down what it set up. Whether the loop ends
    or raises, the pool is shut down and then the display stopped, as the
    last two events of the call; in between the thread only sends HEAD
    requests, registers tasks and submits jobs, and it leaves files and
    handles alone. *)
Theorem download_teardown (w : World) (s : State) (dest_dir : string)
    (urls : list string) :
  let out := download urls dest_dir w s in
  live (snd out) = false /\
  fs (snd out) = fs s /\ handles (snd out) = handles s /\
  exists evs,
    new_events s (snd out) =
      [EvDisplayStart; EvPoolOpen MAX_WORKERS] ++ evs
        ++ [EvPoolShutdown; EvDisplayStop] /\
    Forall (fun e => is_dispatch_event e = true) evs.
Proof.
  cbv zeta.
  destruct (download_any dest_dir urls w s)
    as (k & js & ts & evs & _ & _ & _ & _ & _ & _ & Hnew & Hall & _ & _ & Hl & Hfs & Hh).
  repeat split; try done. by exists evs.
Qed.

(** X12. The file name [download] joins to the destination directory has no
    slash in it: for every job submitted, the path is [os.path.join] of the
    directory and a name that is the URL's last segment, or that segment
    with .txt, and that name contains no slash. *)
Theorem download_names_have_no_slash (w : World) (s : State) (dest_dir : string)
    (urls : list string) :
  let out := download urls dest_dir w s in
  exists js,
    submitted (snd out) = submitted s ++ js /\
    Forall (fun j =>
      exists name,
        (name = last_item (split "/" (j_url j)) \/
         name = last_item (split "/" (j_url j)) +:+ ".txt") /\
        contains "/" name = false /\
        j_path j = os_path_join dest_dir name) js.
Proof.
  cbv zeta.
  destruct (download_any dest_dir urls w s)
    as (k & js & ts & evs & _ & Hsub & _ & _ & _ & Hmade & _).
  exists js. split; [exact Hsub|].
  clear -Hmade. induction Hmade as [|j t js ts Hjt _ IH]; constructor; [|exact IH].
  pose proof (made_together_name _ _ _ Hjt) as Hname.
  destruct Hjt as (ct & _ & Hfile & Hpath & _).
  exists (t_filename t). split.
  { rewrite Hfile. destruct (String.eqb _ _); [by right | by left]. }
  split; [exact Hname | exact Hpath].
Qed.

(** X13. The task table and the job list stay in step. In every run of
    [download], also one that raises, the new jobs and the new tasks are
    equally many; the [i]-th new job carries the id of the [i]-th new task,
    which is pending and names the file the job writes; and the requests
    sent are HEAD requests for a prefix of the URLs, one per URL. *)
Theorem download_tables_in_step (w : World) (s : State) (dest_dir : string)
    (urls : list string) :
  let out := download urls dest_dir w s in
  exists k m,
    length (submitted (snd out)) = (length (submitted s) + k)%nat /\
    length (tasks (snd out)) = (length (tasks s) + k)%nat /\
    (forall i j, (i < k)%nat ->
       submitted (snd out) !! (length (submitted s) + i)%nat = Some j ->
       j_task j = (length (tasks s) + i)%nat /\
       urls !! i = Some (j_url j) /\
       exists t, tasks (snd out) !! j_task j = Some t /\
                 j_path j = os_path_join dest_dir (t_filename t) /\
                 t_started t = false /\ t_completed t = 0) /\
    (m = k \/ m = S k) /\ (m <= length urls)%nat /\
    requests (snd out) = requests s ++ map Head (take m urls).
Proof.
  cbv zeta.
  destruct (download_any dest_dir urls w s)
    as (k & js & ts & evs & Hk & Hsub & Hts & Hurl & Htid & Hmade & _ & _ & Hok
        & Hraise & _).
  assert (Hjs : length js = k).
  { rewrite <- (length_map j_url), Hurl, length_take. lia. }
  assert (Hlts : length ts = k).
  { by rewrite <- (Forall2_length _ _ _ Hmade). }
  assert (Hreq : exists m, (m = k \/ m = S k) /\ (m <= length urls)%nat /\
            requests (snd (download urls dest_dir w s))
              = requests s ++ map Head (take m urls)).
  { destruct (fst (download urls dest_dir w s)) as [[]|e] eqn:Hfst.
    - destruct (Hok eq_refl) as [-> Hr]. exists (length urls).
      rewrite firstn_all. split; [by left|]. split; [lia | exact Hr].
    - destruct (Hraise e eq_refl) as (Hlt & Hr & _). exists (S k).
      split; [by right|]. split; [lia | exact Hr]. }
  destruct Hreq as (m & Hm & Hmle & Hreq).
  exists k, m. rewrite Hsub, Hts, !length_app, Hjs, Hlts.
  split; [done|]. split; [done|]. split; [|done].
  intros i j Hi Hj.
  rewrite lookup_app_r, Nat.add_comm, Nat.add_sub in Hj by lia.
  destruct (Forall2_lookup_l _ _ _ _ _ Hmade Hj) as (t & Ht & Hjt).
  assert (Hid : j_task j = (length (tasks s) + i)%nat).
  { assert (H1 : map j_task js !! i = Some (j_task j)) by (by rewrite list_lookup_fmap, Hj).
    rewrite Htid in H1. apply lookup_seq in H1 as [-> _]. done. }
  split; [exact Hid|]. split.
  { assert (H1 : map j_url js !! i = Some (j_url j)) by (by rewrite list_lookup_fmap, Hj).
    rewrite Hurl in H1. by apply lookup_take_Some in H1 as [H1 _]. }
  exists t. split.
  { rewrite Hid, lookup_app_r, Nat.add_comm, Nat.add_sub by lia. exact Ht. }
  destruct Hjt as (ct & _ & _ & Hpath & Hst & Hcomp). done.
Qed.

(** ** The worker pool, continued *)

Lemma running_take (l : list (option nat)) i j :
  l !! i = Some None -> omap id (<[i := Some j]> l) ≡ₚ j :: omap id l.
Proof.
  revert i. induction l as [|o l IH]; intros i Hi; [done|].
  destruct i as [|i].
  - injection Hi as ->. reflexivity.
  - specialize (IH i Hi). destruct o as [x|].
    + change (x :: omap id (<[i := Some j]> l) ≡ₚ j :: x :: omap id l).
      rewrite IH. apply perm_swap.
    + exact IH.
Qed.

Lemma running_finish (l : list (option nat)) i j :
  l !! i = Some (Some j) -> omap id l ≡ₚ j :: omap id (<[i := None]> l).
Proof.
  revert i. induction l as [|o l IH]; intros i Hi; [done|].
  destruct i as [|i].
  - injection Hi as ->. reflexivity.
  - specialize (IH i Hi). destruct o as [x|].
    + change (x :: omap id l ≡ₚ j :: x :: omap id (<[i := None]> l)).
      rewrite IH. apply perm_swap.
    + exact IH.
Qed.

Lemma pool_order_init n : pool_order (Pool.init n).
Proof.
  unfold pool_order, pool_taken, Pool.started, Pool.running. simpl.
  split; [lia|]. split; [done|]. split; [constructor|]. split.
  - intros j. split; [|lia]. intros [H|H]; by apply elem_of_nil in H.
  - intros _. split; [done | by left].
Qed.

Lemma pool_order_step l p p' :
  pool_order p -> Pool.step l p = Some p' -> pool_order p'.
Proof.
  intros (Hlen & Hq & Hnd & Hst & Hth) Hstep.
  unfold pool_order, pool_taken, Pool.started, Pool.running in *.
  destruct l as [|i|i]; simpl in Hstep.
  - (* submit *)
    injection Hstep as <-.
    assert (Hrun : omap id (Pool.threads (Pool.submit p)) = omap id (Pool.threads p)).
    { unfold Pool.submit. destruct (Pool.idle p); [|done].
      cbn [Pool.threads]. destruct (_ <? _)%nat; [|done].
      rewrite omap_app. apply app_nil_r. }
    assert (Hfin : Pool.finished (Pool.submit p) = Pool.finished p).
    { unfold Pool.submit. by destruct (Pool.idle p). }
    assert (Hn : Pool.next (Pool.submit p) = S (Pool.next p)).
    { unfold Pool.submit. by destruct (Pool.idle p). }
    assert (Hq' : Pool.queue (Pool.submit p) = Pool.queue p ++ [Pool.next p]).
    { unfold Pool.submit. by destruct (Pool.idle p). }
    rewrite Hrun, Hfin, Hn, Hq', length_app. cbn [length].
    replace (S (Pool.next p) - (length (Pool.queue p) + 1))%nat
      with (Pool.next p - length (Pool.queue p))%nat by lia.
    split; [lia|]. split.
    { rewrite Nat.add_1_r, seq_S, <- Hq. do 2 f_equal. lia. }
    split; [exact Hnd|]. split; [exact Hst|].
    unfold Pool.submit. destruct (Pool.idle p) as [|k] eqn:Hidle;
      cbn [Pool.threads Pool.idle Pool.next Pool.max_workers].
    + destruct (_ <? _)%nat eqn:E.
      * intros Hnil. by destruct (Pool.threads p).
      * intros Hnil. destruct (Hth Hnil) as [_ [H0|H0]].
        -- split; [done|]. right. apply Nat.ltb_ge in E. rewrite Hnil in E.
           simpl in E. lia.
        -- split; [done | by right].
    + intros Hnil. destruct (Hth Hnil) as [H0 _]. congruence.
  - (* a worker takes the oldest job *)
    destruct (Pool.threads p !! i) as [[j0|]|] eqn:Hi; try done.
    destruct (Pool.queue p) as [|j q] eqn:Hqueue; [done|].
    injection Hstep as <-.
    cbn [Pool.threads Pool.queue Pool.next Pool.finished Pool.idle Pool.max_workers].
    cbn [length] in *.
    simpl in Hq. injection Hq as Hj Hq.
    pose proof (running_take _ _ j Hi) as Hperm.
    replace (Pool.next p - length q)%nat
      with (S (Pool.next p - S (length q))) by lia.
    split; [lia|]. split; [exact Hq|]. split.
    { rewrite Hperm. simpl. apply NoDup_cons. split; [|exact Hnd].
      rewrite elem_of_app. intros Hin. apply Hst in Hin. lia. }
    split.
    { intros x. rewrite Hperm, elem_of_cons. destruct (Hst x) as [Hx1 Hx2]. split.
      - intros [[->|H]|H]; [lia | |].
        + assert (x < Pool.next p - S (length q))%nat by (apply Hx1; by left). lia.
        + assert (x < Pool.next p - S (length q))%nat by (apply Hx1; by right). lia.
      - intros H. destruct (decide (x = j)) as [->|Hne]; [left; by left|].
        destruct Hx2 as [H'|H']; [lia | left; by right | by right]. }
    intros Hnil. apply (f_equal length) in Hnil. rewrite length_insert in Hnil.
    apply lookup_lt_Some in Hi. simpl in Hnil. lia.
  - (* the job on a worker ends *)
    destruct (Pool.threads p !! i) as [[j0|]|] eqn:Hi; try done.
    injection Hstep as <-.
    cbn [Pool.threads Pool.queue Pool.next Pool.finished Pool.idle Pool.max_workers].
    pose proof (running_finish _ _ j0 Hi) as Hperm.
    split; [exact Hlen|]. split; [exact Hq|]. split.
    { rewrite Hperm in Hnd. simpl in Hnd.
      eapply NoDup_Permutation_proper; [|exact Hnd].
      symmetry. apply Permutation_middle. }
    split.
    { intros x. rewrite <- Hst, Hperm.
      rewrite !elem_of_cons. tauto. }
    intros Hnil. apply (f_equal length) in Hnil. rewrite length_insert in Hnil.
    apply lookup_lt_Some in Hi. simpl in Hnil. lia.
Qed.

Lemma pool_order_run ls p p' :
  pool_order p -> Pool.run ls p = Some p' -> pool_order p'.
Proof.
  revert p. induction ls as [|l ls IH]; intros p Hinv Hrun; simpl in Hrun.
  - by injection Hrun as <-.
  - destruct (Pool.step l p) as [p1|] eqn:Hstep; [|done].
    exact (IH p1 (pool_order_step l p p1 Hinv Hstep) Hrun).
Qed.

(** X16. Each job is executed at most once: in every state a schedule can
    reach, no job is on two workers, no job has finished twice, and no job
    is running after it has finished. *)
Theorem pool_runs_each_job_once (n : nat) (ls : list Pool.label) (p : Pool.t) :
  Pool.run ls (Pool.init n) = Some p ->
  NoDup (Pool.running p ++ Pool.finished p).
Proof.
  intros Hrun.
  by destruct (pool_order_run ls _ p (pool_order_init n) Hrun) as (_ & _ & Hnd & _).
Qed.

(** X17. Jobs start in the order they were submitted: a job that has started
    was submitted, every job submitted before it has started too, and the
    jobs still queued are exactly the later ones, oldest first. *)
Theorem pool_fifo (n : nat) (ls : list Pool.label) (p : Pool.t) :
  Pool.run ls (Pool.init n) = Some p ->
  (forall j, Pool.started p j ->
     (j < Pool.next p)%nat /\ forall j', (j' < j)%nat -> Pool.started p j') /\
  (exists taken, (taken <= Pool.next p)%nat /\
     Pool.queue p = seq taken (Pool.next p - taken) /\
     forall j, Pool.started p j <-> (j < taken)%nat).
Proof.
  intros Hrun.
  destruct (pool_order_run ls _ p (pool_order_init n) Hrun)
    as (Hlen & Hq & _ & Hst & _).
  unfold pool_taken in *. split.
  - intros j Hj. apply Hst in Hj. split; [lia|].
    intros j' Hlt. apply Hst. lia.
  - exists (Pool.next p - length (Pool.queue p))%nat.
    split; [lia|]. split; [|exact Hst].
    rewrite Hq at 1. f_equal. lia.
Qed.

Lemma pool_run_app l1 l2 p :
  Pool.run (l1 ++ l2) p =
    match Pool.run l1 p with
    | Some p1 => Pool.run l2 p1
    | None => None
    end.
Proof.
  revert p. induction l1 as [|l l1 IH]; intros p; simpl; [done|].
  destruct (Pool.step l p); [apply IH | done].
Qed.

(** Letting every running job end. *)
Lemma pool_finish_all m p :
  length (Pool.running p) = m ->
  pool_order p ->
  exists ls p',
    Pool.run ls p = Some p' /\ pool_order p' /\
    Pool.running p' = [] /\ Pool.queue p' = Pool.queue p /\
    Pool.next p' = Pool.next p /\
    length (Pool.threads p') = length (Pool.threads p).
Proof.
  revert p. induction m as [|m IH]; intros p Hm Hord.
  - exists [], p. simpl. split; [done|]. split; [exact Hord|].
    split; [by apply nil_length_inv | done].
  - destruct (Pool.running p) as [|j r] eqn:Hr; [done|].
    assert (Hj : j ∈ omap id (Pool.threads p)).
    { unfold Pool.running in Hr. rewrite Hr. by left. }
    apply elem_of_running in Hj as (i & Hi).
    assert (Hstep : exists p1, Pool.step (Pool.Finish i) p = Some p1 /\
              Pool.threads p1 = <[i := None]> (Pool.threads p) /\
              Pool.queue p1 = Pool.queue p /\ Pool.next p1 = Pool.next p).
    { simpl. rewrite Hi. by eexists. }
    destruct Hstep as (p1 & Hstep & Hth1 & Hq1 & Hn1).
    destruct (IH p1) as (ls & p' & Hrun & Hord' & Hrun' & Hq' & Hn' & Hlen').
    + pose proof (running_finish _ _ j Hi) as Hperm.
      apply Permutation_length in Hperm. unfold Pool.running in *.
      rewrite Hr in Hperm. rewrite Hth1. simpl in Hperm, Hm. lia.
    + by eapply pool_order_step.
    + exists (Pool.Finish i :: ls), p'. simpl in *. rewrite Hstep.
      split; [exact Hrun|]. split; [exact Hord'|]. split; [exact Hrun'|].
      split; [congruence|]. split; [congruence|].
      by rewrite Hlen', Hth1, length_insert.
Qed.

(** With every worker idle, the queue can be emptied job by job. *)
Lemma pool_drain_queue m p :
  length (Pool.queue p) = m ->
  pool_order p -> Pool.running p = [] -> Pool.threads p <> [] ->
  exists ls p',
    Pool.run ls p = Some p' /\ pool_order p' /\
    Pool.running p' = [] /\ Pool.queue p' = [] /\ Pool.next p' = Pool.next p.
Proof.
  revert p. induction m as [|m IH]; intros p Hm Hord Hidle Hth.
  - exists [], p. simpl. split; [done|]. split; [exact Hord|].
    split; [exact Hidle|]. split; [by apply nil_length_inv | done].
  - destruct (Pool.queue p) as [|j q] eqn:Hq; [done|].
    destruct (Pool.threads p) as [|o l] eqn:Hthreads; [done|].
    assert (o = None) as ->.
    { destruct o as [x|]; [|done]. unfold Pool.running in Hidle.
      rewrite Hthreads in Hidle. discriminate Hidle. }
    assert (Hs1 : exists p1, Pool.step (Pool.Take 0) p = Some p1 /\
              Pool.threads p1 = Some j :: l /\ Pool.queue p1 = q /\
              Pool.next p1 = Pool.next p).
    { simpl. rewrite Hthreads, Hq. simpl. by eexists. }
    destruct Hs1 as (p1 & Hs1 & Hth1 & Hq1 & Hn1).
    assert (Hs2 : exists p2, Pool.step (Pool.Finish 0) p1 = Some p2 /\
              Pool.threads p2 = None :: l /\ Pool.queue p2 = q /\
              Pool.next p2 = Pool.next p).
    { simpl. rewrite Hth1. simpl. eexists. split; [reflexivity|].
      cbn [Pool.threads Pool.queue Pool.next].
      split; [done|]. split; congruence. }
    destruct Hs2 as (p2 & Hs2 & Hth2 & Hq2 & Hn2).
    destruct (IH p2) as (ls & p' & Hrun & Hord' & Hrun' & Hq' & Hn').
    + rewrite Hq2. simpl in Hm. lia.
    + eapply pool_order_step; [|exact Hs2]. by eapply pool_order_step.
    + unfold Pool.running in *. rewrite Hth2. rewrite Hthreads in Hidle.
      exact Hidle.
    + by rewrite Hth2.
    + exists (Pool.Take 0 :: Pool.Finish 0 :: ls), p'.
      change (Pool.run (Pool.Take 0 :: Pool.Finish 0 :: ls) p)
        with (match Pool.step (Pool.Take 0) p with
              | Some p1 => match Pool.step (Pool.Finish 0) p1 with
                           | Some p2 => Pool.run ls p2
                           | None => None
                           end
              | None => None
              end).
      rewrite Hs1, Hs2.
      split; [exact Hrun|]. split; [exact Hord'|]. split; [exact Hrun'|].
      split; [exact Hq' | congruence].
Qed.

(** X18. No job is stranded. From every state a schedule can reach there is
    a way on in which the queue is emptied and every worker ends its job, so
    that exactly the jobs submitted so far have finished: waiting for the
    pool to shut down can always come to an end. *)
Theorem pool_drains (n : nat) (ls : list Pool.label) (p : Pool.t) :
  (0 < n)%nat ->
  Pool.run ls (Pool.init n) = Some p ->
  exists ls' p',
    Pool.run ls' p = Some p' /\
    Pool.queue p' = [] /\ Pool.running p' = [] /\
    Pool.next p' = Pool.next p /\
    forall j, j ∈ Pool.finished p' <-> (j < Pool.next p)%nat.
Proof.
  intros Hn Hrun.
  pose proof (pool_order_run ls _ p (pool_order_init n) Hrun) as Hord.
  destruct (pool_run_inv ls _ p (pool_inv_init n) Hrun) as [_ Hmax].
  cbn [Pool.max_workers Pool.init] in Hmax.
  destruct (pool_finish_all _ p eq_refl Hord)
    as (l1 & p1 & Hrun1 & Hord1 & Hidle1 & Hq1 & Hn1 & Hlen1).
  assert (Hfinal : forall p',
            pool_order p' -> Pool.running p' = [] -> Pool.queue p' = [] ->
            Pool.next p' = Pool.next p ->
            forall j, j ∈ Pool.finished p' <-> (j < Pool.next p)%nat).
  { intros p' (_ & _ & _ & Hst & _) Hr Hq Hnx j.
    rewrite <- Hnx. specialize (Hst j).
    unfold pool_taken, Pool.started in Hst. rewrite Hr, Hq in Hst.
    simpl in Hst. rewrite Nat.sub_0_r in Hst. rewrite <- Hst.
    split; [by right|]. intros [H|H]; [by apply elem_of_nil in H | done]. }
  destruct (Pool.queue p1) as [|j q] eqn:Hqueue.
  - exists l1, p1. split; [exact Hrun1|]. split; [exact Hqueue|].
    split; [exact Hidle1|]. split; [exact Hn1|]. by apply Hfinal.
  - assert (Hth : Pool.threads p1 <> []).
    { intros Hnil. destruct Hord1 as (Hlen & _ & _ & _ & H5).
      destruct (H5 Hnil) as [_ [H0|H0]].
      - rewrite Hqueue in Hlen. simpl in Hlen. lia.
      - destruct (pool_run_inv l1 p p1) as [_ Hmax1].
        + by destruct (pool_run_inv ls _ p (pool_inv_init n) Hrun).
        + exact Hrun1.
        + lia. }
    destruct (pool_drain_queue _ p1 eq_refl Hord1 Hidle1 Hth)
      as (l2 & p2 & Hrun2 & Hord2 & Hidle2 & Hq2 & Hn2).
    exists (l1 ++ l2), p2. rewrite pool_run_app, Hrun1.
    split; [exact Hrun2|]. split; [exact Hq2|]. split; [exact Hidle2|].
    split; [congruence|]. apply Hfinal; try done. congruence.
Qed.

(** ** The entry point, continued *)

Lemma download_no_help dest_dir urls w s :
  ~ In EvPrintHelp (new_events s (snd (download urls dest_dir w s))).
Proof.
  destruct (download_any dest_dir urls w s)
    as (k & js & ts & evs & _ & _ & _ & _ & _ & _ & Hnew & Hall & _).
  rewrite Hnew. intros Hin. simpl in Hin.
  destruct Hin as [Hin|[Hin|Hin]]; try discriminate Hin.
  apply in_app_or in Hin as [Hin|Hin].
  - rewrite Forall_forall in Hall. apply list_elem_of_In, Hall in Hin. done.
  - simpl in Hin. by destruct Hin as [Hin|[Hin|[]]].
Qed.

Lemma new_events_refl s : new_events s s = [].
Proof. unfold new_events. apply drop_all. Qed.

Lemma is_in_help a :
  is_in a ["-h"; "--help"] = true <-> a = "-h" \/ a = "--help".
Proof.
  unfold is_in. simpl. rewrite !orb_true_iff, !String.eqb_eq. intuition congruence.
Qed.

Lemma main_unfold prog a1 rest w s :
  main (prog :: a1 :: rest) w s =
    if is_in a1 ["-h"; "--help"] then download rest "./" w (emit EvPrintHelp s)
    else if is_in a1 ["-d"; "--directory"] then
      match rest with
      | d :: urls => download urls d w s
      | [] => (Raise IndexError, s)
      end
    else download (a1 :: rest) "./" w s.
Proof.
  unfold main. cbn [length Nat.leb lookup list_lookup skipn drop].
  destruct (is_in a1 ["-h"; "--help"]); [reflexivity|].
  destruct (is_in a1 ["-d"; "--directory"]); [by destruct rest | reflexivity].
Qed.

(** X14. The usage text is printed exactly when the program is given no
    argument or its first argument is -h or --help; a help flag in any later
    position is taken for a URL or a directory and prints nothing. *)
Theorem main_prints_usage_iff (w : World) (s : State) (argv : list string) :
  In EvPrintHelp (new_events s (snd (main argv w s))) <->
  (length argv < 2)%nat \/
  (exists a, argv !! 1%nat = Some a /\ (a = "-h" \/ a = "--help")).
Proof.
  destruct argv as [|prog [|a1 rest]].
  - simpl. unfold new_events. simpl. rewrite drop_app_length.
    split; [intros _; left; lia | intros _; by left].
  - simpl. unfold new_events. simpl. rewrite drop_app_length.
    split; [intros _; left; lia | intros _; by left].
  - rewrite main_unfold.
    destruct (is_in a1 ["-h"; "--help"]) eqn:Hhelp.
    + split.
      * intros _. right. exists a1. split; [done|]. by apply is_in_help.
      * intros _.
        destruct (download_step "./" rest w (emit EvPrintHelp s))
          as (_ & _ & _ & _ & E & HE & _).
        unfold new_events. rewrite HE. simpl.
        rewrite <- app_assoc, drop_app_length. by left.
    + assert (Hno : ~ ((length (prog :: a1 :: rest) < 2)%nat \/
                       (exists a, (prog :: a1 :: rest) !! 1%nat = Some a /\
                                  (a = "-h" \/ a = "--help")))).
      { intros [Hlen | (a & [= <-] & Ha)]; [simpl in Hlen; lia|].
        apply is_in_help in Ha. congruence. }
      split; [|by intros H].
      intros Hin. exfalso.
      destruct (is_in a1 ["-d"; "--directory"]).
      * destruct rest as [|d urls].
        -- cbn [snd] in Hin. by rewrite new_events_refl in Hin.
        -- by apply download_no_help in Hin.
      * by apply download_no_help in Hin.
Qed.

(** X15. The exit status for every command line. No argument: 0. A help
    flag: the download of what follows decides. A directory flag with nothing
    after it: IndexError before anything is done, so 1 and an unchanged
    state. A directory flag and a directory: the download of what follows
    decides. Anything else: the first argument is itself the first URL. The
    download decides 0 when every probe succeeds and 1 otherwise. *)
Theorem main_exit_status (w : World) (s : State) (argv : list string) :
  let k := length (requests s) in
  exit_status (fst (main argv w s)) =
    match argv with
    | [] | [_] => 0
    | _ :: a1 :: rest =>
        if is_in a1 ["-h"; "--help"] then
          (if probes_ok w k rest then 0 else 1)
        else if is_in a1 ["-d"; "--directory"] then
          match rest with
          | [] => 1
          | _ :: urls => if probes_ok w k urls then 0 else 1
          end
        else if probes_ok w k (a1 :: rest) then 0 else 1
    end /\
  (forall prog a1,
     is_in a1 ["-h"; "--help"] = false -> is_in a1 ["-d"; "--directory"] = true ->
     main [prog; a1] w s = (Raise IndexError, s)).
Proof.
  cbv zeta. split.
  - destruct argv as [|prog [|a1 rest]]; [done..|].
    rewrite main_unfold.
    destruct (is_in a1 ["-h"; "--help"]).
    + rewrite download_exit. by rewrite requests_emit_other.
    + destruct (is_in a1 ["-d"; "--directory"]).
      * destruct rest as [|d urls]; [done|]. apply download_exit.
      * apply download_exit.
  - intros prog a1 Hh Hd. by rewrite main_unfold, Hh, Hd.
Qed.

(** ** Two URLs with one name *)

(** X20. No collision check. Two URLs of the list with the same last path
    segment and the same content type are given the same destination path,
    under different task ids: both jobs are submitted and will write the
    same file. *)
Theorem download_same_name_same_path (w : World) (s : State) (dest_dir : string)
    (pre mid post : list string) (u1 u2 : string) (r1 r2 : Response)
    (ct1 ct2 : string) :
  probes_ok w (length (requests s)) (pre ++ u1 :: mid) = true ->
  net w (length (requests s) + length pre) (Head u1) = Some r1 ->
  header r1 "Content-Type" = Some ct1 ->
  net w (length (requests s) + length (pre ++ u1 :: mid)) (Head u2) = Some r2 ->
  header r2 "Content-Type" = Some ct2 ->
  last_item (split "/" u1) = last_item (split "/" u2) ->
  first_item (split ";" ct1) = first_item (split ";" ct2) ->
  let s' := snd (download (pre ++ u1 :: mid ++ u2 :: post) dest_dir w s) in
  exists j1 j2,
    submitted s' !! (length (submitted s) + length pre)%nat = Some j1 /\
    submitted s' !! (length (submitted s) + length (pre ++ u1 :: mid))%nat = Some j2 /\
    j_url j1 = u1 /\ j_url j2 = u2 /\
    j_path j1 = j_path j2 /\
    j_task j1 <> j_task j2.
Proof.
  intros Hp Hn1 Hc1 Hn2 Hc2 Hseg Hct. cbv zeta.
  assert (Hp1 : probes_ok w (length (requests s)) pre = true).
  { rewrite probes_ok_app in Hp. by apply andb_true_iff in Hp as [Hp _]. }
  destruct (download_registers dest_dir pre u1 (mid ++ u2 :: post) w s r1 ct1
              Hp1 Hn1 Hc1) as [_ Hj1].
  destruct (download_registers dest_dir (pre ++ u1 :: mid) u2 post w s r2 ct2
              Hp Hn2 Hc2) as [_ Hj2].
  rewrite <- app_assoc in Hj2. simpl in Hj2.
  eexists _, _. split; [exact Hj1|]. split; [exact Hj2|].
  simpl. split; [done|]. split; [done|]. split.
  - by rewrite Hseg, Hct.
  - rewrite length_app. simpl. lia.
Qed.

(** ** A job that starts after the interrupt *)

(** X21. A job that the pool starts only after the interrupt still runs: it
    sends both requests, truncates its file, writes and counts the first
    piece the iterator yields, and only then sees the flag and returns,
    without a completion line. (No file operation fails.) *)
Theorem copy_url_started_after_interrupt (w : World) (s : State) (task_id : nat)
    (url path : string) (response meta : Response) (n : Z) (t : Task) (T : nat)
    (p : bytes) (rest : list bytes) :
  tasks s !! task_id = Some t ->
  net w (length (requests s)) (Get url true) = Some response ->
  net w (S (length (requests s))) (Head url) = Some meta ->
  declared_total response meta = Ok n ->
  opens w path = Opened ->
  (forall k, io_error w k = None) ->
  sigint_at w = Some T ->
  (T <= length (trace s))%nat ->
  pieces response meta = p :: rest ->
  let out := copy_url task_id url path w s in
  fst out = Ok tt /\
  requests (snd out) = requests s ++ [Get url true; Head url] /\
  fs (snd out) !! path = Some p /\
  t_completed <$> tasks (snd out) !! task_id = Some (t_completed t + len p) /\
  count is_write (new_events s (snd out)) = 1%nat /\
  last (new_events s (snd out)) = Some (EvClose path).
Proof.
  intros Ht Hget Hhead Htot Hopen Hio HT Hle Hpieces. cbv zeta.
  destruct (copy_url_enters task_id url path w s response meta n t
              Ht Hget Hhead Htot Hopen)
    as (s0 & -> & Htr0 & Hts0 & Hfs0 & Hh0 & _).
  rewrite Hpieces.
  assert (Ht0 : tasks s0 !! task_id = Some (task_start (task_set_total n t))).
  { rewrite Hts0. apply list_lookup_insert_eq. by eapply lookup_lt_Some. }
  destruct (stream_loop_cons task_id path p rest (breaks response meta) w s0 _
              Ht0 (Hio _))
    as (s1 & Hrun & Htr1 & Hts1 & Hfs1 & Hh1 & _).
  assert (Hint : interrupted w (length (trace s0) + 3) = true).
  { unfold interrupted. rewrite HT. apply bool_decide_eq_true.
    rewrite Htr0, length_app. lia. }
  rewrite Hint in Hrun, Htr1. cbv zeta. rewrite Hrun. cbn [fst snd].
  rewrite Hio.
  split; [done|]. split.
  { unfold requests. cbn [trace emit set_handles snd].
    rewrite Htr1, Htr0, !omap_app. cbn [omap list_omap request_of transfer].
    by rewrite !app_nil_r. }
  split.
  { cbn [fs emit set_handles snd].
    by rewrite Hfs1, lookup_insert_eq, Hfs0, lookup_insert_eq. }
  split.
  { cbn [tasks emit set_handles snd]. rewrite Hts1, Hts0, list_insert_insert_eq.
    by rewrite list_lookup_insert_eq by (by eapply lookup_lt_Some). }
  split.
  { unfold new_events. cbn [trace emit set_handles snd].
    rewrite Htr1, Htr0, <- !app_assoc, drop_app_length. reflexivity. }
  unfold new_events. cbn [trace emit set_handles snd].
  rewrite Htr1, Htr0, <- !app_assoc, drop_app_length. reflexivity.
Qed.

(** ** Files that fail *)

(** X23. A file that cannot be opened. When both requests are answered and
    the total is determined but [open] raises, [copy_url] ends with that
    exception (ValueError when the call is refused, OSError otherwise);
    the total has been set, the task is not started, and no file or handle
    has changed. *)
Theorem copy_url_open_fails (w : World) (s : State) (task_id : nat)
    (url path : string) (response meta : Response) (n : Z) (t : Task) :
  tasks s !! task_id = Some t ->
  net w (length (requests s)) (Get url true) = Some response ->
  net w (S (length (requests s))) (Head url) = Some meta ->
  declared_total response meta = Ok n ->
  opens w path <> Opened ->
  let out := copy_url task_id url path w s in
  fst out = Raise (match opens w path with Refused => ValueError | _ => OSError end) /\
  tasks (snd out) !! task_id = Some (task_set_total n t) /\
  fs (snd out) = fs s /\
  handles (snd out) = handles s /\
  new_events s (snd out)
    = [EvLog ("Requesting " +:+ url); EvRequest (Get url true);
       EvRequest (Head url); EvSetTotal task_id n].
Proof.
  intros Ht Hget Hhead Htot Hopen. cbv zeta.
  rewrite copy_url_cases. cbv zeta. rewrite Hget, Hhead, Htot, Ht.
  destruct (opens w path); [done| |];
    (split; [done|]; split;
     [cbn [snd tasks emit set_tasks];
      apply list_lookup_insert_eq; by eapply lookup_lt_Some|];
     split; [done|]; split; [done|]; by new_events_of_trace).
Qed.

(** X24. A close that fails. In every run of [copy_url], when closing the
    destination file fails, the call raises OSError and logs no completion
    line, also when every byte had been written and counted; the handle is
    released all the same. *)
Theorem copy_url_close_fails (w : World) (s : State) (task_id : nat)
    (url path : string) (i k : nat) :
  let out := copy_url task_id url path w s in
  new_events s (snd out) !! i = Some (EvClose path) ->
  io_error w (length (trace s) + i) = Some k ->
  fst out = Raise OSError /\
  S i = length (new_events s (snd out)) /\
  ~ In (EvLog ("Downloaded " +:+ path)) (new_events s (snd out)) /\
  handles (snd out) = handles s.
Proof.
  cbv zeta.
  destruct (copy_url_ways task_id url path w s)
    as [[_ ->]|[[_ ->]|[(r & m & e & _ & _ & _ & ->)|[[_ ->]|[(n & t & _ & _ & ->)|H]]]]].
  1-5: new_events_of_trace; intros Hi;
       do 5 (destruct i as [|i]; [discriminate Hi|]); discriminate Hi.
  destruct H as (response & meta & n & t & Ht & Hget & Hhead & Htot & Hopen).
  destruct (copy_url_run task_id url path w s response meta n t
              Ht Hget Hhead Htot Hopen)
    as (done & evs & fl & _ & Hall & Htr & _ & _ & Hh & _ & _ & Hres & _).
  rewrite (new_events_app _ _ _ Htr), Hres. intros Hi Hk.
  do 6 (destruct i as [|i]; [discriminate Hi|]).
  cbn [app lookup list_lookup] in Hi.
  apply lookup_app_Some in Hi as [Hi | [Hge Hi]].
  { rewrite Forall_forall in Hall.
    apply list_elem_of_lookup_2, Hall in Hi. done. }
  destruct (i - length evs)%nat as [|j] eqn:Hj.
  - assert (i = length evs) as -> by lia.
    replace (length (trace s) + S (S (S (S (S (S (length evs)))))))%nat
      with (length (trace s) + 6 + length evs)%nat in Hk by lia.
    rewrite Hk. split; [done|].
    split.
    { rewrite !length_app. destruct fl as [[]|]; simpl; lia. }
    split; [|exact Hh].
    intros Hin. apply in_app_or in Hin as [Hin | Hin].
    + simpl in Hin. repeat (destruct Hin as [Hin | Hin]; [discriminate Hin|]). done.
    + apply in_app_or in Hin as [Hin | Hin].
      * rewrite Forall_forall in Hall. apply list_elem_of_In, Hall in Hin. done.
      * destruct fl as [[]|]; simpl in Hin; destruct Hin as [Hin | []];
          discriminate Hin.
  - destruct fl as [[]|]; destruct (io_error w _); destruct j; discriminate Hi.
Qed.

(** ** The Dispatcher's jobs in the Fetcher's hands *)

Lemma copy_url_key_error task_id url path w s :
  fst (copy_url task_id url path w s) = Raise KeyError ->
  tasks s !! task_id = None.
Proof.
  intros Hfst.
  destruct (copy_url_ways task_id url path w s)
    as [[_ Hout]|[[_ Hout]|[(r & m & e & _ & _ & Htot & Hout)|[[Hnone _]|[(n & t & _ & _ & Hout)|H]]]]].
  - by rewrite Hout in Hfst.
  - by rewrite Hout in Hfst.
  - rewrite Hout in Hfst. injection Hfst as ->.
    unfold declared_total in Htot.
    destruct (header m "Content-Length") as [v|].
    + by destruct (int v).
    + by destruct (truncated r).
  - exact Hnone.
  - rewrite Hout in Hfst. by destruct (opens w path).
  - destruct H as (response & meta & n & t & Ht & Hget & Hhead & Htot & Hopen).
    destruct (copy_url_run task_id url path w s response meta n t
                Ht Hget Hhead Htot Hopen)
      as (done & evs & fl & _ & _ & _ & _ & _ & _ & _ & _ & Hres & _ & _ & _ & _ & _
          & Hraise & _).
    rewrite Hres in Hfst.
    destruct (io_error w _); [discriminate Hfst|].
    destruct fl as [[]|e0]; try discriminate Hfst.
    injection Hfst as ->. by destruct (Hraise _ eq_refl ltac:(done)) as [? _].
Qed.

Lemma download_tables_in_step_aux dest_dir urls w s i j :
  (length (submitted s) <= i)%nat ->
  submitted (snd (download urls dest_dir w s)) !! i = Some j ->
  exists t, tasks (snd (download urls dest_dir w s)) !! j_task j = Some t.
Proof.
  intros Hi Hj.
  destruct (download_any dest_dir urls w s)
    as (k & js & ts & evs & _ & Hsub & Hts & _ & Htid & Hmade & _).
  rewrite Hsub, lookup_app_r in Hj by done.
  destruct (Forall2_lookup_l _ _ _ _ _ Hmade Hj) as (t & Ht & _).
  exists t.
  assert (H1 : map j_task js !! (i - length (submitted s))%nat = Some (j_task j))
    by (by rewrite list_lookup_fmap, Hj).
  rewrite Htid in H1. apply lookup_seq in H1 as [-> _].
  rewrite Hts, lookup_app_r, Nat.add_comm, Nat.add_sub by lia. exact Ht.
Qed.

(** X22. Every job that [download] submits finds its task: run on the state
    [download] leaves, whatever the network then answers, [copy_url] with the
    job's arguments never fails for an unknown task id. *)
Theorem submitted_jobs_find_their_task (w w' : World) (s : State)
    (dest_dir : string) (urls : list string) (i : nat) (j : Job) :
  let s' := snd (download urls dest_dir w s) in
  (length (submitted s) <= i)%nat ->
  submitted s' !! i = Some j ->
  is_Some (tasks s' !! j_task j) /\
  fst (copy_url (j_task j) (j_url j) (j_path j) w' s') <> Raise KeyError.
Proof.
  cbv zeta. intros Hi Hj.
  assert (Ht : is_Some (tasks (snd (download urls dest_dir w s)) !! j_task j)).
  { destruct (download_tables_in_step_aux dest_dir urls w s i j Hi Hj) as (t & Ht).
    by exists t. }
  split; [exact Ht|].
  intros Hkey. apply copy_url_key_error in Hkey.
  rewrite Hkey in Ht. by destruct Ht.
Qed.

(** ** Runs of the further properties on sample inputs *)

(** A whole download of five bytes. *)
Lemma X1_witness :
  fs (snd (copy_url 0 "http://h/f" "./f" (net_script hello_answers None) one_task))
    !! "./f" = Some hello.
Proof.
  refine (proj1 (proj2 (copy_url_completes (net_script hello_answers None) one_task
            0 "http://h/f" "./f" (mk_response 200 [] hello)
            (mk_response 200 [("content-length", "5")] []) 5 pending_task
            _ _ _ _ _ (fun _ => eq_refl) _ _))); reflexivity.
Defined.

(** Nine bytes were announced; five arrive, in two pieces, and then the
    connection breaks. *)
Lemma X2_witness :
  let w := net_script
             [Some broken_hello;
              Some (mk_response 200 [("content-length", "9")] [])] None in
  fst (copy_url 0 "http://h/f" "./f" w one_task) = Raise ChunkedEncodingError.
Proof.
  intros w.
  refine (proj1 (copy_url_broken_stream w one_task 0 "http://h/f" "./f"
            broken_hello (mk_response 200 [("content-length", "9")] [])
            9 pending_task _ _ _ _ _ (fun _ => eq_refl) _ _)); reflexivity.
Defined.

(** The network is down. *)
Lemma X4_witness :
  requests (snd (copy_url 0 "http://h/f" "./f" (net_script [] None) one_task))
  = [Get "http://h/f" true].
Proof.
  refine (proj2 (proj2 (proj2 (proj2
            (copy_url_transport_failure (net_script [] None) one_task
               0 "http://h/f" "./f" (or_introl _)))))); reflexivity.
Defined.


Lemma X6_witness :
  let w := net_script
             [Some (mk_response 200 [] hello);
              Some (mk_response 200 [("content-length", "five")] [])] None in
  fst (copy_url 0 "http://h/f" "./f" w one_task) = Raise ValueError.
Proof.
  intros w.
  refine (proj1 (copy_url_bad_content_length w one_task 0 "http://h/f" "./f"
            (mk_response 200 [] hello)
            (mk_response 200 [("content-length", "five")] []) "five" _ _ _ _));
    reflexivity.
Defined.

(** The check after the first chunk sees the flag. *)
Lemma X7_witness :
  fst (copy_url 0 "http://h/f" "./f" (net_script hello_answers (Some 0%nat)) one_task)
  = Ok tt.
Proof.
  refine (proj2 (copy_url_returns_on_flag (net_script hello_answers (Some 0%nat))
            one_task 0 "http://h/f" "./f" 9 _)); reflexivity.
Defined.

(** No Content-Length: the total is the body's length, and the counter
    stays within it. *)
Lemma X8_witness :
  let w := net_script
             [Some (mk_response 200 [] hello);
              Some (mk_response 200 [("content-type", "text/html")] [])] None in
  t_total <$> tasks (snd (copy_url 0 "http://h/f" "./f" w one_task)) !! 0%nat
  = Some (Some 5).
Proof.
  intros w.
  refine (proj2 (copy_url_counter_bounded w one_task 0 "http://h/f" "./f"
            (mk_response 200 [] hello)
            (mk_response 200 [("content-type", "text/html")] [])
            pending_task 0 _ _ _) _ _); reflexivity.
Defined.

Lemma X9_witness :
  exists data t',
    fs (snd (copy_url 0 "http://h/f" "./f" (net_script hello_answers (Some 0%nat))
               one_task)) !! "./f" = Some data /\
    tasks (snd (copy_url 0 "http://h/f" "./f" (net_script hello_answers (Some 0%nat))
                  one_task)) !! 0%nat = Some t' /\
    t_completed t' = t_completed pending_task + len data.
Proof.
  destruct (copy_url_counter_is_file_size (net_script hello_answers (Some 0%nat))
              one_task 0 "http://h/f" "./f" (mk_response 200 [] hello)
              (mk_response 200 [("content-length", "5")] []) 5 pending_task
              eq_refl eq_refl eq_refl eq_refl eq_refl (fun _ => eq_refl))
    as (data & t' & H1 & H2 & H3 & _).
  by exists data, t'.
Defined.

(** Two URLs, both probed successfully. *)
Lemma X10_witness :
  let r := mk_response 200 [("content-type", "text/html")] [] in
  requests (snd (download ["http://h/a"; "http://h/b"] "out"
                   (net_script [Some r; Some r] None) init_state))
  = [Head "http://h/a"; Head "http://h/b"].
Proof.
  intros r.
  refine (proj1 (proj2 (download_in_order (net_script [Some r; Some r] None)
            init_state "out" ["http://h/a"; "http://h/b"] _))); reflexivity.
Defined.

Lemma X16_witness :
  NoDup (Pool.running five_jobs_state ++ Pool.finished five_jobs_state).
Proof.
  refine (pool_runs_each_job_once 4 five_jobs five_jobs_state _); reflexivity.
Defined.

Lemma X17_witness :
  (4 < Pool.next five_jobs_state)%nat /\ Pool.started five_jobs_state 3.
Proof.
  assert (H4 : Pool.started five_jobs_state 4).
  { left. apply list_elem_of_In. vm_compute. tauto. }
  destruct (proj1 (pool_fifo 4 five_jobs five_jobs_state eq_refl) 4%nat H4)
    as [Hlt Hbefore].
  split; [exact Hlt | apply Hbefore; lia].
Defined.

Lemma X18_witness :
  exists ls' p',
    Pool.run ls' five_jobs_state = Some p' /\
    Pool.queue p' = [] /\ Pool.running p' = [].
Proof.
  destruct (pool_drains 4 five_jobs five_jobs_state) as (ls' & p' & H1 & H2 & H3 & _).
  - lia.
  - reflexivity.
  - by exists ls', p'.
Defined.

(** Two hosts serving a file of the same name. *)
Lemma X20_witness :
  let r := mk_response 200 [("content-type", "text/html")] [] in
  let s' := snd (download ["http://a/x"; "http://b/x"] "out"
                   (net_script [Some r; Some r] None) init_state) in
  exists j1 j2,
    submitted s' !! 0%nat = Some j1 /\ submitted s' !! 1%nat = Some j2 /\
    j_path j1 = j_path j2.
Proof.
  intros r s'.
  destruct (download_same_name_same_path (net_script [Some r; Some r] None)
              init_state "out" [] [] [] "http://a/x" "http://b/x" r r
              "text/html" "text/html"
              eq_refl eq_refl eq_refl eq_refl eq_refl eq_refl eq_refl)
    as (j1 & j2 & H1 & H2 & _ & _ & H3 & _).
  by exists j1, j2.
Defined.

(** The interrupt came before the job: of the two pieces of the chunked
    transfer only "hel" is written. *)
Lemma X21_witness :
  let meta := mk_response 200 [("content-length", "5")] [] in
  let w := net_script [Some chunked_hello; Some meta] (Some 0%nat) in
  fs (snd (copy_url 0 "http://h/f" "./f" w one_task)) !! "./f"
  = Some [Byte.x68; Byte.x65; Byte.x6c].
Proof.
  intros meta w.
  refine (proj1 (proj2 (proj2
            (copy_url_started_after_interrupt w one_task 0 "http://h/f" "./f"
               chunked_hello meta 5 pending_task 0
               [Byte.x68; Byte.x65; Byte.x6c] [[Byte.x6c; Byte.x6f]]
               _ _ _ _ _ (fun _ => eq_refl) _ _ _))));
    reflexivity.
Defined.

(** A job of a sample download. *)
Lemma X22_witness :
  let r := mk_response 200 [("content-type", "text/html")] [] in
  let w := net_script [Some r] None in
  fst (copy_url 0 "http://h/a" "out/a" (net_script [] None)
         (snd (download ["http://h/a"] "out" w init_state)))
  <> Raise KeyError.
Proof.
  intros r w.
  refine (proj2 (submitted_jobs_find_their_task w (net_script [] None) init_state
            "out" ["http://h/a"] 0
            {| j_task := 0; j_url := "http://h/a"; j_path := "out/a" |} _ _)).
  - simpl. lia.
  - reflexivity.
Defined.

(** An installation whose [open] refuses the mode "wb". *)
Lemma X23_witness :
  let w := with_files Refused (fun _ => None) (net_script hello_answers None) in
  fst (copy_url 0 "http://h/f" "./f" w one_task) = Raise ValueError.
Proof.
  intros w.
  refine (proj1 (copy_url_open_fails w one_task 0 "http://h/f" "./f"
            (mk_response 200 [] hello)
            (mk_response 200 [("content-length", "5")] []) 5 pending_task
            _ _ _ _ _)); try reflexivity. discriminate.
Defined.

(** All five bytes are written and counted, and then the close fails. *)
Lemma X24_witness :
  let w := with_files Opened (fun t => if (t =? 10)%nat then Some 2%nat else None)
             (net_script hello_answers None) in
  fst (copy_url 0 "http://h/f" "./f" w one_task) = Raise OSError.
Proof.
  intros w.
  refine (proj1 (copy_url_close_fails w one_task 0 "http://h/f" "./f" 10 2 _ _));
    reflexivity.
Defined.
